(** * Verification of the tabular-data pipeline (data_parser.py) and of the
      review client (reviewer.py)

    The two Python scripts are embedded as executable Rocq functions, each
    in a module of its own ([DataParser], [Reviewer]) over a small model of
    what they use of Python ([Py]), of the file system ([Os]) and of the
    [json] module ([Json]). The properties follow in [JsonFacts],
    [FloatFacts], [DataParserFacts] and [ReviewerFacts], and further ones
    in [DataParserMore] and [ReviewerMore].

    - Text is [string]: one [ascii] per character, so the characters of the
      development are the code points 0..255.
    - A record is a Python [dict] from field names to values; records are
      objects of a store ([heap]), addressed by their index, because
      [normalize_age] updates them in place and the lists handed around by
      the pipeline share them.  Lists themselves are only ever built locally
      ([rows], [filtered]) and are kept as Rocq lists of addresses.
    - A [float] is a finite binary64 number, given by its sign, mantissa
      and exponent; the division of two [int]s rounds the quotient to the
      nearest one.
    - Statements that can raise run in a state-and-exception monad. *)

From Stdlib Require Import Ascii String ZArith QArith Qabs.
From stdpp Require Import gmap strings list fin_maps.

Open Scope Z_scope.

(** ** Python values, exceptions and the monad of statements *)
Module Py.

(** The exceptions the scripts meet. [NoObject] is not one of Python's: it
    is what the model answers when an address holds no object, which no
    run of the scripts produces. *)
Inductive exn :=
| FileNotFoundError (path : string)
| IsADirectoryError (path : string)
| PermissionError (path : string)
| UnicodeDecodeError
| CsvError (msg : string)
| JSONDecodeError
| KeyError (key : string)
| ValueError
| TypeError
| ZeroDivisionError
| OverflowError
| OpenAIError (msg : string)
| SystemExit (code : Z)
| NoObject (address : nat).

(** [OSError] and its subclasses, as caught by [except OSError]. *)
Definition is_OSError (e : exn) : bool :=
  match e with
  | FileNotFoundError _ | IsADirectoryError _ | PermissionError _ => true
  | _ => false
  end.

Inductive res (A : Type) :=
| Ok (a : A)
| Raise (e : exn).
Arguments Ok {A} a.
Arguments Raise {A} e.

(** A statement: from a state to a result or a raised exception, and the
    state it leaves. *)
Definition M (S A : Type) : Type := S → res A * S.

#[global] Instance M_ret {S} : MRet (M S) := λ A a s, (Ok a, s).

#[global] Instance M_bind {S} : MBind (M S) := λ A B f m s,
  match m s with
  | (Ok a, s') => f a s'
  | (Raise e, s') => (Raise e, s')
  end.

Definition raise {S A} (e : exn) : M S A := λ s, (Raise e, s).

Definition lift {S A} (r : res A) : M S A := λ s, (r, s).

Definition modify {S} (f : S → S) : M S unit := λ s, (Ok (), f s).

(** [for x in l: acc = body(acc, x)]: a loop over a list whose body updates
    the local variable [acc]. *)
Fixpoint for_fold {S A B} (l : list A) (acc : B) (body : B → A → M S B) : M S B :=
  match l with
  | [] => mret acc
  | x :: rest => acc' ← body acc x; for_fold rest acc' body
  end.

(** [for x in l: body(x)]. *)
Fixpoint for_each {S A} (l : list A) (body : A → M S unit) : M S unit :=
  match l with
  | [] => mret ()
  | x :: rest => body x;; for_each rest body
  end.

(** Field values: [None], an [int], a [str]. *)
Inductive value :=
| VNone
| VInt (z : Z)
| VStr (s : string).

#[global] Instance value_eq_dec : EqDecision value.
Proof. solve_decision. Defined.

(** A record: a [dict] from field names to values. *)
Abbreviation record := (gmap string value).

(** [a == b] on these values. *)
Definition py_eq (a b : value) : bool := bool_decide (a = b).

Definition code (c : ascii) : Z := Z.of_N (N_of_ascii c).

(** [str.isspace] on a character below 256. *)
Definition py_isspace (c : ascii) : bool :=
  let n := code c in
  ((9 <=? n) && (n <=? 13)) || ((28 <=? n) && (n <=? 32))
  || (n =? 133) || (n =? 160).

Fixpoint lstrip_with (p : ascii → bool) (s : string) : string :=
  match s with
  | String c r => if p c then lstrip_with p r else s
  | EmptyString => EmptyString
  end.

Fixpoint rstrip_with (p : ascii → bool) (s : string) : string :=
  match s with
  | String c r =>
      match rstrip_with p r with
      | EmptyString => if p c then EmptyString else String c EmptyString
      | r' => String c r'
      end
  | EmptyString => EmptyString
  end.

Definition strip_with (p : ascii → bool) (s : string) : string :=
  lstrip_with p (rstrip_with p s).

(** [s.strip()]. *)
Definition strip (s : string) : string := strip_with py_isspace s.

(** The white space that [int(s)] skips around the literal: the C-locale
    white space, and the two spaces above 127 (which the conversion first
    turns into blanks). *)
Definition int_space (c : ascii) : bool :=
  let n := code c in
  ((9 <=? n) && (n <=? 13)) || (n =? 32) || (n =? 133) || (n =? 160).

Definition digit_val (c : ascii) : option Z :=
  let n := code c in
  if (48 <=? n) && (n <=? 57) then Some (n - 48) else None.

(** The digits of a base-10 literal: at least one digit, single underscores
    between digits only. [prev] tells that the previous character was a
    digit. *)
Fixpoint int_body (s : string) (acc : Z) (prev : bool) : option Z :=
  match s with
  | EmptyString => if prev then Some acc else None
  | String c r =>
      if bool_decide (c = "_"%char)
      then (if prev then int_body r acc false else None)
      else match digit_val c with
           | Some d => int_body r (10 * acc + d) true
           | None => None
           end
  end.

(** [int(s)] for a [str]; [None] stands for [ValueError]. The interpreter's
    configurable cap on the number of digits is not part of the model. *)
Definition int_of_str (s : string) : option Z :=
  match strip_with int_space s with
  | String "+" r => int_body r 0 false
  | String "-" r => Z.opp <$> int_body r 0 false
  | t => int_body t 0 false
  end.

(** [int(v)]. *)
Definition py_int (v : value) : res Z :=
  match v with
  | VInt z => Ok z
  | VStr s => match int_of_str s with Some z => Ok z | None => Raise ValueError end
  | VNone => Raise TypeError
  end.

(** [a + b]. *)
Definition py_add (a b : value) : res value :=
  match a, b with
  | VInt x, VInt y => Ok (VInt (x + y))
  | VStr x, VStr y => Ok (VStr (x +:+ y))
  | _, _ => Raise TypeError
  end.

(** *** Floats

    A finite binary64 number is [(-1)^sign * mantissa * 2^exponent], with a
    mantissa below 2^53 and an exponent from -1074 to 971; the mantissa is
    at least 2^52 unless the exponent is -1074 (the zeros and the
    subnormal numbers). The infinities and the NaNs are left out: no
    division of two [int]s returns them. *)
Record float := mkFloat { f_neg : bool; f_mant : Z; f_exp : Z }.

Definition is_binary64 (f : float) : Prop :=
  0 ≤ f_mant f < 2 ^ 53 ∧ -1074 ≤ f_exp f ≤ 971
  ∧ (f_exp f = -1074 ∨ 2 ^ 52 ≤ f_mant f).

(** The number in units of 2^-1074, the smallest positive binary64
    number: every binary64 number is an integer in this unit. *)
Definition float_units (f : float) : Z :=
  (if f_neg f then -1 else 1) * (f_mant f * 2 ^ (f_exp f + 1074)).

(** The number as a rational. *)
Definition float_value (f : float) : Q :=
  float_units f # Z.to_pos (2 ^ 1074).

(** How far the number is from the quotient [a / b]. *)
Definition distance (f : float) (a b : Z) : Q :=
  Qabs (float_value f - inject_Z a / inject_Z b).

(** The quotient [n / d] of two positive integers, rounded to the nearest
    number [m * 2^e] with [m < 2^53] and [-1074 <= e], ties going to the even
    mantissa; the exponent is not bounded above. In units of 2^-1074 the
    quotient is [x / d] with [x = n * 2^1074], the exponent in these units
    is the least [e >= 0] that leaves at most 53 bits to the mantissa, and
    the mantissa is [x / (d * 2^e)] rounded to an integer. A mantissa
    rounded up to 2^53 is 2^52 with the next exponent. *)
Definition round_quotient (n d : Z) : Z * Z :=
  let x := n * 2 ^ 1074 in
  let e := Z.max 0 (Z.log2 (x / d) - 52) in
  let m0 := x / (d * 2 ^ e) in
  let r := x mod (d * 2 ^ e) in
  let m := match 2 * r ?= d * 2 ^ e with
           | Lt => m0
           | Eq => if Z.even m0 then m0 else m0 + 1
           | Gt => m0 + 1
           end in
  if m =? 2 ^ 53 then (2 ^ 52, e + 1 - 1074) else (m, e - 1074).

(** [a / b] for two [int]s: true division. CPython returns the binary64
    number nearest to the quotient, ties to even, with the sign of the
    quotient (a zero dividend counts as positive); it raises
    [OverflowError] when that number is beyond the exponent range, and
    [ZeroDivisionError] when [b] is 0. *)
Definition int_truediv (a b : Z) : res float :=
  if b =? 0 then Raise ZeroDivisionError
  else
    let '(m, e) := round_quotient (Z.abs a) (Z.abs b) in
    if 971 <? e then Raise OverflowError
    else Ok (mkFloat (xorb (a <? 0) (b <? 0)) m e).

(** [a / b] with [b] an [int]. *)
Definition py_truediv (a : value) (b : Z) : res float :=
  match a with
  | VInt x => int_truediv x b
  | _ => Raise TypeError
  end.

(** The newline character and the string that holds it. *)
Definition NL : string := String "010" EmptyString.

Definition digit_char (d : Z) : ascii := ascii_of_N (Z.to_N (48 + d)).

(** The decimal digits of [n >= 0], most significant first, in front of
    [acc]; [fuel] bounds their number. *)
Fixpoint digits (fuel : nat) (n : Z) (acc : string) : string :=
  match fuel with
  | O => acc
  | S fuel' =>
      let acc' := String (digit_char (n mod 10)) acc in
      if n <? 10 then acc' else digits fuel' (n / 10) acc'
  end.

(** [str(z)] for an [int]. *)
Definition str_of_int (z : Z) : string :=
  let n := Z.abs z in
  let ds := digits (S (Z.to_nat (Z.log2 n))) n EmptyString in
  if z <? 0 then String "-" ds else ds.

(** [f"{z:,}"] for [z >= 0]: the decimal digits in groups of three,
    counted from the right, with commas between the groups. *)
Fixpoint group3 (rev_digits : list ascii) : list ascii :=
  match rev_digits with
  | a :: b :: c :: (_ :: _) as rest => a :: b :: c :: ","%char :: group3 rest
  | short => short
  end.

Definition str_of_int_commas (z : Z) : string :=
  string_of_list_ascii (rev (group3 (rev (list_ascii_of_string (str_of_int z))))).

(** [s.split(sep)] for a separator of one character. *)
Fixpoint split_on (sep : ascii) (s : string) : list string :=
  match s with
  | EmptyString => [EmptyString]
  | String c r =>
      if bool_decide (c = sep) then EmptyString :: split_on sep r
      else match split_on sep r with
           | x :: xs => String c x :: xs
           | [] => [String c EmptyString]
           end
  end.

(** [s * n]. *)
Fixpoint str_repeat (s : string) (n : nat) : string :=
  match n with
  | O => EmptyString
  | S n' => s +:+ str_repeat s n'
  end.

(** [sep.join(l)]. *)
Fixpoint str_join (sep : string) (l : list string) : string :=
  match l with
  | [] => EmptyString
  | [x] => x
  | x :: rest => x +:+ sep +:+ str_join sep rest
  end.

(** [c in s] for a character. *)
Fixpoint str_contains (c : ascii) (s : string) : bool :=
  match s with
  | EmptyString => false
  | String x r => bool_decide (x = c) || str_contains c r
  end.

(** [c.isprintable()] for a character below 256. *)
Definition py_isprintable (c : ascii) : bool :=
  let n := code c in
  ((32 <=? n) && (n <? 127)) || ((161 <=? n) && negb (n =? 173)).

Definition hex_char (n : Z) : ascii :=
  ascii_of_N (Z.to_N (if n <? 10 then 48 + n else 87 + n)).

(** What [repr] makes of one character of a [str] shown between the
    quotes [quote]: the quote and the backslash get a backslash, tab,
    newline and carriage return their letter, any other character that is
    not printable its two hexadecimal digits. *)
Definition repr_char (quote c : ascii) : string :=
  let n := code c in
  if bool_decide (c = quote) || (n =? 92) then String "092" (String c EmptyString)
  else if n =? 9 then String "092" "t"
  else if n =? 10 then String "092" "n"
  else if n =? 13 then String "092" "r"
  else if py_isprintable c then String c EmptyString
  else String "092" (String "x" (String (hex_char (n / 16))
                                   (String (hex_char (n mod 16)) EmptyString))).

Fixpoint repr_body (quote : ascii) (s : string) : string :=
  match s with
  | EmptyString => EmptyString
  | String c r => repr_char quote c +:+ repr_body quote r
  end.

(** [repr(s)] for a [str]: the text between single quotes, or between
    double quotes when it holds a single quote and no double quote. *)
Definition py_repr (s : string) : string :=
  let quote := if str_contains "'" s && negb (str_contains "034" s)
               then "034"%char else "'"%char in
  String quote (repr_body quote s +:+ String quote EmptyString).

(** [try: m except ...: h]: [h] tells which exceptions the handler takes
    and what it does with them. *)
Definition try_except {S A} (m : M S A) (h : exn → option (M S A)) : M S A := λ s,
  match m s with
  | (Raise e, s') =>
      match h e with
      | Some handler => handler s'
      | None => (Raise e, s')
      end
  | r => r
  end.

End Py.

(** ** Files, as the scripts see them *)
Module Os.

(** What reading a file in text mode yields: its text, or a decoding error
    when its bytes are not text in the encoding. *)
Inductive content :=
| Text (s : string)
| Undecodable.

Record file := mkFile { readable : bool; writable : bool; data : content }.

(** What a path resolves to. A path that the map does not hold names
    nothing, in a directory where a file can be created; [NNoDir] is a path
    below a directory that does not exist. *)
Inductive node :=
| NFile (f : file)
| NDir
| NNoDir.

Abbreviation fs := (gmap string node).

(** [os.path.exists] / [Path.exists]. *)
Definition exists_ (files : fs) (path : string) : bool :=
  match files !! path with
  | Some (NFile _) | Some NDir => true
  | _ => false
  end.

Inductive mode := ModeR | ModeW.

(** A file object: the path it was opened on, its mode, and whether it is
    still open. *)
Record handle := mkHandle { h_path : string; h_mode : mode; h_open : bool }.

End Os.


(** ** The [json] module

    [json.dump] and [json.loads] are library code; this is their behaviour
    with the default settings, on the text of the development. The encoder
    takes what the script hands it, a list of records; the decoder takes
    any text. *)
Module Json.
Import Py.

Definition DQ : ascii := "034"%char.
Definition BACKSLASH : ascii := "\"%char.

(** *** Encoder: [json.dumps(records)] *)

Definition hex_digit (n : Z) : ascii :=
  ascii_of_N (Z.to_N (if n <? 10 then 48 + n else 87 + n)).

(** What [ensure_ascii] makes of one character of a string. *)
Definition escape_char (c : ascii) : string :=
  let n := code c in
  if bool_decide (c = DQ) then String BACKSLASH (String DQ EmptyString)
  else if bool_decide (c = BACKSLASH) then String BACKSLASH (String BACKSLASH EmptyString)
  else if n =? 10 then String BACKSLASH "n"
  else if n =? 13 then String BACKSLASH "r"
  else if n =? 9 then String BACKSLASH "t"
  else if n =? 8 then String BACKSLASH "b"
  else if n =? 12 then String BACKSLASH "f"
  else if (n <? 32) || (126 <? n)
  then String BACKSLASH (String "u" (String "0" (String "0"
         (String (hex_digit (n / 16)) (String (hex_digit (n mod 16)) EmptyString)))))
  else String c EmptyString.

Fixpoint escape (s : string) : string :=
  match s with
  | EmptyString => EmptyString
  | String c r => escape_char c +:+ escape r
  end.

Definition dumps_str (s : string) : string :=
  String DQ (escape s +:+ String DQ EmptyString).

Definition dumps_value (v : value) : string :=
  match v with
  | VNone => "null"
  | VInt z => str_of_int z
  | VStr s => dumps_str s
  end.

(** [sep.join(l)]. *)
Fixpoint join (sep : string) (l : list string) : string :=
  match l with
  | [] => EmptyString
  | [x] => x
  | x :: rest => x +:+ sep +:+ join sep rest
  end.

Definition dumps_item (kv : string * value) : string :=
  dumps_str kv.1 +:+ ": " +:+ dumps_value kv.2.

(** The fields are written in the order in which the map lists them. *)
Definition dumps_record (d : record) : string :=
  "{" +:+ join ", " (dumps_item <$> map_to_list d) +:+ "}".

Definition dumps_records (l : list record) : string :=
  "[" +:+ join ", " (dumps_record <$> l) +:+ "]".

(** *** Decoder: [json.loads(text)] *)

(** What the decoder builds. A string is the list of its code points,
    since an escape can name a character above 255; an object is the list
    of its members in the order of the text; a number with a fraction or an
    exponent is kept as its literal. *)
#[warnings="-register-all"]
Inductive jval :=
| JNull
| JBool (b : bool)
| JInt (z : Z)
| JFloat (literal : string)
| JStr (s : list Z)
| JList (l : list jval)
| JDict (items : list (list Z * jval)).

(** A scanner returns what it read and the rest of the text, or fails. *)
Definition scan (A : Type) : Type := option (A * string).

Definition scan_map {A B} (f : A → B) (r : scan A) : scan B :=
  match r with
  | Some (a, rest) => Some (f a, rest)
  | None => None
  end.

Definition json_ws (c : ascii) : bool :=
  let n := code c in
  (n =? 32) || (n =? 9) || (n =? 10) || (n =? 13).

Definition skip_ws (s : string) : string := lstrip_with json_ws s.

(** The rest of [s] after the prefix [p], when [s] starts with [p]. *)
Fixpoint strip_prefix (p s : string) : option string :=
  match p with
  | EmptyString => Some s
  | String a p' =>
      match s with
      | String b s' => if bool_decide (a = b) then strip_prefix p' s' else None
      | EmptyString => None
      end
  end.

Definition hex_val (c : ascii) : option Z :=
  let n := code c in
  if (48 <=? n) && (n <=? 57) then Some (n - 48)
  else if (97 <=? n) && (n <=? 102) then Some (n - 87)
  else if (65 <=? n) && (n <=? 70) then Some (n - 55)
  else None.

Definition hex4 (a b c d : ascii) : option Z :=
  x ← hex_val a; y ← hex_val b; z ← hex_val c; t ← hex_val d;
  Some (((x * 16 + y) * 16 + z) * 16 + t).

(** The character that a one-letter escape stands for. *)
Definition simple_escape (e : ascii) : option Z :=
  if bool_decide (e = DQ) then Some 34
  else if bool_decide (e = BACKSLASH) then Some 92
  else if bool_decide (e = "/"%char) then Some 47
  else if bool_decide (e = "b"%char) then Some 8
  else if bool_decide (e = "f"%char) then Some 12
  else if bool_decide (e = "n"%char) then Some 10
  else if bool_decide (e = "r"%char) then Some 13
  else if bool_decide (e = "t"%char) then Some 9
  else None.

Definition is_high_surrogate (u : Z) : bool := (55296 <=? u) && (u <=? 56319).
Definition is_low_surrogate (u : Z) : bool := (56320 <=? u) && (u <=? 57343).

(** The body of a string, after its opening quote, up to and including
    its closing quote. *)
Fixpoint scan_string (s : string) : scan (list Z) :=
  match s with
  | EmptyString => None
  | String c r =>
      if bool_decide (c = DQ) then Some ([], r)
      else if bool_decide (c = BACKSLASH) then
        match r with
        | EmptyString => None
        | String e r1 =>
            if bool_decide (e = "u"%char) then
              match r1 with
              | String h1 (String h2 (String h3 (String h4 r2))) =>
                  match hex4 h1 h2 h3 h4 with
                  | Some u =>
                      if is_high_surrogate u then
                        match r2 with
                        | String b2 (String e2 (String g1 (String g2 (String g3 (String g4 r3))))) =>
                            if bool_decide (b2 = BACKSLASH) && bool_decide (e2 = "u"%char) then
                              match hex4 g1 g2 g3 g4 with
                              | Some u2 =>
                                  if is_low_surrogate u2
                                  then scan_map (cons (65536 + ((u - 55296) * 1024 + (u2 - 56320))))
                                                (scan_string r3)
                                  else scan_map (cons u) (scan_string r2)
                              | None => None
                              end
                            else scan_map (cons u) (scan_string r2)
                        | _ => scan_map (cons u) (scan_string r2)
                        end
                      else scan_map (cons u) (scan_string r2)
                  | None => None
                  end
              | _ => None
              end
            else
              match simple_escape e with
              | Some ch => scan_map (cons ch) (scan_string r1)
              | None => None
              end
        end
      else if code c <? 32 then None
      else scan_map (cons (code c)) (scan_string r)
  end.

Definition is_digit (c : ascii) : bool := (48 <=? code c) && (code c <=? 57).

(** The longest prefix of digits, and the rest. *)
Fixpoint span_digits (s : string) : string * string :=
  match s with
  | String c r =>
      if is_digit c then let (ds, rest) := span_digits r in (String c ds, rest)
      else (EmptyString, s)
  | EmptyString => (EmptyString, EmptyString)
  end.

Fixpoint digits_value (ds : string) (acc : Z) : Z :=
  match ds with
  | String c r => digits_value r (10 * acc + (code c - 48))
  | EmptyString => acc
  end.

(** The integer part of a number: [0], or a digit from 1 to 9 followed by
    digits. *)
Definition scan_int_part (s : string) : scan string :=
  match s with
  | String c r =>
      if bool_decide (c = "0"%char) then Some ("0"%string, r)
      else if is_digit c then let (ds, rest) := span_digits s in Some (ds, rest)
      else None
  | EmptyString => None
  end.

(** The fraction of a number, when there is one: a dot and digits. *)
Definition scan_frac (s : string) : string * string :=
  match s with
  | String c r =>
      if bool_decide (c = "."%char) then
        match span_digits r with
        | (EmptyString, _) => (EmptyString, s)
        | (ds, rest) => (String c ds, rest)
        end
      else (EmptyString, s)
  | EmptyString => (EmptyString, s)
  end.

(** The exponent of a number, when there is one. *)
Definition scan_exp (s : string) : string * string :=
  match s with
  | String c r =>
      if bool_decide (c = "e"%char) || bool_decide (c = "E"%char) then
        let (sign, r') :=
          match r with
          | String g r1 =>
              if bool_decide (g = "+"%char) || bool_decide (g = "-"%char)
              then (String g EmptyString, r1) else (EmptyString, r)
          | EmptyString => (EmptyString, r)
          end in
        match span_digits r' with
        | (EmptyString, _) => (EmptyString, s)
        | (ds, rest) => (String c (sign +:+ ds), rest)
        end
      else (EmptyString, s)
  | EmptyString => (EmptyString, s)
  end.

(** A number: an [int] when it has neither fraction nor exponent. *)
Definition scan_number (s : string) : scan jval :=
  let (neg, s1) :=
    match s with
    | String c r => if bool_decide (c = "-"%char) then (true, r) else (false, s)
    | EmptyString => (false, s)
    end in
  match scan_int_part s1 with
  | Some (ds, rest) =>
      let (frac, rest1) := scan_frac rest in
      let (ex, rest2) := scan_exp rest1 in
      match frac, ex with
      | EmptyString, EmptyString =>
          Some (JInt (if neg then - digits_value ds 0 else digits_value ds 0), rest2)
      | _, _ =>
          Some (JFloat ((if neg then "-" else "") +:+ ds +:+ frac +:+ ex), rest2)
      end
  | None => None
  end.

(** The elements of an array after its first bracket, [s] standing at the
    first of them; [n] bounds their number. *)
Fixpoint scan_elements (scan_once : string → scan jval) (n : nat) (s : string)
    : scan (list jval) :=
  match n with
  | O => None
  | S n' =>
      match scan_once s with
      | Some (v, r) =>
          match skip_ws r with
          | String c r' =>
              if bool_decide (c = "]"%char) then Some ([v], r')
              else if bool_decide (c = ","%char)
              then scan_map (cons v) (scan_elements scan_once n' (skip_ws r'))
              else None
          | EmptyString => None
          end
      | None => None
      end
  end.

(** The members of an object after its brace, [s] standing at the quote
    of the first key; [n] bounds their number. *)
Fixpoint scan_members (scan_once : string → scan jval) (n : nat) (s : string)
    : scan (list (list Z * jval)) :=
  match n with
  | O => None
  | S n' =>
      match s with
      | String q r =>
          if bool_decide (q = DQ) then
            match scan_string r with
            | Some (key, r1) =>
                match skip_ws r1 with
                | String c r2 =>
                    if bool_decide (c = ":"%char) then
                      match scan_once (skip_ws r2) with
                      | Some (v, r3) =>
                          match skip_ws r3 with
                          | String c' r4 =>
                              if bool_decide (c' = "}"%char) then Some ([(key, v)], r4)
                              else if bool_decide (c' = ","%char)
                              then scan_map (cons (key, v))
                                     (scan_members scan_once n' (skip_ws r4))
                              else None
                          | EmptyString => None
                          end
                      | None => None
                      end
                    else None
                | EmptyString => None
                end
            | None => None
            end
          else None
      | EmptyString => None
      end
  end.

(** One value; [depth] bounds the nesting. *)
Fixpoint scan_value (depth : nat) (s : string) : scan jval :=
  match depth with
  | O => None
  | S depth' =>
      match s with
      | EmptyString => None
      | String c r =>
          if bool_decide (c = DQ) then scan_map JStr (scan_string r)
          else if bool_decide (c = "{"%char) then
            match skip_ws r with
            | String c' r' =>
                if bool_decide (c' = "}"%char) then Some (JDict [], r')
                else scan_map JDict
                       (scan_members (scan_value depth') (String.length r) (skip_ws r))
            | EmptyString => None
            end
          else if bool_decide (c = "["%char) then
            match skip_ws r with
            | String c' r' =>
                if bool_decide (c' = "]"%char) then Some (JList [], r')
                else scan_map JList
                       (scan_elements (scan_value depth') (String.length r) (skip_ws r))
            | EmptyString => None
            end
          else
            match strip_prefix "null" s, strip_prefix "true" s, strip_prefix "false" s with
            | Some r', _, _ => Some (JNull, r')
            | _, Some r', _ => Some (JBool true, r')
            | _, _, Some r' => Some (JBool false, r')
            | None, None, None =>
                match scan_number s with
                | Some (v, r') => Some (v, r')
                | None =>
                    match strip_prefix "NaN" s, strip_prefix "Infinity" s,
                          strip_prefix "-Infinity" s with
                    | Some r', _, _ => Some (JFloat "NaN", r')
                    | _, Some r', _ => Some (JFloat "Infinity", r')
                    | _, _, Some r' => Some (JFloat "-Infinity", r')
                    | None, None, None => None
                    end
                end
            end
      end
  end.

(** [json.loads(text)]: one value between white space, and nothing after
    it. The nesting of a text is less than its length, so the bound on the
    depth is never met (the interpreter's own limit on recursion is not
    part of the model). *)
Definition loads (text : string) : res jval :=
  match scan_value (S (String.length text)) (skip_ws text) with
  | Some (v, rest) =>
      match skip_ws rest with
      | EmptyString => Ok v
      | _ => Raise JSONDecodeError
      end
  | None => Raise JSONDecodeError
  end.

(** A text of digits only. *)
Fixpoint all_digits (s : string) : bool :=
  match s with
  | String c r => is_digit c && all_digits r
  | EmptyString => true
  end.

(** A text before which a number ends: its first character, if any, is
    neither a digit nor the start of a fraction or of an exponent. *)
Definition ends_number (s : string) : bool :=
  match s with
  | String c _ =>
      negb (is_digit c || bool_decide (c = "."%char)
            || bool_decide (c = "e"%char) || bool_decide (c = "E"%char))
  | EmptyString => true
  end.

(** *** Decoded values as records *)

Definition codes (s : string) : list Z := code <$> list_ascii_of_string s.

Definition char_of_code (z : Z) : option ascii :=
  if (0 <=? z) && (z <? 256) then Some (ascii_of_N (Z.to_N z)) else None.

Definition str_of_codes (l : list Z) : option string :=
  string_of_list_ascii <$> mapM char_of_code l.

Definition jval_of_value (v : value) : jval :=
  match v with
  | VNone => JNull
  | VInt z => JInt z
  | VStr s => JStr (codes s)
  end.

Definition value_of_jval (v : jval) : option value :=
  match v with
  | JNull => Some VNone
  | JInt z => Some (VInt z)
  | JStr l => VStr <$> str_of_codes l
  | _ => None
  end.

Definition field_of_member (m : list Z * jval) : option (string * value) :=
  k ← str_of_codes m.1; v ← value_of_jval m.2; Some (k, v).

(** The [dict] of an object whose values are fields: of two members with
    the same key the later one stays. *)
Definition record_of_items (items : list (list Z * jval)) : option record :=
  list_to_map ∘ reverse <$> mapM field_of_member items.

Definition record_of_jval (v : jval) : option record :=
  match v with
  | JDict items => record_of_items items
  | _ => None
  end.

(** The list of records that a decoded value is, when it is one. *)
Definition records_of_jval (v : jval) : option (list record) :=
  match v with
  | JList l => mapM record_of_jval l
  | _ => None
  end.

(** The decoded value of a list of records. *)
Definition jval_of_record (d : record) : jval :=
  JDict ((λ kv, (codes kv.1, jval_of_value kv.2)) <$> map_to_list d).

Definition jval_of_records (l : list record) : jval :=
  JList (jval_of_record <$> l).

End Json.
(** ** data_parser.py *)
Module DataParser.
Import Py Os Json.

Abbreviation loc := nat.

(** The interpreter state the script acts on: the records, the files, and
    the file objects created so far. *)
Record state := mkState {
  heap : list record;
  files : fs;
  handles : list handle
}.

Definition set_heap (h : list record) (st : state) : state :=
  mkState h (files st) (handles st).
Definition set_files (f : fs) (st : state) : state :=
  mkState (heap st) f (handles st).
Definition set_handles (hs : list handle) (st : state) : state :=
  mkState (heap st) (files st) hs.

(** A new [dict] object. *)
Definition alloc (d : record) : M state loc := λ st,
  (Ok (length (heap st)), set_heap (heap st ++ [d]) st).

(** The [dict] object at an address. *)
Definition getobj (r : loc) : M state record := λ st,
  match heap st !! r with
  | Some d => (Ok d, st)
  | None => (Raise (NoObject r), st)
  end.

(** [record[key]]. *)
Definition getitem (r : loc) (key : string) : M state value := λ st,
  match heap st !! r with
  | Some d =>
      match d !! key with
      | Some v => (Ok v, st)
      | None => (Raise (KeyError key), st)
      end
  | None => (Raise (NoObject r), st)
  end.

(** [record[key] = v]. *)
Definition setitem (r : loc) (key : string) (v : value) : M state unit := λ st,
  match heap st !! r with
  | Some d => (Ok (), set_heap (<[r := <[key := v]> d]> (heap st)) st)
  | None => (Raise (NoObject r), st)
  end.

(** [open(path, "r")] and [open(path, "w")]. *)
Definition py_open (path : string) (m : mode) : M state nat := λ st,
  let h := length (handles st) in
  let opened := set_handles (handles st ++ [mkHandle path m true]) in
  match m, files st !! path with
  | ModeR, Some (NFile f) =>
      if readable f then (Ok h, opened st)
      else (Raise (PermissionError path), st)
  | ModeR, Some NDir => (Raise (IsADirectoryError path), st)
  | ModeR, _ => (Raise (FileNotFoundError path), st)
  | ModeW, Some (NFile f) =>
      if writable f
      then (Ok h, opened (set_files (<[path := NFile (mkFile (readable f) true (Text ""))]> (files st)) st))
      else (Raise (PermissionError path), st)
  | ModeW, Some NDir => (Raise (IsADirectoryError path), st)
  | ModeW, Some NNoDir => (Raise (FileNotFoundError path), st)
  | ModeW, None =>
      (Ok h, opened (set_files (<[path := NFile (mkFile true true (Text ""))]> (files st)) st))
  end.

(** [f.close()]. *)
Definition py_close (f : nat) : M state unit := λ st,
  match handles st !! f with
  | Some h => (Ok (), set_handles (<[f := mkHandle (h_path h) (h_mode h) false]> (handles st)) st)
  | None => (Raise (NoObject f), st)
  end.

(** The text behind an open file object, as reading it to the end gives it. *)
Definition read_all (f : nat) : M state string := λ st,
  match handles st !! f with
  | Some h =>
      if h_open h then
        match files st !! h_path h with
        | Some (NFile fl) =>
            match data fl with
            | Text s => (Ok s, st)
            | Undecodable => (Raise UnicodeDecodeError, st)
            end
        | _ => (Raise (NoObject f), st)
        end
      else (Raise ValueError, st)
  | None => (Raise (NoObject f), st)
  end.

(** [f.write(s)]. *)
Definition py_write (f : nat) (s : string) : M state unit := λ st,
  match handles st !! f with
  | Some h =>
      if h_open h then
        match files st !! h_path h with
        | Some (NFile fl) =>
            match data fl with
            | Text old =>
                (Ok (), set_files (<[h_path h := NFile (mkFile (readable fl) (writable fl) (Text (old +:+ s)))]> (files st)) st)
            | Undecodable => (Raise (NoObject f), st)
            end
        | _ => (Raise (NoObject f), st)
        end
      else (Raise ValueError, st)
  | None => (Raise (NoObject f), st)
  end.

(** The [csv] module is a library: what [csv.DictReader] makes of a text
    (the rows as dictionaries, or [csv.Error]) is a parameter of the
    development. *)
Class CsvLib := { DictReader : string → res (list record) }.

Section code.
Context `{CsvLib}.

(** [for row in csv.DictReader(f)]: the rows of the file as new [dict]
    objects, in row order. Decoding or parsing may raise. *)
Definition reader_rows (f : nat) : M state (list loc) :=
  text ← read_all f;
  rows ← lift (DictReader text);
  for_fold rows [] (λ ls d, l ← alloc d; mret (ls ++ [l])).

Definition read_csv (filepath : string) : M state (list loc) :=
  let rows := [] in
  f ← py_open filepath ModeR;
  reader ← reader_rows f;
  rows ← for_fold reader rows (λ rows row, mret (rows ++ [row]));
  py_close f;;
  mret rows.

Definition parse_json (data : string) : M state jval :=
  result ← lift (loads data);
  mret result.

Definition normalize_age (records : list loc) : M state (list loc) :=
  for_each records (λ record,
    age ← getitem record "age";
    n ← lift (py_int age);
    setitem record "age" (VInt n));;
  mret records.

Definition filter_by_country (records : list loc) (country : value) : M state (list loc) :=
  let filtered := [] in
  filtered ← for_fold records filtered (λ filtered record,
    c ← getitem record "country";
    if py_eq c country then mret (filtered ++ [record]) else mret filtered);
  mret filtered.

(** [json.dump(records, f)]: the records are read from the store and their
    text is written to the file object. *)
Definition json_dump (records : list loc) (f : nat) : M state unit :=
  dicts ← for_fold records [] (λ dicts r, d ← getobj r; mret (dicts ++ [d]));
  py_write f (dumps_records dicts).

Definition save_to_json (records : list loc) (output_path : string) : M state unit :=
  f ← py_open output_path ModeW;
  json_dump records f;;
  py_close f.

Definition get_average_age (records : list loc) : M state float :=
  let total := VInt 0 in
  total ← for_fold records total (λ total record,
    age ← getitem record "age";
    lift (py_add total age));
  average ← lift (py_truediv total (Z.of_nat (length records)));
  mret average.

Definition load_and_process (filepath : string) (country : value) : M state (list loc) :=
  records ← read_csv filepath;
  records ← normalize_age records;
  filtered ← filter_by_country records country;
  mret filtered.

(** *** The pipeline as the specification words it

    Reader, then Normalizer on a field, then Filter on a field and a value;
    a stage that fails ends the run with its failure. *)

Definition spec_Reader (path : string) : M state (list loc) := read_csv path.

Definition spec_Normalizer (field : string) (records : list loc) : M state (list loc) :=
  for_each records (λ r,
    v ← getitem r field;
    n ← lift (py_int v);
    setitem r field (VInt n));;
  mret records.

Definition spec_Filter (field : string) (target : value) (records : list loc) : M state (list loc) :=
  for_fold records [] (λ kept r,
    v ← getitem r field;
    if py_eq v target then mret (kept ++ [r]) else mret kept).

Definition spec_Pipeline (path : string) (target : value) : M state (list loc) :=
  (spec_Reader path ≫= spec_Normalizer "age") ≫= spec_Filter "country" target.

End code.

(** *** Vocabulary of the statements about the pipeline *)

(** One turn of the loop of [normalize_age]. *)
Definition normalize_step (record : loc) : M state unit :=
  age ← getitem record "age";
  n ← lift (py_int age);
  setitem record "age" (VInt n).

(** Why [int(record["age"])] fails on the record at [l], if it does. *)
Definition age_error (st : state) (l : loc) : option exn :=
  match heap st !! l with
  | Some d =>
      match d !! "age" with
      | Some v => match py_int v with Ok _ => None | Raise e => Some e end
      | None => Some (KeyError "age")
      end
  | None => Some (NoObject l)
  end.

(** Between [st] and [st'] the record at [l] had its age replaced by the
    integer that [int] makes of it, and nothing else changed in it. *)
Definition converted_from (st st' : state) (l : loc) : Prop :=
  ∃ d v z, heap st !! l = Some d ∧ d !! "age" = Some v ∧ py_int v = Ok z
           ∧ heap st' !! l = Some (<["age" := VInt z]> d).

(** The record at [l] holds an integer age. *)
Definition numeric_age (st : state) (l : loc) : Prop :=
  ∃ d z, heap st !! l = Some d ∧ d !! "age" = Some (VInt z).

(** The record at [l] has a field [country]. *)
Definition has_country (st : state) (l : loc) : Prop :=
  ∃ d, heap st !! l = Some d ∧ is_Some (d !! "country").

(** The field [country] of the record at [l] equals [country]. *)
Definition country_is (st : state) (country : value) (l : loc) : Prop :=
  ∃ d, heap st !! l = Some d ∧ d !! "country" = Some country.

#[global] Instance country_is_dec st country l : Decision (country_is st country l).
Proof.
  unfold country_is. destruct (heap st !! l) as [d|] eqn:Hd.
  - destruct (decide (d !! "country" = Some country)) as [Hc|Hc].
    + left. by exists d.
    + right. intros (d' & Heq & Hc'). congruence.
  - right. intros (d' & Heq & _). congruence.
Defined.

(** The age held by the record at [l] (0 when it holds none). *)
Definition age_of (st : state) (l : loc) : Z :=
  match heap st !! l with
  | Some d => match d !! "age" with Some (VInt z) => z | _ => 0 end
  | None => 0
  end.

Definition sum_ages (st : state) (records : list loc) : Z :=
  foldr Z.add 0 (age_of st <$> records).

(** All-or-nothing, as a property of one run of [normalize_age]: it either
    returns with every record converted, or raises and leaves the records
    as they were. *)
Definition all_or_nothing (st : state) (records : list loc) : Prop :=
  match normalize_age records st with
  | (Ok _, st') => Forall (numeric_age st') records
  | (Raise _, st') => heap st' = heap st
  end.

(** The result as the specification words it: [get_average_age] returns
    the arithmetic mean itself, the sum of the ages divided by the number
    of records. *)
Definition returns_exact_mean (st : state) (records : list loc) : Prop :=
  ∃ f, get_average_age records st = (Ok f, st)
    ∧ (float_value f * inject_Z (Z.of_nat (length records))
       == inject_Z (sum_ages st records))%Q.

(** The file object [h] is open. *)
Definition is_open (st : state) (h : nat) : Prop :=
  h_open <$> (handles st !! h) = Some true.

(** No file object is open in [st'] that was not open in [st]. *)
Definition leak_free (st st' : state) : Prop :=
  ∀ h, is_open st' h → is_open st h.

(** *** A reader for plain text

    A small instance of the library parameter, for text without quoting
    whose rows are no longer than the header: enough to run the pipeline on
    concrete files. *)

Definition plain_row (fieldnames fields : list string) : record :=
  list_to_map (zip fieldnames ((VStr <$> fields) ++ replicate (length fieldnames - length fields) VNone)).

Definition plain_lines (text : string) : list (list string) :=
  split_on "," <$> filter (λ line, line ≠ EmptyString) (split_on "010" text).

Definition plain_DictReader (text : string) : res (list record) :=
  match plain_lines text with
  | [] => Ok []
  | fieldnames :: rows =>
      if forallb (λ fields, length fields <=? length fieldnames)%nat rows
      then Ok (plain_row fieldnames <$> rows)
      else Raise (CsvError "row longer than the header")
  end.

Definition plain_csv : CsvLib := {| DictReader := plain_DictReader |}.

(** The text of the file at [path], when it is a text file. *)
Definition file_text (st : state) (path : string) : option string :=
  match files st !! path with
  | Some (NFile fl) => match data fl with Text s => Some s | Undecodable => None end
  | _ => None
  end.

(** The records at the addresses [records], in order. *)
Definition records_at (st : state) (records : list loc) : option (list record) :=
  mapM (λ l, heap st !! l) records.

(** *** Concrete states *)

Definition row (name age country : value) : record :=
  <["name" := name]> (<["age" := age]> (<["country" := country]> ∅)).

Definition empty_state : state := mkState [] ∅ [].

(** Two rows as the reader delivers them, the second with an age that is
    not a number. *)
Definition st_mixed : state :=
  mkState [row (VStr "A") (VStr "30") (VStr "Kenya");
           row (VStr "B") (VStr "x") (VStr "Uganda")] ∅ [].

(** Two rows after normalisation. *)
Definition st_numeric : state :=
  mkState [row (VStr "A") (VInt 30) (VStr "Kenya");
           row (VStr "B") (VInt 40) (VStr "Uganda")] ∅ [].

Definition users_csv : string :=
  "name,age,country" +:+ NL +:+ "A,30,Kenya" +:+ NL +:+ "B,40,Uganda" +:+ NL.

(** A state with the two-row file of the end-to-end example. *)
Definition st_users : state :=
  mkState [] (<["users.csv" := NFile (mkFile true true (Text users_csv))]> ∅) [].

(** A state where [users.csv] holds bytes that are not text in the
    encoding. *)
Definition st_undecodable : state :=
  mkState [] (<["users.csv" := NFile (mkFile true true Undecodable)]> ∅) [].

(** Three records of the ages 1, 1 and 2: their mean, 4/3, is no binary64
    number. *)
Definition st_thirds : state :=
  mkState [row (VStr "A") (VInt 1) (VStr "Kenya");
           row (VStr "B") (VInt 1) (VStr "Kenya");
           row (VStr "C") (VInt 2) (VStr "Kenya")] ∅ [].

(** One record with an age beyond the range of the binary64 numbers. *)
Definition st_huge : state :=
  mkState [row (VStr "A") (VInt (10 ^ 400)) (VStr "Kenya")] ∅ [].

(** Two rows as the reader delivers them: every value is text. *)
Definition st_text : state :=
  mkState [row (VStr "A") (VStr "30") (VStr "Kenya");
           row (VStr "B") (VStr "40") (VStr "Uganda")] ∅ [].

(** [st_mixed] after [normalize_age] has raised at its second record. *)
Definition st_mixed_after : state :=
  mkState [row (VStr "A") (VInt 30) (VStr "Kenya");
           row (VStr "B") (VStr "x") (VStr "Uganda")] ∅ [].

(** A record without the fields [age] and [country] after a whole one,
    among paths of every kind: a directory, a path below a directory that
    does not exist, a file that may be neither read nor written, and a
    file that holds some text. *)
Definition st_partial : state :=
  mkState [row (VStr "A") (VInt 30) (VStr "Kenya"); <["name" := VStr "B"]> ∅]
          (<["data" := NDir]>
           (<["gone/out.json" := NNoDir]>
           (<["locked.csv" := NFile (mkFile false false (Text users_csv))]>
           (<["out.json" := NFile (mkFile true true (Text "old text"))]> ∅))))
          [].

End DataParser.

(** ** reviewer.py *)
Module Reviewer.
Import Py Os.

(** U+2014 lies outside the characters of the development; where a literal
    of the script has it, its three UTF-8 bytes stand for it. *)
Definition EM_DASH : string := String "226" (String "128" (String "148" EmptyString)).

Definition MODEL : string := "gpt-4o".
Definition MAX_TOKENS : Z := 2048.

(** Approximate character limit before the user is warned about token cost. *)
Definition MAX_FILE_CHARS : Z := 12000.

Definition SYSTEM_PROMPT : string := strip ("
You are a senior Python developer conducting a thorough code review.
Your job is to identify real problems " +:+ EM_DASH +:+ " not nitpicks " +:+ EM_DASH +:+ " that would be
flagged in a professional pull request.

Review the code across these five dimensions:

1. CORRECTNESS " +:+ EM_DASH +:+ " Logic errors, incorrect assumptions, wrong return values
2. ERROR HANDLING " +:+ EM_DASH +:+ " Missing try/except, unhandled edge cases, silent failures,
   division by zero, missing file checks, type errors at runtime
3. SECURITY " +:+ EM_DASH +:+ " Hardcoded secrets, unsafe file operations, injection risks,
   unvalidated input
4. PYTHONIC STYLE " +:+ EM_DASH +:+ " PEP 8 violations, use of anti-patterns, missed use of
   context managers (with statements), list/dict comprehensions where
   appropriate, type hints missing on public functions
5. MAINTAINABILITY " +:+ EM_DASH +:+ " Unclear variable names, missing or misleading docstrings,
   functions doing too many things, magic numbers or strings

Format your response exactly like this for each issue found:

[SEVERITY] Line X " +:+ EM_DASH +:+ " Category
Problem: <one sentence describing what is wrong>
Why it matters: <one sentence explaining the consequence>
Recommendation: <one sentence explaining what to do instead>

Severity levels: CRITICAL | WARNING | SUGGESTION

After all issues, add a brief SUMMARY section (3 sentences max) with an
overall assessment.

Be direct. Do not rewrite the code. Do not praise what works correctly.
").

(** The request sent to the completion service. The temperature is the
    constant 0.2. *)
Record request := mkRequest {
  rq_model : string;
  rq_max_tokens : Z;
  rq_system : string;
  rq_user : string
}.

(** What the script finds around it: the files, whether the client finds
    its API key, and what the service answers to a request. *)
Record env := mkEnv {
  files : fs;
  api_key : bool;
  completion : request → res string
}.

(** What the script does that can be observed, in order. *)
Inductive event :=
| EExists (path : string)
| EReadText (path : string)
| EPrint (line : string)
| ERequest (r : request).

Definition trace := list event.

Definition emit (e : event) : M trace unit := modify (λ t, t ++ [e]).

(** [print(s)]. *)
Definition print (s : string) : M trace unit := emit (EPrint s).

(** [sys.exit(code)]. *)
Definition sys_exit {A} (code : Z) : M trace A := raise (SystemExit code).

(** [Path(p).name]: the last component of the path between its separators, empty and ["."] components set
    aside. *)
Definition path_name (p : string) : string :=
  List.last (filter (λ x, x ≠ EmptyString ∧ x ≠ ".") (split_on "/" p)) EmptyString.

(** [name.rfind(".")]. *)
Fixpoint rfind_dot (s : string) : option nat :=
  match s with
  | EmptyString => None
  | String c r =>
      match rfind_dot r with
      | Some i => Some (S i)
      | None => if bool_decide (c = "."%char) then Some 0%nat else None
      end
  end.

(** [Path(p).suffix]: the name from its last dot on, when that dot is
    neither the first nor the last character of the name. *)
Definition path_suffix (p : string) : string :=
  let name := path_name p in
  match rfind_dot name with
  | Some i =>
      if bool_decide (0 < i < String.length name - 1)%nat
      then substring i (String.length name - i) name
      else EmptyString
  | None => EmptyString
  end.

(** The number of separators the path starts with. *)
Fixpoint leading_seps (p : string) : nat :=
  match p with
  | String "/" r => S (leading_seps r)
  | _ => O
  end.

(** [str(Path(p))]: the components of the path, empty and ["."]
    components set aside, with one separator between them, after the
    root: one separator for a path that starts with one separator or with
    three or more, two for a path that starts with exactly two. A path of
    which nothing is left is ["."]. *)
Definition path_str (p : string) : string :=
  let root := match leading_seps p with
              | O => EmptyString
              | 2%nat => "//"
              | _ => "/"
              end in
  match root +:+ str_join "/" (filter (λ x, x ≠ EmptyString ∧ x ≠ ".") (split_on "/" p)) with
  | EmptyString => "."
  | s => s
  end.

(** [str(e)] for the errors whose text the script prints. An [OSError]
    holds the path the script made its [Path] of; the file name in its
    text is the one that [open] was given, [str(path)], as [repr] shows
    it. *)
Definition str_of_exn (e : exn) : string :=
  match e with
  | FileNotFoundError p => "[Errno 2] No such file or directory: " +:+ py_repr (path_str p)
  | IsADirectoryError p => "[Errno 21] Is a directory: " +:+ py_repr (path_str p)
  | PermissionError p => "[Errno 13] Permission denied: " +:+ py_repr (path_str p)
  | OpenAIError msg => msg
  | _ => EmptyString
  end.

Section code.
Context (w : env).

(** [path.exists()]. *)
Definition path_exists (path : string) : M trace bool :=
  emit (EExists path);; mret (exists_ (files w) path).

(** [path.read_text(encoding="utf-8")]. *)
Definition read_text (path : string) : M trace string :=
  emit (EReadText path);;
  match files w !! path with
  | Some (NFile f) =>
      if readable f then
        match data f with
        | Text s => mret s
        | Undecodable => raise UnicodeDecodeError
        end
      else raise (PermissionError path)
  | Some NDir => raise (IsADirectoryError path)
  | _ => raise (FileNotFoundError path)
  end.

Definition read_source_file (filepath : string) : M trace string :=
  let path := filepath in
  found ← path_exists path;
  (if negb found then
     print ("Error: File not found " +:+ EM_DASH +:+ " '" +:+ filepath +:+ "'");;
     sys_exit 1
   else mret ());;
  (if bool_decide (path_suffix path ≠ ".py") then
     print ("Error: Expected a .py file, got '" +:+ path_suffix path +:+ "'");;
     sys_exit 1
   else mret ());;
  contents ← try_except (read_text path) (λ e,
    if is_OSError e then
      Some (print ("Error: Could not read file " +:+ EM_DASH +:+ " " +:+ str_of_exn e);;
            sys_exit 1)
    else None);
  (if bool_decide (strip contents = EmptyString) then
     print "Error: The file is empty.";;
     sys_exit 1
   else mret ());;
  mret contents.

Definition warn_if_large (source_code : string) : M trace unit :=
  let char_count := Z.of_nat (String.length source_code) in
  if MAX_FILE_CHARS <? char_count then
    print ("Warning: This file is " +:+ str_of_int_commas char_count +:+ " characters. "
           +:+ "Large files consume more API tokens and may increase cost." +:+ NL)
  else mret ().

Definition build_user_prompt (source_code filename : string) : string :=
  "Please review the following Python file: `" +:+ filename +:+ "`" +:+ NL +:+ NL
  +:+ "```python" +:+ NL +:+ source_code +:+ NL +:+ "```".

(** [OpenAI()]: the client refuses to be built without an API key. *)
Definition OpenAI : M trace unit :=
  if api_key w then mret ()
  else raise (OpenAIError "The api_key client option must be set").

(** [client.chat.completions.create(...)]. *)
Definition create (r : request) : M trace string :=
  emit (ERequest r);; lift (completion w r).

Definition run_code_review (source_code filename : string) : M trace string :=
  client ← OpenAI;
  response ← try_except
    (create (mkRequest MODEL MAX_TOKENS SYSTEM_PROMPT
                       (build_user_prompt source_code filename)))
    (λ e, match e with
          | OpenAIError _ =>
              Some (print ("OpenAI API error: " +:+ str_of_exn e);; sys_exit 1)
          | _ => None
          end);
  mret response.

Definition print_review (review filename : string) : M trace unit :=
  let separator := str_repeat "=" 60 in
  print (NL +:+ separator);;
  print ("  CODE REVIEW: " +:+ filename);;
  print ("  Model: " +:+ MODEL);;
  print (separator +:+ NL);;
  print review;;
  print (NL +:+ separator +:+ NL).

(** [main], with [sys.argv] as its argument. *)
Definition main (argv : list string) : M trace unit :=
  if bool_decide (length argv ≠ 2%nat) then
    print "Usage: python review.py <path_to_file.py>";;
    sys_exit 1
  else
    let filepath := default EmptyString (argv !! 1%nat) in
    let filename := path_name filepath in
    source_code ← read_source_file filepath;
    warn_if_large source_code;;
    print ("Reviewing '" +:+ filename +:+ "' with " +:+ MODEL +:+ "...");;
    review ← run_code_review source_code filename;
    print_review review filename.

(** The script run as a process: what it does, and its exit status.
    [sys.exit(n)] gives status [n], an exception that is not caught gives
    1, and the end of [main] gives 0. *)
Definition run (argv : list string) : trace * Z :=
  match main argv [] with
  | (Ok _, t) => (t, 0)
  | (Raise (SystemExit n), t) => (t, n)
  | (Raise _, t) => (t, 1)
  end.

End code.

(** *** Vocabulary of the statements about the script *)

Definition is_request (e : event) : bool :=
  match e with ERequest _ => true | _ => false end.

Definition is_file_access (e : event) : bool :=
  match e with EExists _ | EReadText _ => true | _ => false end.

(** *** A concrete environment *)

Definition text_file (s : string) : node := NFile (mkFile true true (Text s)).

Definition example_env : env :=
  mkEnv (<["notes.txt" := text_file ("first line" +:+ NL +:+ "second line" +:+ NL)]>
         (<["blank.py" := text_file ("  " +:+ NL +:+ "   ")]>
         (<["ok.py" := text_file ("  x = 1" +:+ NL)]> ∅)))
        true
        (λ _, Ok "SUMMARY: nothing to report.").

(** An environment with a directory, a file that may not be read, a file
    whose bytes are not text, and a service that refuses the request. *)
Definition refusing_env : env :=
  mkEnv (<["pkg.py" := NDir]>
         (<["secret.py" := NFile (mkFile false true (Text ("x = 1" +:+ NL)))]>
         (<["binary.py" := NFile (mkFile true true Undecodable)]>
         (<["ok.py" := text_file ("  x = 1" +:+ NL)]> ∅))))
        true
        (λ _, Raise (OpenAIError "Rate limit reached")).

(** An environment where a directory is named with a leading ["./"] and a
    file that may not be read has a quote in its name. *)
Definition quoting_env : env :=
  mkEnv (<["./pkg.py" := NDir]>
         (<["it's.py" := NFile (mkFile false true (Text ("x = 1" +:+ NL)))]> ∅))
        true
        (λ _, Raise (OpenAIError "Rate limit reached")).

(** The environment of [example_env] without an API key. *)
Definition keyless_env : env :=
  mkEnv (files example_env) false (completion example_env).

(** The request that [run_code_review] sends for a source text. *)
Definition review_request (source_code filename : string) : request :=
  mkRequest MODEL MAX_TOKENS SYSTEM_PROMPT (build_user_prompt source_code filename).

End Reviewer.

(** * Properties of the [json] model: what is written is read back *)
Module JsonFacts.
Import Py Json.

#[local] Arguments String.append !_ _ / : simpl nomatch.
#[local] Arguments scan_int_part : simpl never.
#[local] Arguments scan_frac : simpl never.
#[local] Arguments scan_exp : simpl never.
#[local] Arguments scan_number : simpl never.
#[local] Arguments scan_string : simpl never.

Lemma append_assoc (a b c : string) : (a +:+ b) +:+ c = a +:+ (b +:+ c).
Proof. induction a as [|x a IH]; simpl; [done|]. by f_equal. Qed.

Lemma append_nil_r (a : string) : a +:+ EmptyString = a.
Proof. induction a as [|x a IH]; simpl; [done|]. by f_equal. Qed.

Lemma length_append (a b : string) :
  String.length (a +:+ b) = (String.length a + String.length b)%nat.
Proof. induction a as [|x a IH]; simpl; [done|]. by f_equal. Qed.

(** One escaped character is read back as that character. *)
Lemma scan_string_escape_char c tail :
  scan_string (escape_char c +:+ tail) = scan_map (cons (code c)) (scan_string tail).
Proof.
  destruct c as [[] [] [] [] [] [] [] []]; reflexivity.
Qed.

Lemma scan_string_escape s rest :
  scan_string (escape s +:+ String DQ rest) = Some (codes s, rest).
Proof.
  induction s as [|c s IH]; simpl; [done|].
  rewrite append_assoc, scan_string_escape_char, IH. done.
Qed.

(** *** Integers *)

Lemma code_digit_char d : 0 ≤ d < 10 → code (digit_char d) = 48 + d.
Proof.
  intros Hd. unfold code, digit_char.
  rewrite N_ascii_embedding by lia. lia.
Qed.

Lemma is_digit_digit_char d : 0 ≤ d < 10 → is_digit (digit_char d) = true.
Proof. intros Hd. unfold is_digit. rewrite code_digit_char by done. lia. Qed.

Lemma all_digits_snoc ds c :
  all_digits ds = true → is_digit c = true →
  all_digits (ds +:+ String c EmptyString) = true.
Proof.
  intros Hds Hc. induction ds as [|x ds IH]; simpl in *.
  - by rewrite Hc.
  - apply andb_true_iff in Hds as [-> Hds]. by apply IH.
Qed.

Lemma digits_value_snoc ds c acc :
  digits_value (ds +:+ String c EmptyString) acc
  = 10 * digits_value ds acc + (code c - 48).
Proof. revert acc. induction ds as [|x ds IH]; intros acc; simpl; [done|]. apply IH. Qed.

(** The decimal digits of [n]: a first digit, which is [0] only for
    [n = 0], then digits; their value is [n]. *)
Lemma digits_spec fuel n acc :
  (0 < fuel)%nat → 0 ≤ n < 2 ^ Z.of_nat fuel →
  ∃ c ds, digits fuel n acc = String c (ds +:+ acc)
    ∧ is_digit c = true ∧ all_digits ds = true
    ∧ (c = "0"%char → n = 0 ∧ ds = EmptyString)
    ∧ digits_value (String c ds) 0 = n.
Proof.
  revert n acc. induction fuel as [|fuel IH]; intros n acc Hfuel Hn; [lia|].
  simpl. destruct (Z.ltb_spec n 10) as [Hlt|Hge].
  - exists (digit_char (n mod 10)), EmptyString.
    rewrite Z.mod_small by lia.
    split; [done|]. split; [apply is_digit_digit_char; lia|]. split; [done|]. split.
    + intros Hc. apply (f_equal code) in Hc.
      rewrite code_digit_char in Hc by lia.
      change (code "0") with 48 in Hc. split; [lia|done].
    + simpl. rewrite code_digit_char by lia. lia.
  - destruct (IH (n / 10) (String (digit_char (n mod 10)) acc))
      as (c & ds & Heq & Hc & Hds & Hzero & Hval).
    { destruct fuel; [|lia]. simpl in Hn. lia. }
    { split; [apply Z.div_pos; lia|].
      apply Z.div_lt_upper_bound; [lia|].
      rewrite Nat2Z.inj_succ, Z.pow_succ_r in Hn by lia. lia. }
    exists c, (ds +:+ String (digit_char (n mod 10)) EmptyString).
    assert (Hmod : 0 ≤ n mod 10 < 10) by (apply Z.mod_pos_bound; lia).
    split; [|split; [done|split; [|split]]].
    + rewrite Heq. by rewrite append_assoc.
    + apply all_digits_snoc; [done|]. by apply is_digit_digit_char.
    + intros Hc0. destruct (Hzero Hc0) as [Hdiv _].
      assert (n < 10) by (apply Z.div_small_iff in Hdiv; lia). lia.
    + simpl in Hval. simpl.
      rewrite digits_value_snoc, Hval, code_digit_char by done.
      pose proof (Z.div_mod n 10). lia.
Qed.

(** [str(z)] is an optional minus sign and the decimal digits of [|z|]. *)
Lemma str_of_int_spec z :
  ∃ c ds, str_of_int z = (if z <? 0 then String "-" (String c ds) else String c ds)
    ∧ is_digit c = true ∧ all_digits ds = true
    ∧ (c = "0"%char → ds = EmptyString)
    ∧ digits_value (String c ds) 0 = Z.abs z.
Proof.
  unfold str_of_int.
  destruct (digits_spec (S (Z.to_nat (Z.log2 (Z.abs z)))) (Z.abs z) EmptyString)
    as (c & ds & Heq & Hc & Hds & Hzero & Hval).
  { lia. }
  { split; [lia|].
    rewrite Nat2Z.inj_succ, Z2Nat.id by apply Z.log2_nonneg.
    destruct (decide (Z.abs z = 0)) as [->|Hne]; [done|].
    apply Z.log2_spec. lia. }
  rewrite append_nil_r in Heq. exists c, ds. rewrite Heq.
  split; [done|]. split; [done|]. split; [done|]. split; [|done].
  intros Hc0. by destruct (Hzero Hc0).
Qed.

Lemma span_digits_all ds rest :
  all_digits ds = true → ends_number rest = true →
  span_digits (ds +:+ rest) = (ds, rest).
Proof.
  intros Hds Hrest. induction ds as [|c ds IH]; simpl in *.
  - destruct rest as [|x rest]; [done|]. simpl in *.
    by destruct (is_digit x).
  - apply andb_true_iff in Hds as [-> Hds]. by rewrite IH.
Qed.

Lemma scan_frac_end rest : ends_number rest = true → scan_frac rest = (EmptyString, rest).
Proof.
  unfold scan_frac. destruct rest as [|c rest]; [done|]. simpl. intros Hc.
  case_bool_decide; [|done]. subst. done.
Qed.

Lemma scan_exp_end rest : ends_number rest = true → scan_exp rest = (EmptyString, rest).
Proof.
  unfold scan_exp. destruct rest as [|c rest]; [done|]. simpl. intros Hc.
  apply negb_true_iff in Hc.
  apply orb_false_iff in Hc as [Hc HE]. apply orb_false_iff in Hc as [_ He].
  by rewrite He, HE.
Qed.

Lemma scan_int_part_digits c ds rest :
  is_digit c = true → all_digits ds = true → (c = "0"%char → ds = EmptyString) →
  ends_number rest = true →
  scan_int_part (String c (ds +:+ rest)) = Some (String c ds, rest).
Proof.
  intros Hc Hds Hzero Hrest. unfold scan_int_part.
  case_bool_decide as Hc0.
  - by rewrite (Hzero Hc0), Hc0.
  - rewrite Hc.
    change (String c (ds +:+ rest)) with (String c ds +:+ rest).
    rewrite span_digits_all; [done| |done]. simpl. by rewrite Hc.
Qed.

(** A written integer is read back, when what follows does not continue a
    number. *)
Lemma scan_number_str_of_int z rest :
  ends_number rest = true →
  scan_number (str_of_int z +:+ rest) = Some (JInt z, rest).
Proof.
  intros Hrest.
  destruct (str_of_int_spec z) as (c & ds & -> & Hc & Hds & Hzero & Hval).
  unfold scan_number.
  destruct (Z.ltb_spec z 0) as [Hneg|Hpos]; simpl.
  - rewrite scan_int_part_digits by done.
    rewrite scan_frac_end, scan_exp_end by done. rewrite Hval.
    do 3 f_equal. lia.
  - rewrite bool_decide_eq_false_2.
    2:{ intros ->. done. }
    rewrite scan_int_part_digits by done.
    rewrite scan_frac_end, scan_exp_end by done. rewrite Hval.
    do 3 f_equal. lia.
Qed.

(** *** Field values *)

(** Where a number starts, [scan_value] reads a number. *)
Lemma scan_value_number depth c s v r :
  c = "-"%char ∨ is_digit c = true →
  scan_number (String c s) = Some (v, r) →
  scan_value (S depth) (String c s) = Some (v, r).
Proof.
  intros Hc Hnum.
  destruct c as [[] [] [] [] [] [] [] []];
    first [ by (simpl; rewrite Hnum)
          | by (destruct Hc as [Hc|Hc]; vm_compute in Hc; discriminate Hc) ].
Qed.

Lemma is_digit_not_ws c : is_digit c = true → json_ws c = false.
Proof. unfold is_digit, json_ws. lia. Qed.

Lemma skip_ws_head c s : json_ws c = false → skip_ws (String c s) = String c s.
Proof. intros Hc. unfold skip_ws. simpl. by rewrite Hc. Qed.

(** A written field value starts with a character that is not white
    space. *)
Lemma dumps_value_head v rest :
  ∃ c s, dumps_value v +:+ rest = String c s ∧ json_ws c = false.
Proof.
  destruct v as [|z|t]; simpl.
  - by eexists _, _.
  - destruct (str_of_int_spec z) as (c & ds & -> & Hc & _).
    destruct (z <? 0); simpl; eexists _, _; (split; [done|]); [done|].
    by apply is_digit_not_ws.
  - by eexists _, _.
Qed.

Lemma skip_ws_dumps_value v rest :
  skip_ws (dumps_value v +:+ rest) = dumps_value v +:+ rest.
Proof.
  destruct (dumps_value_head v rest) as (c & s & -> & Hc). by apply skip_ws_head.
Qed.

(** A written field value is read back, when what follows does not
    continue a number. *)
Lemma scan_value_field depth v rest :
  ends_number rest = true →
  scan_value (S depth) (dumps_value v +:+ rest) = Some (jval_of_value v, rest).
Proof.
  intros Hrest. destruct v as [|z|t]; unfold dumps_value, jval_of_value.
  - done.
  - pose proof (scan_number_str_of_int z rest Hrest) as Hnum.
    destruct (str_of_int_spec z) as (c & ds & Hstr & Hc & _).
    rewrite Hstr in *. destruct (z <? 0).
    + change (String "-" (String c ds) +:+ rest)
        with (String "-" (String c ds +:+ rest)) in *.
      apply scan_value_number; [by left|done].
    + change (String c ds +:+ rest) with (String c (ds +:+ rest)) in *.
      apply scan_value_number; [by right|done].
  - unfold dumps_str.
    change (String DQ (escape t +:+ String DQ EmptyString) +:+ rest)
      with (String DQ ((escape t +:+ String DQ EmptyString) +:+ rest)).
    rewrite append_assoc. simpl. by rewrite scan_string_escape.
Qed.

(** *** Records *)

Lemma length_join sep (l : list string) :
  Forall (λ x, x ≠ EmptyString) l → (length l ≤ String.length (join sep l))%nat.
Proof.
  induction 1 as [|x l Hx _ IH]; [done|].
  assert (1 ≤ String.length x)%nat by (destruct x; [done|simpl; lia]).
  destruct l as [|y l]; [simpl; lia|].
  change (join sep (x :: y :: l)) with (x +:+ sep +:+ join sep (y :: l)).
  rewrite !length_append. simpl in IH |- *. lia.
Qed.

Lemma scan_members_member scan_once n r key r2 v r3 :
  scan_string r = Some (key, String ":" r2) →
  scan_once (skip_ws r2) = Some (v, r3) →
  scan_members scan_once (S n) (String DQ r)
  = match skip_ws r3 with
    | String c' r4 =>
        if bool_decide (c' = "}"%char) then Some ([(key, v)], r4)
        else if bool_decide (c' = ","%char)
        then scan_map (cons (key, v)) (scan_members scan_once n (skip_ws r4))
        else None
    | EmptyString => None
    end.
Proof. intros Hkey Hval. simpl. rewrite Hkey. simpl. by rewrite Hval. Qed.

(** One written member, followed by [tail], is read as one member. *)
Lemma scan_members_item scan_once n k v tail :
  (∀ v r, ends_number r = true → scan_once (dumps_value v +:+ r) = Some (jval_of_value v, r)) →
  ends_number tail = true →
  scan_members scan_once (S n) (dumps_item (k, v) +:+ tail)
  = match skip_ws tail with
    | String c' r4 =>
        if bool_decide (c' = "}"%char) then Some ([(codes k, jval_of_value v)], r4)
        else if bool_decide (c' = ","%char)
        then scan_map (cons (codes k, jval_of_value v))
               (scan_members scan_once n (skip_ws r4))
        else None
    | EmptyString => None
    end.
Proof.
  intros Hscan Htail. unfold dumps_item, dumps_str. simpl fst. simpl snd.
  rewrite !append_assoc.
  change (String DQ (escape k +:+ String DQ EmptyString) +:+ ": " +:+ dumps_value v +:+ tail)
    with (String DQ ((escape k +:+ String DQ EmptyString)
                     +:+ String ":" (String " " (dumps_value v +:+ tail)))).
  rewrite append_assoc.
  change (String DQ EmptyString +:+ String ":" (String " " (dumps_value v +:+ tail)))
    with (String DQ (String ":" (String " " (dumps_value v +:+ tail)))).
  apply (scan_members_member _ _ _ (codes k) (String " " (dumps_value v +:+ tail))
           (jval_of_value v) tail).
  - apply scan_string_escape.
  - change (skip_ws (String " " (dumps_value v +:+ tail)))
      with (skip_ws (dumps_value v +:+ tail)).
    rewrite skip_ws_dumps_value. by apply Hscan.
Qed.

(** The written members of a record, closed by a brace, are read back. *)
Lemma scan_members_items scan_once items n rest :
  (∀ v r, ends_number r = true → scan_once (dumps_value v +:+ r) = Some (jval_of_value v, r)) →
  items ≠ [] → (length items ≤ n)%nat →
  scan_members scan_once n (join ", " (dumps_item <$> items) +:+ String "}" rest)
  = Some ((λ kv, (codes kv.1, jval_of_value kv.2)) <$> items, rest).
Proof.
  intros Hscan. revert n. induction items as [|[k v] items IH]; intros n Hne Hn; [done|].
  destruct n as [|n]; [simpl in Hn; lia|].
  destruct items as [|kv' items].
  - simpl join. by rewrite scan_members_item.
  - change (join ", " (dumps_item <$> (k, v) :: kv' :: items))
      with (dumps_item (k, v) +:+ ", " +:+ join ", " (dumps_item <$> kv' :: items)).
    rewrite !append_assoc.
    rewrite scan_members_item by done.
    change (skip_ws (", " +:+ join ", " (dumps_item <$> kv' :: items) +:+ String "}" rest))
      with (String "," (String " " (join ", " (dumps_item <$> kv' :: items) +:+ String "}" rest))).
    simpl bool_decide. cbv iota.
    change (skip_ws (String " " (join ", " (dumps_item <$> kv' :: items) +:+ String "}" rest)))
      with (skip_ws (join ", " (dumps_item <$> kv' :: items) +:+ String "}" rest)).
    assert (Hhead : skip_ws (join ", " (dumps_item <$> kv' :: items) +:+ String "}" rest)
                    = join ", " (dumps_item <$> kv' :: items) +:+ String "}" rest).
    { destruct kv' as [k' v']. destruct items; by apply skip_ws_head. }
    rewrite Hhead. rewrite IH; [done|done|]. simpl in Hn |- *. lia.
Qed.

Lemma dumps_item_nonempty kv : dumps_item kv ≠ EmptyString.
Proof. by destruct kv. Qed.

Lemma scan_value_object depth r :
  scan_value (S depth) (String "{" r)
  = match skip_ws r with
    | String c' r' =>
        if bool_decide (c' = "}"%char) then Some (JDict [], r')
        else scan_map JDict
               (scan_members (scan_value depth) (String.length r) (skip_ws r))
    | EmptyString => None
    end.
Proof. reflexivity. Qed.

Lemma scan_value_array depth r :
  scan_value (S depth) (String "[" r)
  = match skip_ws r with
    | String c' r' =>
        if bool_decide (c' = "]"%char) then Some (JList [], r')
        else scan_map JList
               (scan_elements (scan_value depth) (String.length r) (skip_ws r))
    | EmptyString => None
    end.
Proof. reflexivity. Qed.

(** A written record is read back as the object of its fields. *)
Lemma scan_value_record depth d rest :
  scan_value (S (S depth)) (dumps_record d +:+ rest) = Some (jval_of_record d, rest).
Proof.
  unfold dumps_record, jval_of_record.
  change ("{" +:+ join ", " (dumps_item <$> map_to_list d) +:+ "}")
    with (String "{" (join ", " (dumps_item <$> map_to_list d) +:+ "}")).
  change (String "{" (join ", " (dumps_item <$> map_to_list d) +:+ "}") +:+ rest)
    with (String "{" ((join ", " (dumps_item <$> map_to_list d) +:+ "}") +:+ rest)).
  rewrite append_assoc.
  change ("}" +:+ rest) with (String "}" rest).
  rewrite scan_value_object.
  destruct (map_to_list d) as [|[k v] items] eqn:Hitems; [done|].
  set (text := join ", " (dumps_item <$> (k, v) :: items) +:+ String "}" rest).
  assert (Hhead : ∃ tl, text = String DQ tl).
  { subst text. destruct items; by eexists. }
  destruct Hhead as [tl Htl].
  assert (Hskip : skip_ws text = text) by (rewrite Htl; by apply skip_ws_head).
  rewrite Hskip. rewrite Htl at 1. rewrite bool_decide_eq_false_2 by done.
  subst text. rewrite scan_members_items; [done| |done|].
  - intros v' r Hr. by apply scan_value_field.
  - rewrite length_append.
    assert (Hlen : (length (dumps_item <$> (k, v) :: items)
                    ≤ String.length (join ", " (dumps_item <$> (k, v) :: items)))%nat).
    { apply length_join, Forall_fmap, Forall_forall. intros kv _.
      apply dumps_item_nonempty. }
    rewrite length_fmap in Hlen. lia.
Qed.

Lemma dumps_record_head d rest : ∃ tl, dumps_record d +:+ rest = String "{" tl.
Proof. by eexists. Qed.

Lemma dumps_record_nonempty d : dumps_record d ≠ EmptyString.
Proof. done. Qed.

Lemma scan_elements_element scan_once n s v r :
  scan_once s = Some (v, r) →
  scan_elements scan_once (S n) s
  = match skip_ws r with
    | String c r' =>
        if bool_decide (c = "]"%char) then Some ([v], r')
        else if bool_decide (c = ","%char)
        then scan_map (cons v) (scan_elements scan_once n (skip_ws r'))
        else None
    | EmptyString => None
    end.
Proof. intros Hs. simpl. by rewrite Hs. Qed.

(** The written records of a list, closed by a bracket, are read back. *)
Lemma scan_elements_records scan_once (l : list record) n rest :
  (∀ d r, scan_once (dumps_record d +:+ r) = Some (jval_of_record d, r)) →
  l ≠ [] → (length l ≤ n)%nat →
  scan_elements scan_once n (join ", " (dumps_record <$> l) +:+ String "]" rest)
  = Some (jval_of_record <$> l, rest).
Proof.
  intros Hscan. revert n. induction l as [|d l IH]; intros n Hne Hn; [done|].
  destruct n as [|n]; [simpl in Hn; lia|].
  destruct l as [|d' l].
  - simpl join. by rewrite (scan_elements_element _ _ _ _ _ (Hscan d _)).
  - change (join ", " (dumps_record <$> d :: d' :: l))
      with (dumps_record d +:+ ", " +:+ join ", " (dumps_record <$> d' :: l)).
    rewrite !append_assoc.
    rewrite (scan_elements_element _ _ _ _ _ (Hscan d _)).
    change (skip_ws (", " +:+ join ", " (dumps_record <$> d' :: l) +:+ String "]" rest))
      with (String "," (String " " (join ", " (dumps_record <$> d' :: l) +:+ String "]" rest))).
    simpl bool_decide. cbv iota.
    change (skip_ws (String " " (join ", " (dumps_record <$> d' :: l) +:+ String "]" rest)))
      with (skip_ws (join ", " (dumps_record <$> d' :: l) +:+ String "]" rest)).
    assert (Hhead : skip_ws (join ", " (dumps_record <$> d' :: l) +:+ String "]" rest)
                    = join ", " (dumps_record <$> d' :: l) +:+ String "]" rest).
    { destruct l; by apply skip_ws_head. }
    rewrite Hhead. rewrite IH; [done|done|]. simpl in Hn |- *. lia.
Qed.

(** What [json.dump] writes for a list of records, [json.loads] reads as
    that list of objects. *)
Lemma loads_dumps_records (l : list record) :
  loads (dumps_records l) = Ok (jval_of_records l).
Proof.
  unfold loads, dumps_records, jval_of_records.
  change ("[" +:+ join ", " (dumps_record <$> l) +:+ "]")
    with (String "[" (join ", " (dumps_record <$> l) +:+ String "]" EmptyString)).
  rewrite skip_ws_head by done.
  set (text := join ", " (dumps_record <$> l) +:+ String "]" EmptyString).
  assert (Hlen : (length l < String.length text)%nat).
  { subst text. rewrite length_append.
    assert (Hlen : (length (dumps_record <$> l)
                    ≤ String.length (join ", " (dumps_record <$> l)))%nat).
    { apply length_join, Forall_fmap, Forall_forall. intros d _.
      apply dumps_record_nonempty. }
    rewrite length_fmap in Hlen. simpl. lia. }
  change (String.length (String "[" text)) with (S (String.length text)).
  rewrite scan_value_array.
  destruct l as [|d l]; [done|].
  assert (Hhead : ∃ tl, text = String "{" tl).
  { subst text. destruct l; by eexists. }
  destruct Hhead as [tl Htl].
  assert (Hskip : skip_ws text = text) by (rewrite Htl; by apply skip_ws_head).
  rewrite Hskip. rewrite Htl at 1. rewrite bool_decide_eq_false_2 by done.
  destruct (String.length text) as [|m] eqn:Hm; [lia|].
  subst text. rewrite scan_elements_records; [done| |done|lia].
  intros d' r. apply scan_value_record.
Qed.

(** *** From decoded values back to records *)

Lemma char_of_code_code c : char_of_code (code c) = Some c.
Proof.
  unfold char_of_code, code.
  pose proof (N_ascii_bounded c).
  rewrite (proj2 (andb_true_iff _ _)) by (split; lia).
  by rewrite N2Z.id, ascii_N_embedding.
Qed.

Lemma str_of_codes_codes s : str_of_codes (codes s) = Some s.
Proof.
  unfold str_of_codes, codes.
  rewrite (mapM_fmap_Some _ _ _ char_of_code_code). simpl.
  by rewrite string_of_list_ascii_of_string.
Qed.

Lemma value_of_jval_of_value v : value_of_jval (jval_of_value v) = Some v.
Proof. destruct v; simpl; [done..|]. by rewrite str_of_codes_codes. Qed.

Lemma record_of_jval_of_record d : record_of_jval (jval_of_record d) = Some d.
Proof.
  unfold jval_of_record, record_of_jval, record_of_items.
  rewrite (mapM_fmap_Some field_of_member _ (map_to_list d)).
  - simpl. f_equal. symmetry. apply list_to_map_flip. by rewrite reverse_Permutation.
  - intros [k v]. unfold field_of_member. simpl.
    by rewrite str_of_codes_codes, value_of_jval_of_value.
Qed.

Lemma records_of_jval_of_records l : records_of_jval (jval_of_records l) = Some l.
Proof.
  unfold jval_of_records, records_of_jval.
  apply mapM_fmap_Some, record_of_jval_of_record.
Qed.

End JsonFacts.
(** * Properties of the division of two [int]s *)
Module FloatFacts.
Import Py.

#[local] Opaque Z.pow.

(** The integer nearest to [x / D], ties to even, is at least as near as
    any integer. *)
Lemma nearest_integer x D G :
  0 < D →
  let m0 := x / D in
  let r := x mod D in
  let m := match 2 * r ?= D with
           | Lt => m0
           | Eq => if Z.even m0 then m0 else m0 + 1
           | Gt => m0 + 1
           end in
  Z.abs (m * D - x) ≤ Z.abs (G * D - x).
Proof.
  intros HD m0 r m.
  assert (Hx : x = m0 * D + r) by (subst m0 r; rewrite Z.mul_comm; apply Z.div_mod; lia).
  assert (Hr : 0 ≤ r < D) by (subst r; apply Z.mod_pos_bound; lia).
  assert (Hcases : (m = m0 ∧ 2 * r ≤ D) ∨ (m = m0 + 1 ∧ D ≤ 2 * r)).
  { subst m. destruct (Z.compare_spec (2 * r) D); [destruct (Z.even m0)|..]; lia. }
  destruct (Z_le_gt_dec G m0) as [HG|HG].
  - assert (G * D ≤ m0 * D) by nia. destruct Hcases as [[-> ?]|[-> ?]]; nia.
  - assert ((m0 + 1) * D ≤ G * D) by nia. destruct Hcases as [[-> ?]|[-> ?]]; nia.
Qed.

(** What [round_quotient] returns: a mantissa and an exponent in their
    ranges, at least as near to the quotient as any mantissa below 2^53
    with any exponent from -1074 on. Distances are in units of 2^-1074 and
    multiplied by [d]. *)
Lemma round_quotient_spec n d :
  0 ≤ n → 0 < d →
  ∃ m e, round_quotient n d = (m, e - 1074)
    ∧ 0 ≤ e ∧ 0 ≤ m < 2 ^ 53 ∧ (e = 0 ∨ 2 ^ 52 ≤ m)
    ∧ ∀ G k, 0 ≤ G ≤ 2 ^ 53 → 0 ≤ k →
        Z.abs (m * 2 ^ e * d - n * 2 ^ 1074) ≤ Z.abs (G * 2 ^ k * d - n * 2 ^ 1074).
Proof.
  intros Hn Hd. unfold round_quotient.
  set (x := n * 2 ^ 1074).
  assert (Hx : 0 ≤ x) by (subst x; apply Z.mul_nonneg_nonneg; [lia|apply Z.pow_nonneg; lia]).
  set (e := Z.max 0 (Z.log2 (x / d) - 52)).
  assert (He : 0 ≤ e) by lia.
  set (D := d * 2 ^ e).
  assert (Hpe : 0 < 2 ^ e) by (apply Z.pow_pos_nonneg; lia).
  assert (HD : 0 < D) by (subst D; nia).
  set (m0 := x / D). set (r := x mod D).
  set (m := match 2 * r ?= D with
            | Lt => m0 | Eq => if Z.even m0 then m0 else m0 + 1 | Gt => m0 + 1 end).
  assert (Hnear : ∀ G, Z.abs (m * D - x) ≤ Z.abs (G * D - x)).
  { intros G. apply nearest_integer. exact HD. }
  assert (Hdm : x = m0 * D + r) by (subst m0 r; rewrite Z.mul_comm; apply Z.div_mod; lia).
  assert (Hr : 0 ≤ r < D) by (subst r; apply Z.mod_pos_bound; lia).
  assert (Hm0 : 0 ≤ m0) by (subst m0; apply Z.div_pos; lia).
  (* the quotient lies below 2^53 * 2^e, and from 2^52 * 2^e on when e > 0 *)
  assert (Hq : 0 ≤ x / d) by (apply Z.div_pos; lia).
  assert (Hxd : d * (x / d) ≤ x < d * (x / d) + d).
  { pose proof (Z.div_mod x d ltac:(lia)). pose proof (Z.mod_pos_bound x d Hd). lia. }
  assert (Hup : x < 2 ^ 53 * D).
  { assert (x / d < 2 ^ (e + 53)).
    { destruct (Z.eq_dec (x / d) 0) as [->|Hz]; [apply Z.pow_pos_nonneg; lia|].
      pose proof (Z.log2_spec (x / d) ltac:(lia)) as [_ Hlt].
      eapply Z.lt_le_trans; [exact Hlt|]. apply Z.pow_le_mono_r; lia. }
    rewrite Z.pow_add_r in * by lia. subst D. nia. }
  assert (Hlow : 0 < e → 2 ^ 52 * D ≤ x).
  { intros Hpos. assert (Hlog : e = Z.log2 (x / d) - 52) by lia.
    assert (0 < x / d).
    { destruct (Z.eq_dec (x / d) 0) as [Hz|Hz]; [|lia].
      rewrite Hz in Hlog. change (Z.log2 0) with 0 in Hlog. lia. }
    pose proof (Z.log2_spec (x / d) ltac:(lia)) as [Hle _].
    replace (Z.log2 (x / d)) with (e + 52) in Hle by lia.
    rewrite Z.pow_add_r in Hle by lia. subst D. nia. }
  assert (Hm0up : m0 < 2 ^ 53) by nia.
  assert (Hm0low : 0 < e → 2 ^ 52 ≤ m0).
  { intros Hpos. specialize (Hlow Hpos).
    assert (2 ^ 52 * D < (m0 + 1) * D) by nia. nia. }
  assert (Hm : m0 ≤ m ≤ m0 + 1).
  { subst m. destruct (2 * r ?= D); [destruct (Z.even m0)|..]; lia. }
  assert (H5253 : 2 ^ 53 = 2 * 2 ^ 52) by (vm_compute; reflexivity).
  assert (Hp52 : 0 < 2 ^ 52) by (apply Z.pow_pos_nonneg; lia).
  (* any mantissa with any exponent *)
  assert (Hany : ∀ G k, 0 ≤ G ≤ 2 ^ 53 → 0 ≤ k →
            Z.abs (m * D - x) ≤ Z.abs (G * 2 ^ k * d - x)).
  { intros G k HG Hk. destruct (Z_le_gt_dec e k) as [Hek|Hek].
    - replace k with (k - e + e) by lia. rewrite Z.pow_add_r by lia.
      replace (G * (2 ^ (k - e) * 2 ^ e) * d) with (G * 2 ^ (k - e) * D) by (subst D; ring).
      apply Hnear.
    - assert (Hpk : 0 < 2 ^ k) by (apply Z.pow_pos_nonneg; lia).
      assert (2 * 2 ^ k ≤ 2 ^ e).
      { replace e with (e - (k + 1) + (k + 1)) by lia.
        rewrite Z.pow_add_r, (Z.pow_add_r 2 k 1) by lia. change (2 ^ 1) with 2.
        assert (0 < 2 ^ (e - (k + 1))) by (apply Z.pow_pos_nonneg; lia). nia. }
      assert (G * 2 ^ k ≤ 2 ^ 52 * 2 ^ e) by nia.
      assert (G * 2 ^ k * d ≤ 2 ^ 52 * D) by (subst D; nia).
      specialize (Hlow ltac:(lia)). specialize (Hnear (2 ^ 52)). lia. }
  destruct (Z.eqb_spec m (2 ^ 53)) as [Heq|Hne].
  - exists (2 ^ 52), (e + 1). split; [done|]. split; [lia|]. split; [lia|].
    split; [right; lia|]. intros G k HG Hk.
    replace (2 ^ 52 * 2 ^ (e + 1) * d) with (m * D)
      by (rewrite Heq, H5253, Z.pow_add_r by lia; change (2 ^ 1) with 2; subst D; ring).
    by apply Hany.
  - exists m, e. split; [done|]. split; [lia|]. split; [lia|].
    split; [destruct (Z.eq_dec e 0); [by left|right; specialize (Hm0low ltac:(lia)); lia]|].
    intros G k HG Hk.
    replace (m * 2 ^ e * d) with (m * D) by (subst D; ring).
    by apply Hany.
Qed.


(** Rounding up from the last mantissa: [x / D] rounds to [p] exactly
    when it is at least [p - 1/2]. *)
Lemma round_up_to p x D m0 r :
  x = m0 * D + r → 0 ≤ r < D → 0 ≤ m0 < p →
  (2 * p - 1) * D ≤ 2 * x ↔ m0 = p - 1 ∧ D ≤ 2 * r.
Proof. intros -> Hr Hm0. split; [|intros [-> ?]; nia]. intros Hle. split; nia. Qed.

(** When the rounded quotient is beyond the exponent range: exactly when
    the quotient is at least 2^1024 - 2^970, half way between the largest
    binary64 number and 2^1024. *)
Lemma round_quotient_overflow n d :
  0 ≤ n → 0 < d →
  971 < (round_quotient n d).2 ↔ d * (2 ^ 1024 - 2 ^ 970) ≤ n.
Proof.
  intros Hn Hd. unfold round_quotient.
  set (x := n * 2 ^ 1074).
  assert (Hp1074 : 0 < 2 ^ 1074) by (apply Z.pow_pos_nonneg; lia).
  assert (Hx : 0 ≤ x) by (subst x; apply Z.mul_nonneg_nonneg; lia).
  set (e := Z.max 0 (Z.log2 (x / d) - 52)).
  assert (He : 0 ≤ e) by lia.
  set (D := d * 2 ^ e).
  assert (Hpe : 0 < 2 ^ e) by (apply Z.pow_pos_nonneg; lia).
  assert (HD : 0 < D) by (subst D; apply Z.mul_pos_pos; lia).
  set (m0 := x / D). set (r := x mod D).
  set (m := match 2 * r ?= D with
            | Lt => m0 | Eq => if Z.even m0 then m0 else m0 + 1 | Gt => m0 + 1 end).
  assert (Hdm : x = m0 * D + r) by (subst m0 r; rewrite Z.mul_comm; apply Z.div_mod; lia).
  assert (Hr : 0 ≤ r < D) by (subst r; apply Z.mod_pos_bound; lia).
  assert (Hq : 0 ≤ x / d) by (apply Z.div_pos; lia).
  assert (Hxd : d * (x / d) ≤ x < d * (x / d) + d).
  { pose proof (Z.div_mod x d ltac:(lia)). pose proof (Z.mod_pos_bound x d Hd). lia. }
  assert (Hm0 : 0 ≤ m0 < 2 ^ 53).
  { split; [subst m0; apply Z.div_pos; lia|].
    apply Z.div_lt_upper_bound; [lia|].
    assert (Hlt : x / d < 2 ^ (e + 53)).
    { destruct (Z.eq_dec (x / d) 0) as [->|Hz]; [apply Z.pow_pos_nonneg; lia|].
      pose proof (Z.log2_spec (x / d) ltac:(lia)) as [_ Hlt].
      eapply Z.lt_le_trans; [exact Hlt|]. apply Z.pow_le_mono_r; lia. }
    rewrite Z.pow_add_r in Hlt by lia. subst D.
    assert (d * (x / d + 1) ≤ d * (2 ^ e * 2 ^ 53)) by (apply Z.mul_le_mono_nonneg_l; lia).
    lia. }
  (* the threshold in units of 2^-1074 *)
  assert (Hgoal : d * (2 ^ 1024 - 2 ^ 970) ≤ n ↔ d * ((2 ^ 54 - 1) * 2 ^ 2044) ≤ x).
  { replace ((2 ^ 54 - 1) * 2 ^ 2044) with ((2 ^ 1024 - 2 ^ 970) * 2 ^ 1074)
      by (vm_compute; reflexivity).
    subst x. rewrite Z.mul_assoc. apply Z.mul_le_mono_pos_r. exact Hp1074. }
  rewrite Hgoal. clear Hgoal.
  assert (H53 : 2 ^ 53 = 9007199254740992) by (vm_compute; reflexivity).
  assert (H54 : 2 ^ 54 = 2 * 2 ^ 53) by (vm_compute; reflexivity).
  assert (Hp2044 : 0 < 2 ^ 2044) by (apply Z.pow_pos_nonneg; lia).
  assert (Hround : m = 2 ^ 53 ↔ m0 = 2 ^ 53 - 1 ∧ D ≤ 2 * r).
  { subst m. destruct (Z.compare_spec (2 * r) D) as [Heq|Hlt|Hgt].
    - destruct (Z.even m0) eqn:Hev; [|lia]. split; [lia|].
      intros [Hm0' _]. rewrite Hm0', H53 in Hev. discriminate Hev.
    - lia.
    - lia. }
  assert (Hsnd : 971 < (if m =? 2 ^ 53 then (2 ^ 52, e + 1 - 1074) else (m, e - 1074)).2
                 ↔ 2046 ≤ e ∨ (e = 2045 ∧ m = 2 ^ 53)).
  { destruct (Z.eqb_spec m (2 ^ 53)); simpl; lia. }
  rewrite Hsnd. clear Hsnd.
  (* with the exponent 2045, the threshold is the last mantissa and a half *)
  assert (Hlast : e = 2045 →
            (m = 2 ^ 53 ↔ d * ((2 ^ 54 - 1) * 2 ^ 2044) ≤ x)).
  { intros He2045. rewrite Hround.
    rewrite <- (round_up_to (2 ^ 53) x D m0 r Hdm Hr Hm0).
    assert (HDe : D = d * (2 * 2 ^ 2044)).
    { subst D. rewrite He2045.
      replace (2 ^ 2045) with (2 * 2 ^ 2044) by (vm_compute; reflexivity). reflexivity. }
    rewrite HDe, H54. clear. lia. }
  split.
  - intros [Hbig|[He2045 Hm]]; [|by apply Hlast].
    assert (Hlog : e = Z.log2 (x / d) - 52) by lia.
    assert (0 < x / d).
    { destruct (Z.eq_dec (x / d) 0) as [Hz|Hz]; [|lia].
      rewrite Hz in Hlog. change (Z.log2 0) with 0 in Hlog. lia. }
    pose proof (Z.log2_spec (x / d) ltac:(lia)) as [Hle _].
    assert (2 ^ 2098 ≤ 2 ^ Z.log2 (x / d)) by (apply Z.pow_le_mono_r; lia).
    assert ((2 ^ 54 - 1) * 2 ^ 2044 ≤ 2 ^ 2098) by (vm_compute; discriminate).
    assert (d * ((2 ^ 54 - 1) * 2 ^ 2044) ≤ d * (x / d))
      by (apply Z.mul_le_mono_nonneg_l; lia).
    lia.
  - intros Hbig.
    assert (Hxd2 : (2 ^ 54 - 1) * 2 ^ 2044 ≤ x / d).
    { apply Z.div_le_lower_bound; [lia|]. lia. }
    assert (H2097 : 2 ^ 2097 ≤ x / d).
    { assert (2 ^ 2097 ≤ (2 ^ 54 - 1) * 2 ^ 2044) by (vm_compute; discriminate). lia. }
    assert (Hlog : 2097 ≤ Z.log2 (x / d)).
    { assert (0 < 2 ^ 2097) by (apply Z.pow_pos_nonneg; lia).
      apply Z.log2_le_pow2; lia. }
    destruct (Z_le_gt_dec 2046 e) as [?|?]; [by left|right].
    assert (He2045 : e = 2045) by lia. split; [done|]. by apply Hlast.
Qed.


(** The results of [int_truediv]. *)
Lemma int_truediv_cases a b :
  b ≠ 0 →
  ∃ m e, round_quotient (Z.abs a) (Z.abs b) = (m, e)
    ∧ int_truediv a b
      = if 971 <? e then Raise OverflowError
        else Ok (mkFloat (xorb (a <? 0) (b <? 0)) m e).
Proof.
  intros Hb. unfold int_truediv. destruct (Z.eqb_spec b 0) as [|_]; [done|].
  destruct (round_quotient (Z.abs a) (Z.abs b)) as [m e]. by exists m, e.
Qed.

(** [a / b] raises [OverflowError] exactly when the quotient is at least
    2^1024 - 2^970 in magnitude, and nothing else when [b] is not 0. *)
Lemma int_truediv_overflow a b :
  b ≠ 0 →
  (int_truediv a b = Raise OverflowError
   ↔ Z.abs b * (2 ^ 1024 - 2 ^ 970) ≤ Z.abs a)
  ∧ (int_truediv a b = Raise OverflowError ∨ ∃ f, int_truediv a b = Ok f).
Proof.
  intros Hb. destruct (int_truediv_cases a b Hb) as (m & e & Hround & ->).
  pose proof (round_quotient_overflow (Z.abs a) (Z.abs b) ltac:(lia) ltac:(lia)) as Hov.
  rewrite Hround in Hov. simpl in Hov. rewrite <- Hov.
  destruct (Z.ltb_spec 971 e); split; try (by left); try (by right; eexists).
  - done.
  - split; [done|lia].
Qed.

(** The result of [a / b] is a binary64 number, and no binary64 number is
    nearer to the quotient. Distances are in units of 2^-1074 and
    multiplied by [b]. *)
Lemma int_truediv_nearest_units a b f :
  int_truediv a b = Ok f →
  b ≠ 0 ∧ is_binary64 f
  ∧ f_neg f = xorb (a <? 0) (b <? 0)
  ∧ ∀ g, 0 ≤ f_mant g ≤ 2 ^ 53 → -1074 ≤ f_exp g →
      Z.abs (float_units f * b - a * 2 ^ 1074)
      ≤ Z.abs (float_units g * b - a * 2 ^ 1074).
Proof.
  intros Hdiv.
  assert (Hb : b ≠ 0).
  { intros ->. unfold int_truediv in Hdiv. simpl in Hdiv. discriminate. }
  split; [done|].
  destruct (int_truediv_cases a b Hb) as (m & e' & Hround & Hres).
  rewrite Hdiv in Hres.
  destruct (round_quotient_spec (Z.abs a) (Z.abs b) ltac:(lia) ltac:(lia))
    as (m1 & e & Hround' & He & Hm & Hnorm & Hnear).
  rewrite Hround in Hround'. injection Hround' as <- ->.
  destruct (Z.ltb_spec 971 (e - 1074)) as [|Hrange]; [discriminate|].
  injection Hres as ->. split; [|split; [done|]].
  { unfold is_binary64. simpl. split; [done|]. split; [lia|].
    destruct Hnorm as [->|?]; [by left|by right]. }
  intros g Hgm Hge. unfold float_units. simpl.
  replace (e - 1074 + 1074) with e by lia.
  set (k := f_exp g + 1074). assert (Hk : 0 ≤ k) by lia.
  set (M := m * 2 ^ e). set (Mg := f_mant g * 2 ^ k).
  assert (HM : 0 ≤ M) by (subst M; apply Z.mul_nonneg_nonneg; [lia|apply Z.pow_nonneg; lia]).
  assert (HMg : 0 ≤ Mg) by (subst Mg; apply Z.mul_nonneg_nonneg; [lia|apply Z.pow_nonneg; lia]).
  set (d := Z.abs b) in *. set (X := Z.abs a * 2 ^ 1074) in *.
  assert (Hp : 0 < 2 ^ 1074) by (apply Z.pow_pos_nonneg; lia).
  assert (HX : 0 ≤ X) by (subst X; apply Z.mul_nonneg_nonneg; lia).
  pose proof (Hnear (f_mant g) k Hgm Hk) as Hg. fold M Mg in Hg.
  assert (H0 : Z.abs (M * d - X) ≤ Z.abs (0 - X)).
  { etransitivity;
      [apply (Hnear 0 0); [split; [lia|apply Z.pow_nonneg; lia]|lia]|].
    apply Z.eq_le_incl. f_equal. }
  assert (HMd : 0 ≤ M * d) by (apply Z.mul_nonneg_nonneg; lia).
  assert (HMgd : 0 ≤ Mg * d) by (apply Z.mul_nonneg_nonneg; lia).
  assert (Hau : a * 2 ^ 1074 = if a <? 0 then - X else X).
  { subst X. destruct (Z.ltb_spec a 0); [rewrite Z.abs_neq by lia|rewrite Z.abs_eq by lia]; ring. }
  assert (HfM : ∀ s : bool, (if s then -1 else 1) * M * b
                  = if xorb s (b <? 0) then - (M * d) else M * d).
  { intros s. subst d. destruct (Z.ltb_spec b 0);
      [rewrite Z.abs_neq by lia|rewrite Z.abs_eq by lia]; destruct s; simpl; ring. }
  assert (HgM : ∀ s : bool, (if s then -1 else 1) * Mg * b
                  = if xorb s (b <? 0) then - (Mg * d) else Mg * d).
  { intros s. subst d. destruct (Z.ltb_spec b 0);
      [rewrite Z.abs_neq by lia|rewrite Z.abs_eq by lia]; destruct s; simpl; ring. }
  rewrite HfM, HgM, Hau.
  clearbody M Mg X d. clear - Hg H0 HMd HMgd HX.
  destruct (a <? 0), (b <? 0), (f_neg g); simpl; lia.
Qed.


(** *** Values as rationals *)

Lemma unit_pos : Z.pos (Z.to_pos (2 ^ 1074)) = 2 ^ 1074.
Proof. apply Z2Pos.id. apply Z.pow_pos_nonneg; lia. Qed.

Lemma float_value_ge f z : z * 2 ^ 1074 ≤ float_units f ↔ (inject_Z z <= float_value f)%Q.
Proof. unfold Qle, float_value, inject_Z. simpl. rewrite unit_pos. lia. Qed.

Lemma float_value_le f z : float_units f ≤ z * 2 ^ 1074 ↔ (float_value f <= inject_Z z)%Q.
Proof. unfold Qle, float_value, inject_Z. simpl. rewrite unit_pos. lia. Qed.

Lemma float_value_div f a b :
  b ≠ 0 → float_value f - inject_Z a / inject_Z b
          == inject_Z (float_units f * b - a * 2 ^ 1074) / inject_Z (2 ^ 1074 * b).
Proof.
  intros Hb.
  assert (Hu : float_value f == inject_Z (float_units f) / inject_Z (2 ^ 1074)).
  { unfold float_value. rewrite (Qmake_Qdiv (float_units f)). by rewrite unit_pos. }
  assert (¬ inject_Z b == 0) by (unfold Qeq; simpl; lia).
  assert (¬ inject_Z (2 ^ 1074) == 0).
  { unfold Qeq. simpl. assert (0 < 2 ^ 1074) by (apply Z.pow_pos_nonneg; lia). lia. }
  replace (float_units f * b - a * 2 ^ 1074) with (float_units f * b + - (a * 2 ^ 1074)) by ring.
  rewrite Hu, inject_Z_plus, inject_Z_opp, !inject_Z_mult. by field.
Qed.

Lemma distance_units f a b :
  b ≠ 0 →
  distance f a b
  == inject_Z (Z.abs (float_units f * b - a * 2 ^ 1074)) / inject_Z (2 ^ 1074 * Z.abs b).
Proof.
  intros Hb. unfold distance. rewrite (float_value_div f a b Hb).
  unfold Qdiv. rewrite Qabs_Qmult, Qabs_Qinv.
  assert (Hp : 0 < 2 ^ 1074) by (apply Z.pow_pos_nonneg; lia).
  replace (2 ^ 1074 * Z.abs b) with (Z.abs (2 ^ 1074 * b))
    by (rewrite Z.abs_mul, (Z.abs_eq (2 ^ 1074)) by lia; reflexivity).
  reflexivity.
Qed.

(** The result of [a / b] is a binary64 number, and no binary64 number is
    nearer to the quotient. *)
Lemma int_truediv_nearest a b f :
  int_truediv a b = Ok f →
  is_binary64 f ∧ ∀ g, is_binary64 g → (distance f a b <= distance g a b)%Q.
Proof.
  intros Hdiv.
  destruct (int_truediv_nearest_units a b f Hdiv) as (Hb & Hf & _ & Hnear).
  split; [done|]. intros g (Hm & He & _).
  rewrite !distance_units by done. unfold Qdiv.
  apply Qmult_le_compat_r.
  - rewrite <- Zle_Qle. apply Hnear; lia.
  - apply Qinv_le_0_compat. change 0%Q with (inject_Z 0). rewrite <- Zle_Qle.
    apply Z.mul_nonneg_nonneg; [apply Z.pow_nonneg|]; lia.
Qed.

Lemma float_value_eq f a b :
  b ≠ 0 → float_units f * b = a * 2 ^ 1074 ↔ float_value f == inject_Z a / inject_Z b.
Proof.
  intros Hb.
  assert (Hiff : float_value f == inject_Z a / inject_Z b
                 ↔ float_value f - inject_Z a / inject_Z b == 0).
  { split; intros Heq; [rewrite Heq; ring|].
    rewrite <- (Qplus_0_l (inject_Z a / inject_Z b)), <- Heq. ring. }
  rewrite Hiff, (float_value_div f a b Hb).
  assert (Hp : 0 < 2 ^ 1074) by (apply Z.pow_pos_nonneg; lia).
  assert (Hden : ¬ inject_Z (2 ^ 1074 * b) == 0) by (unfold Qeq; simpl; nia).
  split.
  - intros Heq. rewrite Heq, Z.sub_diag. unfold Qdiv. ring.
  - intros Heq.
    assert (Hnum : inject_Z (float_units f * b - a * 2 ^ 1074) == 0).
    { rewrite <- (Qmult_div_r (inject_Z (float_units f * b - a * 2 ^ 1074))
                              (inject_Z (2 ^ 1074 * b)) Hden).
      rewrite Heq. ring. }
    unfold Qeq in Hnum. simpl in Hnum. lia.
Qed.


Lemma binary64_units_bound g :
  is_binary64 g → Z.abs (float_units g) ≤ (2 ^ 53 - 1) * 2 ^ 2045.
Proof.
  intros (Hm & He & _). unfold float_units.
  assert (0 < 2 ^ (f_exp g + 1074)) by (apply Z.pow_pos_nonneg; lia).
  assert (2 ^ (f_exp g + 1074) ≤ 2 ^ 2045) by (apply Z.pow_le_mono_r; lia).
  assert (f_mant g * 2 ^ (f_exp g + 1074) ≤ (2 ^ 53 - 1) * 2 ^ 2045)
    by (apply Z.mul_le_mono_nonneg; lia).
  assert (0 ≤ f_mant g * 2 ^ (f_exp g + 1074)) by (apply Z.mul_nonneg_nonneg; lia).
  destruct (f_neg g); lia.
Qed.

(** When the quotient is a binary64 number, [a / b] returns it. *)
Lemma int_truediv_exact a b g :
  b ≠ 0 → is_binary64 g → float_value g == inject_Z a / inject_Z b →
  ∃ f, int_truediv a b = Ok f ∧ float_value f == inject_Z a / inject_Z b.
Proof.
  intros Hb Hg Hval. apply (float_value_eq g a b Hb) in Hval.
  destruct (int_truediv_overflow a b Hb) as [Hov [Hraise|[f Hf]]].
  - exfalso. apply Hov in Hraise.
    pose proof (binary64_units_bound g Hg) as Hbound.
    assert (Hp : 0 < 2 ^ 1074) by (apply Z.pow_pos_nonneg; lia).
    assert (Habs : Z.abs (float_units g) * Z.abs b = Z.abs a * 2 ^ 1074)
      by (rewrite <- !Z.abs_mul, Hval, Z.abs_mul, (Z.abs_eq (2 ^ 1074)) by lia; reflexivity).
    assert (Hlt : (2 ^ 53 - 1) * 2 ^ 2045 < (2 ^ 1024 - 2 ^ 970) * 2 ^ 1074)
      by (vm_compute; reflexivity).
    assert (Z.abs b * (2 ^ 1024 - 2 ^ 970) * 2 ^ 1074 ≤ Z.abs a * 2 ^ 1074)
      by (apply Z.mul_le_mono_nonneg_r; lia).
    assert (Z.abs (float_units g) * Z.abs b ≤ (2 ^ 53 - 1) * 2 ^ 2045 * Z.abs b)
      by (apply Z.mul_le_mono_nonneg_r; lia).
    assert ((2 ^ 53 - 1) * 2 ^ 2045 * Z.abs b < (2 ^ 1024 - 2 ^ 970) * 2 ^ 1074 * Z.abs b)
      by (apply Z.mul_lt_mono_pos_r; lia).
    lia.
  - exists f. split; [done|]. apply (float_value_eq f a b Hb).
    destruct (int_truediv_nearest_units a b f Hf) as (_ & _ & _ & Hnear).
    destruct Hg as (Hm & He & _).
    specialize (Hnear g ltac:(lia) ltac:(lia)). rewrite Hval, Z.sub_diag in Hnear.
    change (Z.abs 0) with 0 in Hnear. lia.
Qed.

(** A quotient between two integers of at most 53 bits is rounded to a
    number between them. *)
Lemma int_truediv_between a b lo hi :
  0 < b → - 2 ^ 53 ≤ lo → hi ≤ 2 ^ 53 → lo * b ≤ a ≤ hi * b →
  ∃ f, int_truediv a b = Ok f
    ∧ (inject_Z lo <= float_value f)%Q ∧ (float_value f <= inject_Z hi)%Q.
Proof.
  intros Hb Hlo Hhi Ha.
  assert (Hp : 0 < 2 ^ 1074) by (apply Z.pow_pos_nonneg; lia).
  assert (Hp53 : 0 < 2 ^ 53) by (apply Z.pow_pos_nonneg; lia).
  assert (Hlohi : lo ≤ hi).
  { apply (Z.mul_le_mono_pos_r _ _ b); lia. }
  destruct (int_truediv_overflow a b ltac:(lia)) as [Hov [Hraise|[f Hf]]].
  { exfalso. apply Hov in Hraise. rewrite (Z.abs_eq b) in Hraise by lia.
    assert (2 ^ 53 < 2 ^ 1024 - 2 ^ 970) by (vm_compute; reflexivity).
    assert (b * 2 ^ 53 < b * (2 ^ 1024 - 2 ^ 970)) by (apply Z.mul_lt_mono_pos_l; lia).
    assert (- 2 ^ 53 * b ≤ lo * b) by (apply Z.mul_le_mono_nonneg_r; lia).
    assert (hi * b ≤ 2 ^ 53 * b) by (apply Z.mul_le_mono_nonneg_r; lia).
    lia. }
  exists f. split; [done|].
  destruct (int_truediv_nearest_units a b f Hf) as (_ & _ & _ & Hnear).
  assert (Hint : ∀ z, - 2 ^ 53 ≤ z ≤ 2 ^ 53 →
            Z.abs (float_units f * b - a * 2 ^ 1074)
            ≤ Z.abs (z * 2 ^ 1074 * b - a * 2 ^ 1074)).
  { intros z Hz.
    specialize (Hnear (mkFloat (z <? 0) (Z.abs z) 0) ltac:(simpl; lia) ltac:(simpl; lia)).
    replace (float_units (mkFloat (z <? 0) (Z.abs z) 0)) with (z * 2 ^ 1074) in Hnear;
      [exact Hnear|].
    unfold float_units. cbn [f_neg f_mant f_exp]. change (0 + 1074) with 1074.
    destruct (Z.ltb_spec z 0); [rewrite Z.abs_neq by lia|rewrite Z.abs_eq by lia]; ring. }
  assert (Hau : lo * 2 ^ 1074 * b ≤ a * 2 ^ 1074 ≤ hi * 2 ^ 1074 * b).
  { split.
    - replace (lo * 2 ^ 1074 * b) with (lo * b * 2 ^ 1074) by ring.
      apply Z.mul_le_mono_nonneg_r; lia.
    - replace (hi * 2 ^ 1074 * b) with (hi * b * 2 ^ 1074) by ring.
      apply Z.mul_le_mono_nonneg_r; lia. }
  split.
  - apply float_value_ge. apply Z.nlt_ge. intros Hlt.
    assert (float_units f * b < lo * 2 ^ 1074 * b) by (apply Z.mul_lt_mono_pos_r; lia).
    specialize (Hint lo ltac:(lia)). lia.
  - apply float_value_le. apply Z.nlt_ge. intros Hlt.
    assert (hi * 2 ^ 1074 * b < float_units f * b) by (apply Z.mul_lt_mono_pos_r; lia).
    specialize (Hint hi ltac:(lia)). lia.
Qed.

End FloatFacts.


(** * Properties of data_parser.py *)
Module DataParserFacts.
Import Py Os Json DataParser.

Lemma bind_ok {S A B} (m : M S A) (f : A → M S B) s a s' :
  m s = (Ok a, s') → (m ≫= f) s = f a s'.
Proof. intros Hm. unfold mbind, M_bind. by rewrite Hm. Qed.

Lemma bind_raise {S A B} (m : M S A) (f : A → M S B) s e s' :
  m s = (Raise e, s') → (m ≫= f) s = (Raise e, s').
Proof. intros Hm. unfold mbind, M_bind. by rewrite Hm. Qed.

Lemma set_heap_same st : set_heap (heap st) st = st.
Proof. by destruct st. Qed.

Section facts.
Context `{CsvLib}.

Lemma normalize_step_fail st l e :
  age_error st l = Some e → normalize_step l st = (Raise e, st).
Proof.
  unfold age_error, normalize_step, getitem, mbind, M_bind, lift.
  destruct (heap st !! l) as [d|]; [|naive_solver].
  destruct (d !! "age") as [v|]; [|naive_solver].
  destruct (py_int v); naive_solver.
Qed.

Lemma normalize_step_ok st l :
  age_error st l = None →
  ∃ d v z, heap st !! l = Some d ∧ d !! "age" = Some v ∧ py_int v = Ok z ∧
    normalize_step l st = (Ok (), set_heap (<[l := <["age" := VInt z]> d]> (heap st)) st).
Proof.
  unfold age_error, normalize_step, getitem, setitem, mbind, M_bind, lift.
  destruct (heap st !! l) as [d|] eqn:Hd; [|naive_solver].
  destruct (d !! "age") as [v|] eqn:Hv; [|naive_solver].
  destruct (py_int v) as [z|] eqn:Hz; [|naive_solver].
  intros _. exists d, v, z. by rewrite Hd.
Qed.

Lemma normalize_age_unfold records :
  normalize_age records = (for_each records normalize_step;; mret records).
Proof. reflexivity. Qed.

(** A record converted after the first turn of the loop was converted from
    the start. *)
Lemma converted_from_step st st' r d v z l :
  heap st !! r = Some d → d !! "age" = Some v → py_int v = Ok z →
  converted_from (set_heap (<[r := <["age" := VInt z]> d]> (heap st)) st) st' l →
  converted_from st st' l.
Proof.
  intros Hd Hv Hz (d1 & v1 & z1 & Hd1 & Hv1 & Hz1 & Hl). simpl in Hd1.
  destruct (decide (l = r)) as [->|Hne].
  - rewrite list_lookup_insert_eq in Hd1 by (by eapply lookup_lt_Some).
    simplify_eq. rewrite lookup_insert_eq in Hv1. simplify_eq. simpl in Hz1.
    simplify_eq. exists d, v, z1. by rewrite insert_insert_eq in Hl.
  - rewrite list_lookup_insert_ne in Hd1 by done. by exists d1, v1, z1.
Qed.

Lemma converted_from_first st st' r d v z done :
  heap st !! r = Some d → d !! "age" = Some v → py_int v = Ok z →
  let st1 := set_heap (<[r := <["age" := VInt z]> d]> (heap st)) st in
  Forall (converted_from st1 st') done →
  (∀ l, l ∉ done → heap st' !! l = heap st1 !! l) →
  converted_from st st' r.
Proof.
  intros Hd Hv Hz st1 Hdone Hout.
  destruct (decide (r ∈ done)) as [Hin|Hnin].
  - eapply converted_from_step; [done..|].
    by eapply (proj1 (Forall_forall _ _) Hdone).
  - exists d, v, z. rewrite (Hout _ Hnin). subst st1. simpl.
    by rewrite list_lookup_insert_eq by (by eapply lookup_lt_Some).
Qed.

Lemma for_each_normalize st records :
  match for_each records normalize_step st with
  | (Ok _, st') =>
      Forall (converted_from st st') records
      ∧ (∀ l, l ∉ records → heap st' !! l = heap st !! l)
      ∧ files st' = files st ∧ handles st' = handles st
  | (Raise e, st') =>
      ∃ done r rest, records = done ++ r :: rest
      ∧ Forall (converted_from st st') done
      ∧ (∀ l, l ∉ done → heap st' !! l = heap st !! l)
      ∧ age_error st' r = Some e
      ∧ files st' = files st ∧ handles st' = handles st
  end.
Proof.
  revert st. induction records as [|r records IH]; intros st; simpl.
  { by repeat split. }
  destruct (age_error st r) as [e|] eqn:Herr.
  - rewrite (bind_raise _ _ _ _ _ (normalize_step_fail _ _ _ Herr)).
    exists [], r, records. repeat split; try done.
  - destruct (normalize_step_ok _ _ Herr) as (d & v & z & Hd & Hv & Hz & Hstep).
    rewrite (bind_ok _ _ _ _ _ Hstep).
    set (st1 := set_heap _ st) in *. specialize (IH st1).
    assert (Hother : ∀ l, l ≠ r → heap st1 !! l = heap st !! l).
    { intros l Hne. subst st1. simpl. by rewrite list_lookup_insert_ne. }
    destruct (for_each records normalize_step st1) as [[[]|e] st'].
    + destruct IH as (Hconv & Hout & Hf & Hh). repeat split; try done.
      * constructor.
        -- eapply converted_from_first; eauto.
        -- eapply Forall_impl; [exact Hconv|]. intros l.
           by eapply converted_from_step.
      * intros l Hl. apply not_elem_of_cons in Hl as [Hne Hl].
        rewrite (Hout _ Hl). by apply Hother.
    + destruct IH as (done & r' & rest & -> & Hconv & Hout & Hfail & Hf & Hh).
      exists (r :: done), r', rest. repeat split; try done.
      * constructor.
        -- eapply converted_from_first; eauto.
        -- eapply Forall_impl; [exact Hconv|]. intros l.
           by eapply converted_from_step.
      * intros l Hl. apply not_elem_of_cons in Hl as [Hne Hl].
        rewrite (Hout _ Hl). by apply Hother.
Qed.

(** C1, as the code has it: [normalize_age] either returns the list it
    was given with the age of every record replaced, in place, by the
    integer [int] makes of it, or it raises at the first record whose age
    [int] rejects (or that has no age). It does not roll back: the records
    before that one stay converted, and every record it did not reach is as
    it was. *)
Theorem normalize_age_converts_prefix st records :
  match normalize_age records st with
  | (Ok out, st') =>
      out = records
      ∧ Forall (converted_from st st') records
      ∧ (∀ l, l ∉ records → heap st' !! l = heap st !! l)
  | (Raise e, st') =>
      ∃ done r rest, records = done ++ r :: rest
      ∧ age_error st' r = Some e
      ∧ Forall (converted_from st st') done
      ∧ (∀ l, l ∉ done → heap st' !! l = heap st !! l)
  end.
Proof.
  rewrite normalize_age_unfold. unfold mbind, M_bind.
  pose proof (for_each_normalize st records) as Hloop.
  destruct (for_each records normalize_step st) as [[[]|e] st']; simpl.
  - by destruct Hloop as (? & ? & _).
  - destruct Hloop as (done & r & rest & ? & ? & ? & ? & _). by exists done, r, rest.
Qed.

(** C1 as stated fails: on two records of which the second has the age
    ["x"], [normalize_age] raises [ValueError] after it has replaced the
    age of the first by the integer 30. *)
Lemma normalize_age_partial_application :
  normalize_age [0; 1]%nat st_mixed
    = (Raise ValueError,
       mkState [row (VStr "A") (VInt 30) (VStr "Kenya");
                row (VStr "B") (VStr "x") (VStr "Uganda")] ∅ [])
  ∧ ¬ all_or_nothing st_mixed [0; 1]%nat.
Proof.
  assert (Hrun : normalize_age [0; 1]%nat st_mixed
    = (Raise ValueError,
       mkState [row (VStr "A") (VInt 30) (VStr "Kenya");
                row (VStr "B") (VStr "x") (VStr "Uganda")] ∅ [])).
  { vm_compute. reflexivity. }
  split; [exact Hrun|].
  unfold all_or_nothing. rewrite Hrun. simpl. intros Heq.
  apply (f_equal (λ h : list record, h !! 0%nat ≫= (.!! "age"))) in Heq as Hage.
  vm_compute in Hage. discriminate.
Qed.

Lemma normalize_step_numeric st l :
  numeric_age st l → normalize_step l st = (Ok (), st).
Proof.
  intros (d & z & Hd & Hv).
  unfold normalize_step, getitem, setitem, mbind, M_bind, lift. rewrite Hd, Hv.
  simpl. rewrite Hd. rewrite insert_id by done. rewrite list_insert_id by done.
  by rewrite set_heap_same.
Qed.

Lemma for_each_normalize_numeric st records :
  Forall (numeric_age st) records →
  for_each records normalize_step st = (Ok (), st).
Proof.
  induction 1 as [|l records Hl _ IH]; [done|]. simpl.
  by rewrite (bind_ok _ _ _ _ _ (normalize_step_numeric _ _ Hl)).
Qed.

(** C9: on records whose ages are already integers, [normalize_age]
    changes nothing, so running it twice gives the same list over the same
    records as running it once. *)
Theorem normalize_age_idempotent st records :
  Forall (numeric_age st) records →
  (normalize_age records ≫= normalize_age) st = normalize_age records st
  ∧ normalize_age records st = (Ok records, st).
Proof.
  intros Hnum.
  assert (Hone : normalize_age records st = (Ok records, st)).
  { rewrite normalize_age_unfold.
    by rewrite (bind_ok _ _ _ _ _ (for_each_normalize_numeric _ _ Hnum)). }
  split; [|done]. by rewrite (bind_ok _ _ _ _ _ Hone).
Qed.

Lemma filter_loop st country records acc :
  Forall (has_country st) records →
  for_fold records acc (λ filtered record,
    c ← getitem record "country";
    if py_eq c country then mret (filtered ++ [record]) else mret filtered) st
  = (Ok (acc ++ filter (country_is st country) records), st).
Proof.
  intros Hall. revert acc.
  induction Hall as [|l records (d & Hd & [c Hc]) _ IH]; intros acc; simpl.
  { by rewrite app_nil_r. }
  unfold mbind at 1, M_bind at 1. unfold mbind at 1, M_bind at 1.
  unfold getitem at 1. rewrite Hd, Hc. unfold py_eq.
  destruct (decide (c = country)) as [->|Hne].
  - rewrite bool_decide_eq_true_2 by done. simpl. rewrite IH.
    rewrite filter_cons_True by (by exists d). by rewrite <- app_assoc.
  - rewrite bool_decide_eq_false_2 by done. simpl. rewrite IH.
    rewrite filter_cons_False; [done|].
    intros (d' & Hd' & Hc'). congruence.
Qed.

(** C3: on records that all have a [country], [filter_by_country] returns
    the records whose country equals the target, in their input order (the
    result is a subsequence of the input, and a record is in it exactly
    when it is in the input and matches); it changes neither the records
    nor the input list, and it also returns when nothing matches, then with
    the empty list. *)
Theorem filter_by_country_subsequence st records country :
  Forall (has_country st) records →
  ∃ out, filter_by_country records country st = (Ok out, st)
    ∧ out = filter (country_is st country) records
    ∧ sublist out records
    ∧ (∀ l, l ∈ out ↔ l ∈ records ∧ country_is st country l)
    ∧ (Forall (λ l, ¬ country_is st country l) records → out = []).
Proof.
  intros Hall. exists (filter (country_is st country) records).
  split; [|split; [done|split; [|split]]].
  - unfold filter_by_country.
    by rewrite (bind_ok _ _ _ _ _ (filter_loop st country records [] Hall)).
  - apply sublist_filter.
  - intros l. rewrite list_elem_of_filter. tauto.
  - intros Hnone. induction Hnone as [|l ls Hl _ IH]; [done|].
    rewrite filter_cons_False by done. apply IH. by inversion Hall.
Qed.

Lemma sum_loop st records total :
  Forall (numeric_age st) records →
  for_fold records (VInt total) (λ total record,
    age ← getitem record "age";
    lift (py_add total age)) st
  = (Ok (VInt (total + sum_ages st records)), st).
Proof.
  intros Hall. revert total.
  induction Hall as [|l records (d & z & Hd & Hz) _ IH]; intros total; simpl.
  { unfold sum_ages. simpl. by rewrite Z.add_0_r. }
  unfold mbind at 1, M_bind at 1. unfold mbind at 1, M_bind at 1.
  unfold getitem at 1. rewrite Hd, Hz. simpl. rewrite IH.
  unfold sum_ages. simpl. unfold age_of at 2. rewrite Hd, Hz.
  by rewrite Z.add_assoc.
Qed.

(** With integer ages, [get_average_age] is one division: of the sum of
    the ages, which is exact, by the number of records. *)
Lemma get_average_age_division st records :
  Forall (numeric_age st) records →
  get_average_age records st
  = (int_truediv (sum_ages st records) (Z.of_nat (length records)), st).
Proof.
  intros Hall. unfold get_average_age.
  rewrite (bind_ok _ _ _ _ _ (sum_loop st records 0 Hall)).
  unfold mbind, M_bind, lift, py_truediv. rewrite Z.add_0_l.
  by destruct (int_truediv _ _).
Qed.

(** C2 as stated fails: the quotient is rounded to a binary64 number, and
    it can be beyond the range of these numbers. For the ages 1, 1 and 2
    the result is 6004799503160661 * 2^-52, which is not 4/3; for one age
    of 10^400 the call raises [OverflowError]. *)
Lemma get_average_age_not_exact :
  get_average_age [0; 1; 2]%nat st_thirds
    = (Ok (mkFloat false 6004799503160661 (-52)), st_thirds)
  ∧ ¬ returns_exact_mean st_thirds [0; 1; 2]%nat
  ∧ get_average_age [0%nat] st_huge = (Raise OverflowError, st_huge)
  ∧ ¬ returns_exact_mean st_huge [0%nat].
Proof.
  assert (Hthirds : get_average_age [0; 1; 2]%nat st_thirds
                    = (Ok (mkFloat false 6004799503160661 (-52)), st_thirds)).
  { vm_compute. reflexivity. }
  assert (Hhuge : get_average_age [0%nat] st_huge = (Raise OverflowError, st_huge)).
  { vm_compute. reflexivity. }
  split; [exact Hthirds|]. split; [|split; [exact Hhuge|]].
  - intros (f & Hrun & Hmean). rewrite Hthirds in Hrun. injection Hrun as <-.
    vm_compute in Hmean. discriminate Hmean.
  - intros (f & Hrun & _). rewrite Hhuge in Hrun. discriminate Hrun.
Qed.

(** C2, amended: on a non-empty list of records that all hold an integer
    age, [get_average_age] divides the sum of the ages by the number of
    records and changes nothing. It returns the binary64 number nearest to
    the mean: no binary64 number is nearer, and when the mean is a binary64
    number the result is the mean. It raises [OverflowError] exactly when
    the mean is at least 2^1024 - 2^970 in magnitude, and returns
    otherwise. On the empty list it raises [ZeroDivisionError]. *)
Theorem get_average_age_mean st records :
  (records ≠ [] → Forall (numeric_age st) records →
   get_average_age records st
   = (int_truediv (sum_ages st records) (Z.of_nat (length records)), st)
   ∧ (get_average_age records st = (Raise OverflowError, st)
      ↔ Z.of_nat (length records) * (2 ^ 1024 - 2 ^ 970) ≤ Z.abs (sum_ages st records))
   ∧ (Z.abs (sum_ages st records) < Z.of_nat (length records) * (2 ^ 1024 - 2 ^ 970) →
      ∃ f, get_average_age records st = (Ok f, st))
   ∧ (∀ f, get_average_age records st = (Ok f, st) →
      is_binary64 f
      ∧ ∀ g, is_binary64 g →
          (distance f (sum_ages st records) (Z.of_nat (length records))
           <= distance g (sum_ages st records) (Z.of_nat (length records)))%Q)
   ∧ (∀ g, is_binary64 g →
      (float_value g * inject_Z (Z.of_nat (length records))
       == inject_Z (sum_ages st records))%Q →
      ∃ f, get_average_age records st = (Ok f, st)
        ∧ (float_value f * inject_Z (Z.of_nat (length records))
           == inject_Z (sum_ages st records))%Q))
  ∧ get_average_age [] st = (Raise ZeroDivisionError, st).
Proof.
  split; [|done]. intros Hne Hall.
  set (total := sum_ages st records). set (count := Z.of_nat (length records)).
  assert (Hcount : 0 < count) by (subst count; destruct records; [done|simpl; lia]).
  assert (Hrun : get_average_age records st = (int_truediv total count, st))
    by apply (get_average_age_division st records Hall).
  destruct (FloatFacts.int_truediv_overflow total count ltac:(lia)) as [Hov Hcases].
  rewrite (Z.abs_eq count) in Hov by lia.
  assert (Hq : ¬ inject_Z count == 0) by (unfold Qeq; simpl; lia).
  assert (Hmean : ∀ f, (float_value f * inject_Z count == inject_Z total)%Q
                       ↔ (float_value f == inject_Z total / inject_Z count)%Q).
  { intros f. split; intros Heq.
    - rewrite <- Heq. by field.
    - rewrite Heq. by field. }
  split; [exact Hrun|]. rewrite Hrun. split; [|split; [|split]].
  - rewrite <- Hov. split; [by intros [= ->]|by intros ->].
  - intros Hlt. destruct Hcases as [Hraise|[f Hf]]; [|exists f; by rewrite Hf].
    apply Hov in Hraise. lia.
  - intros f [= Hf]. by apply FloatFacts.int_truediv_nearest.
  - intros g Hg Hval. apply Hmean in Hval.
    destruct (FloatFacts.int_truediv_exact total count g ltac:(lia) Hg Hval)
      as (f & Hf & Hfval).
    exists f. split; [by rewrite Hf|]. by apply Hmean.
Qed.

(** [open(path, "r")] either fails and changes nothing, or makes one
    new file object, open, and changes nothing else. *)
Lemma py_open_read path st :
  match py_open path ModeR st with
  | (Ok f, st1) =>
      f = length (handles st)
      ∧ handles st1 = handles st ++ [mkHandle path ModeR true]
      ∧ heap st1 = heap st ∧ files st1 = files st
      ∧ ∃ fl, files st !! path = Some (NFile fl) ∧ readable fl = true
  | (Raise e, st1) => st1 = st
  end.
Proof.
  unfold py_open.
  destruct (files st !! path) as [[fl| |]|] eqn:Hf; try done.
  destruct (readable fl) eqn:Hr; [|done]. simpl. repeat split; try done.
  by exists fl.
Qed.

Lemma for_fold_append {S A} (l acc : list A) (st : S) :
  for_fold l acc (λ rows row, mret (rows ++ [row])) st = (Ok (acc ++ l), st).
Proof.
  revert acc. induction l as [|x l IH]; intros acc; simpl.
  - by rewrite app_nil_r.
  - unfold mbind, M_bind, mret, M_ret. rewrite IH. by rewrite <- app_assoc.
Qed.

Lemma for_fold_alloc rows acc st :
  for_fold rows acc (λ ls d, l ← alloc d; mret (ls ++ [l])) st
  = (Ok (acc ++ seq (length (heap st)) (length rows)),
     set_heap (heap st ++ rows) st).
Proof.
  revert acc st. induction rows as [|d rows IH]; intros acc st; simpl.
  - rewrite !app_nil_r. by rewrite set_heap_same.
  - unfold mbind at 1, M_bind at 1. unfold mbind at 1, M_bind at 1.
    unfold alloc at 1. simpl. rewrite IH. simpl.
    rewrite length_app. simpl. rewrite Nat.add_1_r.
    rewrite <- !app_assoc. simpl. by destruct st.
Qed.

(** Reading the rows touches neither the files nor the file objects. *)
Lemma reader_rows_frame f st r st' :
  reader_rows f st = (r, st') → handles st' = handles st ∧ files st' = files st.
Proof.
  unfold reader_rows, read_all, lift.
  unfold mbind at 1, M_bind at 1.
  destruct (handles st !! f) as [h|]; [|by intros [= _ <-]].
  destruct (h_open h); [|by intros [= _ <-]].
  destruct (files st !! h_path h) as [[fl| |]|]; try by intros [= _ <-].
  destruct (data fl) as [text|]; [|by intros [= _ <-]].
  unfold mbind at 1, M_bind at 1.
  destruct (DictReader text) as [rows|e]; [|by intros [= _ <-]].
  rewrite for_fold_alloc. by intros [= _ <-].
Qed.

(** What becomes of the file object that [read_csv] opens: when [open]
    fails there is none; when the rows are read it is closed before the
    function returns; when reading the rows raises it is left open. *)
Lemma read_csv_handle_fate path st :
  match py_open path ModeR st with
  | (Raise e, _) => read_csv path st = (Raise e, st)
  | (Ok f, st1) =>
      match reader_rows f st1 with
      | (Ok rows, st2) =>
          ∃ st3, read_csv path st = (Ok rows, st3) ∧ leak_free st st3
                 ∧ heap st3 = heap st2 ∧ files st3 = files st
      | (Raise e, st2) =>
          read_csv path st = (Raise e, st2) ∧ is_open st2 f ∧ ¬ is_open st f
      end
  end.
Proof.
  pose proof (py_open_read path st) as Hopen. unfold read_csv.
  destruct (py_open path ModeR st) as [[f|e] st1] eqn:Ho.
  - destruct Hopen as (-> & Hh & Hheap & Hfiles & _).
    rewrite (bind_ok _ _ _ _ _ Ho).
    destruct (reader_rows (length (handles st)) st1) as [[rows|e] st2] eqn:Hr.
    + destruct (reader_rows_frame _ _ _ _ Hr) as [Hh2 Hf2].
      rewrite (bind_ok _ _ _ _ _ Hr).
      rewrite (bind_ok _ _ _ _ _ (for_fold_append rows [] st2)). simpl.
      unfold mbind, M_bind, py_close. rewrite Hh2, Hh.
      rewrite lookup_app_r by done. rewrite Nat.sub_diag. simpl.
      eexists. split; [reflexivity|]. split; [|split; [done|simpl; congruence]].
      intros h. unfold is_open. simpl.
      destruct (decide (h = length (handles st))) as [->|Hne].
      * rewrite list_lookup_insert_eq; [done|]. rewrite length_app. simpl. lia.
      * rewrite list_lookup_insert_ne by done.
        destruct (decide (h < length (handles st))%nat) as [Hlt|Hge].
        -- by rewrite lookup_app_l.
        -- rewrite lookup_ge_None_2; [done|]. rewrite length_app. simpl. lia.
    + destruct (reader_rows_frame _ _ _ _ Hr) as [Hh2 Hf2].
      rewrite (bind_raise _ _ _ _ _ Hr).
      split; [done|]. unfold is_open. rewrite Hh2, Hh. split.
      * rewrite lookup_app_r by done. by rewrite Nat.sub_diag.
      * by rewrite lookup_ge_None_2.
  - subst st1. by rewrite (bind_raise _ _ _ _ _ Ho).
Qed.

(** C4 fails on the code: when the bytes of the file are not text in the
    encoding, [read_csv] raises out of its loop and never reaches
    [f.close()]; the file object it opened stays open. *)
Theorem read_csv_leaks_handle :
  ∃ st', read_csv "users.csv" st_undecodable = (Raise UnicodeDecodeError, st')
    ∧ handles st' = [mkHandle "users.csv" ModeR true]
    ∧ is_open st' 0 ∧ ¬ is_open st_undecodable 0
    ∧ ¬ leak_free st_undecodable st'.
Proof.
  eexists. split; [by vm_compute|]. split; [done|].
  assert (Hopen : is_open
    (mkState [] (files st_undecodable) [mkHandle "users.csv" ModeR true]) 0) by done.
  assert (Hclosed : ¬ is_open st_undecodable 0) by (by unfold is_open).
  split; [exact Hopen|]. split; [exact Hclosed|].
  intros Hleak. exact (Hclosed (Hleak 0%nat Hopen)).
Qed.

Lemma reader_rows_ok f st path m fl text rows :
  handles st !! f = Some (mkHandle path m true) →
  files st !! path = Some (NFile fl) → data fl = Text text →
  DictReader text = Ok rows →
  reader_rows f st
  = (Ok (seq (length (heap st)) (length rows)), set_heap (heap st ++ rows) st).
Proof.
  intros Hh Hf Hd Hrows. unfold reader_rows.
  assert (Hread : read_all f st = (Ok text, st)).
  { unfold read_all. rewrite Hh. simpl. by rewrite Hf, Hd. }
  rewrite (bind_ok _ _ _ _ _ Hread).
  assert (Hlift : lift (S := state) (DictReader text) st = (Ok rows, st)).
  { unfold lift. by rewrite Hrows. }
  rewrite (bind_ok _ _ _ _ _ Hlift).
  by rewrite for_fold_alloc.
Qed.

(** [read_csv] on a readable text file: the rows become new records at
    the end of the store. *)
Lemma read_csv_ok path st fl text rows :
  files st !! path = Some (NFile fl) → readable fl = true → data fl = Text text →
  DictReader text = Ok rows →
  ∃ st', read_csv path st = (Ok (seq (length (heap st)) (length rows)), st')
    ∧ heap st' = heap st ++ rows ∧ files st' = files st.
Proof.
  intros Hf Hr Hd Hrows.
  pose proof (read_csv_handle_fate path st) as Hfate.
  assert (Hopen : py_open path ModeR st
    = (Ok (length (handles st)),
       set_handles (handles st ++ [mkHandle path ModeR true]) st)).
  { unfold py_open. by rewrite Hf, Hr. }
  rewrite Hopen in Hfate.
  rewrite (reader_rows_ok _ _ path ModeR fl text rows) in Hfate; try done.
  - destruct Hfate as (st3 & Hrun & _ & Hheap & Hfiles). by exists st3.
  - simpl. rewrite lookup_app_r by done. by rewrite Nat.sub_diag.
Qed.

Lemma rows_converted (h : list record) :
  <[S (length h) := <["age" := VInt 40]> (row (VStr "B") (VStr "40") (VStr "Uganda"))]>
    (<[length h := <["age" := VInt 30]> (row (VStr "A") (VStr "30") (VStr "Kenya"))]>
       (h ++ [row (VStr "A") (VStr "30") (VStr "Kenya");
              row (VStr "B") (VStr "40") (VStr "Uganda")]))
  = h ++ [row (VStr "A") (VInt 30) (VStr "Kenya");
          row (VStr "B") (VInt 40) (VStr "Uganda")].
Proof.
  replace (S (length h)) with (length h + 1)%nat by lia.
  replace (length h) with (length h + 0)%nat at 2 by lia.
  rewrite !insert_app_r. simpl. do 3 f_equal.
Qed.

(** The end-to-end example, from any state in which the reader delivers
    the two rows. *)
Lemma example_run path st fl text :
  files st !! path = Some (NFile fl) → readable fl = true → data fl = Text text →
  DictReader text = Ok [row (VStr "A") (VStr "30") (VStr "Kenya");
                        row (VStr "B") (VStr "40") (VStr "Uganda")] →
  ∃ st', load_and_process path (VStr "Kenya") st = (Ok [length (heap st)], st')
    ∧ heap st' = heap st ++ [row (VStr "A") (VInt 30) (VStr "Kenya");
                             row (VStr "B") (VInt 40) (VStr "Uganda")]
    ∧ ∃ f, get_average_age [length (heap st)] st' = (Ok f, st') ∧ (float_value f == 30)%Q.
Proof.
  intros Hf Hr Hd Hrows.
  destruct (read_csv_ok _ _ _ _ _ Hf Hr Hd Hrows) as (st1 & Hread & Hheap1 & _).
  simpl in Hread. set (n := length (heap st)) in *.
  set (A := row (VStr "A") (VStr "30") (VStr "Kenya")) in *.
  set (B := row (VStr "B") (VStr "40") (VStr "Uganda")) in *.
  assert (HA : heap st1 !! n = Some A).
  { rewrite Hheap1. by rewrite list_lookup_middle. }
  assert (Hn1 : normalize_step n st1
    = (Ok (), set_heap (<[n := <["age" := VInt 30]> A]> (heap st1)) st1)).
  { assert (Hage : A !! "age" = Some (VStr "30")) by done.
    assert (Hint : py_int (VStr "30") = Ok 30) by (by vm_compute).
    unfold normalize_step, getitem, setitem, mbind, M_bind, lift.
    rewrite HA, Hage, Hint. by rewrite HA. }
  set (st2 := set_heap _ st1) in Hn1.
  assert (HB : heap st2 !! S n = Some B).
  { subst st2. simpl. rewrite list_lookup_insert_ne by lia. rewrite Hheap1.
    rewrite lookup_app_r by (subst n; lia).
    by replace (S n - length (heap st))%nat with 1%nat by (subst n; lia). }
  assert (Hn2 : normalize_step (S n) st2
    = (Ok (), set_heap (<[S n := <["age" := VInt 40]> B]> (heap st2)) st2)).
  { assert (Hage : B !! "age" = Some (VStr "40")) by done.
    assert (Hint : py_int (VStr "40") = Ok 40) by (by vm_compute).
    unfold normalize_step, getitem, setitem, mbind, M_bind, lift.
    rewrite HB, Hage, Hint. by rewrite HB. }
  set (st3 := set_heap _ st2) in Hn2.
  assert (Hheap3 : heap st3 = heap st ++ [row (VStr "A") (VInt 30) (VStr "Kenya");
                                          row (VStr "B") (VInt 40) (VStr "Uganda")]).
  { subst st3 st2. simpl. rewrite Hheap1. apply rows_converted. }
  assert (Hnorm : normalize_age [n; S n] st1 = (Ok [n; S n], st3)).
  { rewrite normalize_age_unfold. simpl.
    unfold mbind at 1, M_bind at 1.
    rewrite (bind_ok _ _ _ _ _ Hn1). by rewrite (bind_ok _ _ _ _ _ Hn2). }
  assert (HA3 : heap st3 !! n = Some (row (VStr "A") (VInt 30) (VStr "Kenya"))).
  { rewrite Hheap3. by rewrite list_lookup_middle. }
  assert (HB3 : heap st3 !! S n = Some (row (VStr "B") (VInt 40) (VStr "Uganda"))).
  { rewrite Hheap3. rewrite lookup_app_r by (subst n; lia).
    by replace (S n - length (heap st))%nat with 1%nat by (subst n; lia). }
  assert (Hcountries : Forall (has_country st3) [n; S n]).
  { repeat constructor; eexists; (split; [eassumption|]); by eexists. }
  assert (Hfilter : filter_by_country [n; S n] (VStr "Kenya") st3 = (Ok [n], st3)).
  { unfold filter_by_country.
    rewrite (bind_ok _ _ _ _ _ (filter_loop st3 (VStr "Kenya") [n; S n] [] Hcountries)).
    rewrite filter_cons_True by (by eexists).
    rewrite filter_cons_False; [done|].
    intros (d & Hd' & Hc). rewrite HB3 in Hd'. by simplify_eq. }
  exists st3. split; [|split; [done|]].
  - unfold load_and_process.
    rewrite (bind_ok _ _ _ _ _ Hread). rewrite (bind_ok _ _ _ _ _ Hnorm).
    by rewrite (bind_ok _ _ _ _ _ Hfilter).
  - assert (Hnum : Forall (numeric_age st3) [n]).
    { repeat constructor. by eexists _, 30. }
    assert (Hsum : sum_ages st3 [n] = 30).
    { unfold sum_ages. simpl. unfold age_of. by rewrite HA3. }
    exists (mkFloat false 8444249301319680 (-48)). split.
    + rewrite (get_average_age_division st3 [n] Hnum), Hsum.
      change (Z.of_nat (length [n])) with 1.
      assert (int_truediv 30 1 = Ok (mkFloat false 8444249301319680 (-48))) as ->
        by (vm_compute; reflexivity).
      reflexivity.
    + vm_compute. reflexivity.
Qed.

(** C7: [load_and_process] is the reader, then the normaliser on [age],
    then the filter on [country] with the target; the first stage that
    raises ends the run with its exception and the state it left. On the
    two rows (A, "30", Kenya) and (B, "40", Uganda) with the target Kenya it
    returns the one record (A, 30, Kenya), whose average age is 30. *)
Theorem load_and_process_pipeline :
  (∀ path target st,
     load_and_process path target st = spec_Pipeline path target st
     ∧ (∀ e st1, read_csv path st = (Raise e, st1) →
          load_and_process path target st = (Raise e, st1))
     ∧ (∀ r st1 e st2, read_csv path st = (Ok r, st1) →
          normalize_age r st1 = (Raise e, st2) →
          load_and_process path target st = (Raise e, st2))
     ∧ (∀ r st1 r' st2 out st3, read_csv path st = (Ok r, st1) →
          normalize_age r st1 = (Ok r', st2) →
          filter_by_country r' target st2 = (out, st3) →
          load_and_process path target st = (out, st3)))
  ∧ (∀ path st fl text,
     files st !! path = Some (NFile fl) → readable fl = true → data fl = Text text →
     DictReader text = Ok [row (VStr "A") (VStr "30") (VStr "Kenya");
                           row (VStr "B") (VStr "40") (VStr "Uganda")] →
     ∃ st', load_and_process path (VStr "Kenya") st = (Ok [length (heap st)], st')
       ∧ heap st' !! length (heap st) = Some (row (VStr "A") (VInt 30) (VStr "Kenya"))
       ∧ ∃ f, get_average_age [length (heap st)] st' = (Ok f, st') ∧ (float_value f == 30)%Q).
Proof.
  split.
  - intros path target st. split; [|split; [|split]].
    + unfold load_and_process, spec_Pipeline, spec_Reader.
      unfold mbind, M_bind. destruct (read_csv path st) as [[r|e] st1]; [|done].
      change (spec_Normalizer "age" r st1) with (normalize_age r st1).
      destruct (normalize_age r st1) as [[r'|e] st2]; [|done].
      change (spec_Filter "country" target r' st2)
        with (for_fold r' [] (λ filtered record,
                c ← getitem record "country";
                if py_eq c target then mret (filtered ++ [record]) else mret filtered) st2).
      unfold filter_by_country, mbind, M_bind, mret, M_ret.
      by destruct (for_fold r' [] _ st2) as [[out|e] st3].
    + intros e st1 Hread. unfold load_and_process.
      by rewrite (bind_raise _ _ _ _ _ Hread).
    + intros r st1 e st2 Hread Hnorm. unfold load_and_process.
      rewrite (bind_ok _ _ _ _ _ Hread). by rewrite (bind_raise _ _ _ _ _ Hnorm).
    + intros r st1 r' st2 out st3 Hread Hnorm Hfilter. unfold load_and_process.
      rewrite (bind_ok _ _ _ _ _ Hread). rewrite (bind_ok _ _ _ _ _ Hnorm).
      unfold mbind, M_bind. rewrite Hfilter. by destruct out.
  - intros path st fl text Hf Hr Hd Hrows.
    destruct (example_run _ _ _ _ Hf Hr Hd Hrows) as (st' & Hrun & Hheap & Havg).
    exists st'. split; [done|]. split; [|done].
    rewrite Hheap. by rewrite list_lookup_middle.
Qed.

(** [open(path, "w")] either fails and changes nothing, or makes one new
    file object on a file that is now empty. *)
Lemma py_open_write path st :
  match py_open path ModeW st with
  | (Ok f, st1) =>
      f = length (handles st)
      ∧ handles st1 = handles st ++ [mkHandle path ModeW true]
      ∧ heap st1 = heap st
      ∧ ∃ r, files st1 = <[path := NFile (mkFile r true (Text EmptyString))]> (files st)
  | (Raise e, st1) => st1 = st
  end.
Proof.
  unfold py_open.
  destruct (files st !! path) as [[fl| |]|] eqn:Hf; try done.
  - destruct (writable fl) eqn:Hw; [|done]. simpl. repeat split; try done.
    by eexists.
  - simpl. repeat split; try done. by eexists.
Qed.

(** Collecting the records for [json.dump] reads the store and changes
    nothing. *)
Lemma for_fold_getobj records acc st :
  match records_at st records with
  | Some ds =>
      for_fold records acc (λ dicts r, d ← getobj r; mret (dicts ++ [d])) st
      = (Ok (acc ++ ds), st)
  | None =>
      ∃ e, for_fold records acc (λ dicts r, d ← getobj r; mret (dicts ++ [d])) st
           = (Raise e, st)
  end.
Proof.
  revert acc. induction records as [|l records IH]; intros acc.
  { simpl. by rewrite app_nil_r. }
  unfold records_at in *. cbn [mapM for_fold].
  destruct (heap st !! l) as [d|] eqn:Hd.
  - assert (Hbody : (getobj l ≫= λ d, mret (acc ++ [d])) st = (Ok (acc ++ [d]), st)).
    { unfold mbind, M_bind, getobj. by rewrite Hd. }
    specialize (IH (acc ++ [d])). simpl.
    destruct (mapM (λ l0 : loc, heap st !! l0) records) as [ds|] eqn:Hds; simpl.
    + rewrite (bind_ok _ _ _ _ _ Hbody). rewrite IH. by rewrite <- app_assoc.
    + destruct IH as [e He]. exists e. by rewrite (bind_ok _ _ _ _ _ Hbody).
  - assert (Hbody : (getobj l ≫= λ d, mret (acc ++ [d])) st = (Raise (NoObject l), st)).
    { unfold mbind, M_bind, getobj. by rewrite Hd. }
    simpl. eexists. by rewrite (bind_raise _ _ _ _ _ Hbody).
Qed.

Lemma save_to_json_inv st records output_path st' :
  save_to_json records output_path st = (Ok (), st') →
  ∃ dicts, records_at st records = Some dicts
    ∧ file_text st' output_path = Some (dumps_records dicts)
    ∧ heap st' = heap st.
Proof.
  unfold save_to_json, json_dump.
  pose proof (py_open_write output_path st) as Hopen.
  destruct (py_open output_path ModeW st) as [[f|e] st1] eqn:Ho.
  2:{ rewrite (bind_raise _ _ _ _ _ Ho). discriminate. }
  destruct Hopen as (-> & Hh & Hheap & r & Hfiles).
  rewrite (bind_ok _ _ _ _ _ Ho).
  pose proof (for_fold_getobj records [] st1) as Hfold.
  assert (Hrec : records_at st1 records = records_at st records).
  { unfold records_at. by rewrite Hheap. }
  rewrite Hrec in *.
  destruct (records_at st records) as [dicts|] eqn:Hdicts.
  2:{ destruct Hfold as [e He].
      unfold mbind at 1, M_bind at 1. rewrite (bind_raise _ _ _ _ _ He). discriminate. }
  simpl in Hfold. unfold mbind at 1, M_bind at 1.
  rewrite (bind_ok _ _ _ _ _ Hfold).
  unfold py_write. rewrite Hh. rewrite lookup_app_r by done.
  rewrite Nat.sub_diag. simpl. rewrite Hfiles, lookup_insert_eq. simpl.
  unfold py_close. simpl. rewrite Hh. rewrite lookup_app_r by done.
  rewrite Nat.sub_diag. simpl. intros [= <-].
  exists dicts. split; [done|]. split; [|done].
  unfold file_text. simpl. by rewrite lookup_insert_eq.
Qed.

Lemma save_to_json_ok st records output_path dicts :
  records_at st records = Some dicts →
  (files st !! output_path = None
   ∨ ∃ fl, files st !! output_path = Some (NFile fl) ∧ writable fl = true) →
  ∃ st', save_to_json records output_path st = (Ok (), st').
Proof.
  intros Hdicts Hpath. unfold save_to_json, json_dump.
  pose proof (py_open_write output_path st) as Hopen.
  assert (Ho : ∃ st1, py_open output_path ModeW st = (Ok (length (handles st)), st1)).
  { unfold py_open. destruct Hpath as [->|(fl & -> & ->)]; by eexists. }
  destruct Ho as [st1 Ho]. rewrite Ho in Hopen.
  destruct Hopen as (_ & Hh & Hheap & r & Hfiles).
  rewrite (bind_ok _ _ _ _ _ Ho).
  pose proof (for_fold_getobj records [] st1) as Hfold.
  assert (Hrec : records_at st1 records = Some dicts).
  { unfold records_at in *. by rewrite Hheap. }
  rewrite Hrec in Hfold. simpl in Hfold. unfold mbind at 1, M_bind at 1.
  rewrite (bind_ok _ _ _ _ _ Hfold).
  unfold py_write. rewrite Hh. rewrite lookup_app_r by done.
  rewrite Nat.sub_diag. simpl. rewrite Hfiles, lookup_insert_eq. simpl.
  unfold py_close. simpl. rewrite Hh. rewrite lookup_app_r by done.
  rewrite Nat.sub_diag. simpl. by eexists.
Qed.

(** C8: when [save_to_json] has written the records, the text of the file
    is a JSON document that [parse_json] reads back as a list of objects
    whose fields are those of the records, with equal names and equal
    values (integers come back as integers); the records themselves are as
    they were. Writing succeeds whenever the records exist and the path is
    free or names a writable file. *)
Theorem save_to_json_round_trip st records output_path :
  (∀ st', save_to_json records output_path st = (Ok (), st') →
     ∃ dicts doc v, records_at st records = Some dicts
       ∧ file_text st' output_path = Some doc
       ∧ parse_json doc st' = (Ok v, st')
       ∧ records_of_jval v = Some dicts
       ∧ records_at st' records = Some dicts)
  ∧ (∀ dicts, records_at st records = Some dicts →
     (files st !! output_path = None
      ∨ ∃ fl, files st !! output_path = Some (NFile fl) ∧ writable fl = true) →
     ∃ st', save_to_json records output_path st = (Ok (), st')).
Proof.
  split.
  - intros st' Hsave.
    destruct (save_to_json_inv _ _ _ _ Hsave) as (dicts & Hdicts & Hdoc & Hheap).
    exists dicts, (dumps_records dicts), (jval_of_records dicts).
    split; [done|]. split; [done|]. split; [|split].
    + unfold parse_json, mbind, M_bind, lift.
      by rewrite JsonFacts.loads_dumps_records.
    + apply JsonFacts.records_of_jval_of_records.
    + unfold records_at in *. by rewrite Hheap.
  - intros dicts. apply save_to_json_ok.
Qed.

End facts.

(** *** The statements above at concrete records *)

Lemma st_numeric_ages : Forall (numeric_age st_numeric) [0; 1]%nat.
Proof.
  repeat constructor.
  - exists (row (VStr "A") (VInt 30) (VStr "Kenya")), 30. split; reflexivity.
  - exists (row (VStr "B") (VInt 40) (VStr "Uganda")), 40. split; reflexivity.
Defined.

Lemma st_numeric_countries : Forall (has_country st_numeric) [0; 1]%nat.
Proof.
  repeat constructor.
  - exists (row (VStr "A") (VInt 30) (VStr "Kenya")). split; [done|]. by eexists.
  - exists (row (VStr "B") (VInt 40) (VStr "Uganda")). split; [done|]. by eexists.
Defined.

Lemma normalize_age_idempotent_witness :
  Forall (numeric_age st_numeric) [0; 1]%nat
  ∧ (normalize_age [0; 1]%nat ≫= normalize_age) st_numeric
    = normalize_age [0; 1]%nat st_numeric
  ∧ normalize_age [0; 1]%nat st_numeric = (Ok [0; 1]%nat, st_numeric).
Proof.
  split; [exact st_numeric_ages|].
  exact (normalize_age_idempotent st_numeric [0; 1]%nat st_numeric_ages).
Defined.

Lemma filter_by_country_subsequence_witness :
  Forall (has_country st_numeric) [0; 1]%nat
  ∧ ∃ out, filter_by_country [0; 1]%nat (VStr "Kenya") st_numeric = (Ok out, st_numeric)
    ∧ out = filter (country_is st_numeric (VStr "Kenya")) [0; 1]%nat
    ∧ sublist out [0; 1]%nat
    ∧ (∀ l, l ∈ out ↔ l ∈ [0; 1]%nat ∧ country_is st_numeric (VStr "Kenya") l)
    ∧ (Forall (λ l, ¬ country_is st_numeric (VStr "Kenya") l) [0; 1]%nat → out = []).
Proof.
  split; [exact st_numeric_countries|].
  exact (filter_by_country_subsequence st_numeric [0; 1]%nat (VStr "Kenya")
           st_numeric_countries).
Defined.

Lemma get_average_age_mean_witness :
  [0; 1]%nat ≠ [] ∧ Forall (numeric_age st_numeric) [0; 1]%nat
  ∧ get_average_age [0; 1]%nat st_numeric
    = (Ok (mkFloat false (35 * 2 ^ 47) (-47)), st_numeric)
  ∧ (float_value (mkFloat false (35 * 2 ^ 47) (-47)) == 35)%Q
  ∧ sum_ages st_numeric [0; 1]%nat = 70.
Proof.
  split; [discriminate|]. split; [exact st_numeric_ages|].
  split; [|split; reflexivity].
  assert (Hne : [0; 1]%nat ≠ []) by discriminate.
  rewrite (proj1 (proj1 (get_average_age_mean st_numeric [0; 1]%nat) Hne st_numeric_ages)).
  vm_compute. reflexivity.
Defined.

Lemma load_and_process_pipeline_witness :
  ∃ st', @load_and_process plain_csv "users.csv" (VStr "Kenya") st_users
         = (Ok [0%nat], st')
    ∧ heap st' !! 0%nat = Some (row (VStr "A") (VInt 30) (VStr "Kenya"))
    ∧ ∃ f, get_average_age [0%nat] st' = (Ok f, st') ∧ (float_value f == 30)%Q.
Proof.
  apply (proj2 (@load_and_process_pipeline plain_csv) "users.csv" st_users
           (mkFile true true (Text users_csv)) users_csv); reflexivity.
Defined.

Lemma save_to_json_round_trip_witness :
  ∃ st' doc v,
    save_to_json [0; 1]%nat "out.json" st_numeric = (Ok (), st')
    ∧ file_text st' "out.json" = Some doc
    ∧ parse_json doc st' = (Ok v, st')
    ∧ records_of_jval v = Some (heap st_numeric).
Proof.
  destruct (proj2 (save_to_json_round_trip st_numeric [0; 1]%nat "out.json")
              (heap st_numeric) eq_refl (or_introl eq_refl)) as [st' Hsave].
  destruct (proj1 (save_to_json_round_trip st_numeric [0; 1]%nat "out.json") st' Hsave)
    as (dicts & doc & v & Hdicts & Hdoc & Hparse & Hrecords & _).
  exists st', doc, v. repeat split; try done.
  rewrite Hrecords. by rewrite <- Hdicts.
Defined.

End DataParserFacts.

(** * Properties of reviewer.py *)
Module ReviewerFacts.
Import Py Os Reviewer.

Ltac run_monad :=
  unfold mbind, M_bind, mret, M_ret, emit, modify, print, sys_exit, raise, lift;
  simpl.

Section facts.
Context (w : env).

(** The first check: a path that does not exist. *)
Lemma read_source_file_not_found filepath t :
  exists_ (files w) filepath = false →
  read_source_file w filepath t
  = (Raise (SystemExit 1),
     t ++ [EExists filepath;
           EPrint ("Error: File not found " +:+ EM_DASH +:+ " '" +:+ filepath +:+ "'")]).
Proof.
  intros Hex. unfold read_source_file, path_exists. run_monad. rewrite Hex. simpl.
  by rewrite <- app_assoc.
Qed.

(** The second check: a path that exists, with another suffix than [.py]. *)
Lemma read_source_file_wrong_type filepath t :
  exists_ (files w) filepath = true → path_suffix filepath ≠ ".py" →
  read_source_file w filepath t
  = (Raise (SystemExit 1),
     t ++ [EExists filepath;
           EPrint ("Error: Expected a .py file, got '" +:+ path_suffix filepath +:+ "'")]).
Proof.
  intros Hex Hsuf. unfold read_source_file, path_exists. run_monad. rewrite Hex. simpl.
  rewrite bool_decide_eq_true_2 by done. by rewrite <- app_assoc.
Qed.

(** What [read_text] does on a readable text file. *)
Lemma read_text_ok filepath f s t :
  files w !! filepath = Some (NFile f) → readable f = true → data f = Text s →
  read_text w filepath t = (Ok s, t ++ [EReadText filepath]).
Proof.
  intros Hf Hr Hd. unfold read_text. run_monad. by rewrite Hf, Hr, Hd.
Qed.

(** Past the first two checks, with a file that can be read. *)
Lemma read_source_file_read filepath f s t :
  files w !! filepath = Some (NFile f) → readable f = true → data f = Text s →
  path_suffix filepath = ".py" →
  read_source_file w filepath t
  = if bool_decide (strip s = EmptyString)
    then (Raise (SystemExit 1),
          t ++ [EExists filepath; EReadText filepath; EPrint "Error: The file is empty."])
    else (Ok s, t ++ [EExists filepath; EReadText filepath]).
Proof.
  intros Hf Hr Hd Hsuf. unfold read_source_file, path_exists, try_except.
  run_monad. unfold exists_. rewrite Hf. simpl.
  rewrite bool_decide_eq_false_2 by (by intros []).
  rewrite (read_text_ok _ _ _ _ Hf Hr Hd).
  case_bool_decide; simpl; by rewrite <- !app_assoc.
Qed.

(** Whatever [read_source_file] returns is the text of a readable file
    at the path. *)
Lemma read_source_file_returns filepath t s t' :
  read_source_file w filepath t = (Ok s, t') →
  ∃ f, files w !! filepath = Some (NFile f) ∧ readable f = true
       ∧ data f = Text s ∧ path_suffix filepath = ".py".
Proof.
  unfold read_source_file, path_exists, try_except, read_text, exists_.
  run_monad.
  destruct (files w !! filepath) as [[f| |]|] eqn:Hf; simpl; try discriminate;
    (case_bool_decide as Hsuf; simpl; [discriminate|]); [|discriminate].
  destruct (readable f) eqn:Hr; simpl; try discriminate.
  destruct (data f) as [s0|] eqn:Hd; simpl; try discriminate.
  case_bool_decide; simpl; try discriminate.
  intros [= <- <-]. by exists f.
Qed.

(** C5: [read_source_file] checks, in this order, that the path exists,
    that its suffix is [.py], and (once the file is read) that its text is
    not empty after stripping. Each failed check prints its own message and
    exits with status 1, and nothing after it runs: a missing path is
    reported as not found whatever its suffix, without the file being
    read; a wrong suffix is reported without the file being read; a file of
    white space only is reported as empty. The three messages differ. *)
Theorem read_source_file_check_order :
  (∀ filepath t,
     exists_ (files w) filepath = false →
     read_source_file w filepath t
     = (Raise (SystemExit 1),
        t ++ [EExists filepath;
              EPrint ("Error: File not found " +:+ EM_DASH +:+ " '" +:+ filepath +:+ "'")]))
  ∧ (∀ filepath t,
     exists_ (files w) filepath = true → path_suffix filepath ≠ ".py" →
     read_source_file w filepath t
     = (Raise (SystemExit 1),
        t ++ [EExists filepath;
              EPrint ("Error: Expected a .py file, got '" +:+ path_suffix filepath +:+ "'")]))
  ∧ (∀ filepath t f s,
     files w !! filepath = Some (NFile f) → readable f = true → data f = Text s →
     path_suffix filepath = ".py" → strip s = EmptyString →
     read_source_file w filepath t
     = (Raise (SystemExit 1),
        t ++ [EExists filepath; EReadText filepath; EPrint "Error: The file is empty."]))
  ∧ (∀ filepath suffix : string,
     "Error: File not found " +:+ EM_DASH +:+ " '" +:+ filepath +:+ "'"
       ≠ "Error: Expected a .py file, got '" +:+ suffix +:+ "'"
     ∧ "Error: File not found " +:+ EM_DASH +:+ " '" +:+ filepath +:+ "'"
       ≠ "Error: The file is empty."
     ∧ "Error: Expected a .py file, got '" +:+ suffix +:+ "'"
       ≠ "Error: The file is empty.").
Proof.
  split; [|split; [|split]].
  - apply read_source_file_not_found.
  - apply read_source_file_wrong_type.
  - intros filepath t f s Hf Hr Hd Hsuf Hempty.
    rewrite (read_source_file_read _ _ _ _ Hf Hr Hd Hsuf).
    by rewrite bool_decide_eq_true_2.
  - intros filepath suffix. simpl. repeat split; discriminate.
Qed.

(** C10: when [read_source_file] returns, it returns the text of the file
    as it is, white space at either end included: the text is stripped
    only to test it for emptiness. So a readable [.py] file whose text is
    not blank is returned whole. *)
Theorem read_source_file_verbatim filepath t :
  (∀ s t', read_source_file w filepath t = (Ok s, t') →
     ∃ f, files w !! filepath = Some (NFile f) ∧ data f = Text s
          ∧ strip s ≠ EmptyString
          ∧ t' = t ++ [EExists filepath; EReadText filepath])
  ∧ (∀ f s, files w !! filepath = Some (NFile f) → readable f = true →
     data f = Text s → path_suffix filepath = ".py" → strip s ≠ EmptyString →
     read_source_file w filepath t
     = (Ok s, t ++ [EExists filepath; EReadText filepath])).
Proof.
  split.
  - intros s t' Hrun.
    destruct (read_source_file_returns _ _ _ _ Hrun) as (f & Hf & Hr & Hd & Hsuf).
    rewrite (read_source_file_read _ _ _ _ Hf Hr Hd Hsuf) in Hrun.
    case_bool_decide; [discriminate|]. injection Hrun as <-. by exists f.
  - intros f s Hf Hr Hd Hsuf Hne.
    rewrite (read_source_file_read _ _ _ _ Hf Hr Hd Hsuf).
    by rewrite bool_decide_eq_false_2.
Qed.

(** C6: called with one argument that names an existing, readable file
    whose suffix is not [.py], the script checks that the path exists,
    prints the wrong-type message and exits with status 1; it sends no
    request. Called with any other number of arguments, it prints the usage
    message and exits with status 1, before any file access or request. *)
Theorem main_rejects_before_request :
  (∀ prog filepath f,
     files w !! filepath = Some (NFile f) → readable f = true →
     path_suffix filepath ≠ ".py" →
     ∃ t, run w [prog; filepath] = (t, 1)
       ∧ t = [EExists filepath;
              EPrint ("Error: Expected a .py file, got '" +:+ path_suffix filepath +:+ "'")]
       ∧ Forall (λ e, is_request e = false) t)
  ∧ (∀ argv, length argv ≠ 2%nat →
     ∃ t, run w argv = (t, 1)
       ∧ t = [EPrint "Usage: python review.py <path_to_file.py>"]
       ∧ Forall (λ e, is_request e = false ∧ is_file_access e = false) t).
Proof.
  split.
  - intros prog filepath f Hf Hr Hsuf. eexists. split; [|split; [reflexivity|]].
    + unfold run, main. rewrite bool_decide_eq_false_2 by (simpl; lia).
      simpl. unfold mbind at 1, M_bind at 1.
      rewrite read_source_file_wrong_type; [done| |done].
      unfold exists_. by rewrite Hf.
    + by repeat constructor.
  - intros argv Hlen. eexists. split; [|split; [reflexivity|]].
    + unfold run, main. by rewrite bool_decide_eq_true_2.
    + by repeat constructor.
Qed.

End facts.

(** *** The statements above in a concrete environment *)

Lemma read_source_file_check_order_witness :
  read_source_file example_env "nothere.txt" []
  = (Raise (SystemExit 1),
     [EExists "nothere.txt";
      EPrint ("Error: File not found " +:+ EM_DASH +:+ " 'nothere.txt'")])
  ∧ read_source_file example_env "notes.txt" []
  = (Raise (SystemExit 1),
     [EExists "notes.txt"; EPrint "Error: Expected a .py file, got '.txt'"])
  ∧ read_source_file example_env "blank.py" []
  = (Raise (SystemExit 1),
     [EExists "blank.py"; EReadText "blank.py"; EPrint "Error: The file is empty."]).
Proof.
  destruct (read_source_file_check_order example_env) as (Hnf & Hwt & Hem & _).
  split; [|split].
  - apply (Hnf "nothere.txt" []). reflexivity.
  - apply (Hwt "notes.txt" []); [reflexivity|]. vm_compute. discriminate.
  - apply (Hem "blank.py" [] (mkFile true true (Text ("  " +:+ NL +:+ "   ")))
               ("  " +:+ NL +:+ "   ")); reflexivity.
Defined.

Lemma read_source_file_verbatim_witness :
  read_source_file example_env "ok.py" []
  = (Ok ("  x = 1" +:+ NL), [EExists "ok.py"; EReadText "ok.py"])
  ∧ strip ("  x = 1" +:+ NL) = "x = 1".
Proof.
  split; [|reflexivity].
  apply (proj2 (read_source_file_verbatim example_env "ok.py" [])
           (mkFile true true (Text ("  x = 1" +:+ NL)))); try reflexivity.
  vm_compute. discriminate.
Defined.

Lemma main_rejects_before_request_witness :
  (∃ t, run example_env ["review.py"; "notes.txt"] = (t, 1)
     ∧ t = [EExists "notes.txt"; EPrint "Error: Expected a .py file, got '.txt'"]
     ∧ Forall (λ e, is_request e = false) t)
  ∧ (∃ t, run example_env ["review.py"] = (t, 1)
     ∧ t = [EPrint "Usage: python review.py <path_to_file.py>"]
     ∧ Forall (λ e, is_request e = false ∧ is_file_access e = false) t).
Proof.
  destruct (main_rejects_before_request example_env) as [Hwrong Husage].
  split.
  - apply (Hwrong "review.py" "notes.txt"
             (mkFile true true (Text ("first line" +:+ NL +:+ "second line" +:+ NL))));
      [reflexivity|reflexivity|]. vm_compute. discriminate.
  - apply (Husage ["review.py"]). simpl. lia.
Defined.

End ReviewerFacts.

(** * More properties of data_parser.py *)
Module DataParserMore.
Import Py Os Json DataParser DataParserFacts.

Lemma for_fold_app {S A B} (l1 l2 : list A) (acc : B) (body : B → A → M S B) (st : S) :
  for_fold (l1 ++ l2) acc body st
  = (for_fold l1 acc body ≫= λ acc', for_fold l2 acc' body) st.
Proof.
  revert acc st. induction l1 as [|x l1 IH]; intros acc st; simpl.
  - reflexivity.
  - unfold mbind, M_bind in *. destruct (body acc x st) as [[acc'|e] st1]; [|done].
    apply IH.
Qed.

Section more.
Context `{CsvLib}.

(** X1: when the file cannot be opened, [read_csv] raises the error of
    [open] (no such file, a directory, no permission) and changes nothing:
    no file object is made and no record. *)
Theorem read_csv_cannot_open path st :
  (files st !! path = None ∨ files st !! path = Some NNoDir →
     read_csv path st = (Raise (FileNotFoundError path), st))
  ∧ (files st !! path = Some NDir →
     read_csv path st = (Raise (IsADirectoryError path), st))
  ∧ (∀ fl, files st !! path = Some (NFile fl) → readable fl = false →
     read_csv path st = (Raise (PermissionError path), st)).
Proof.
  split; [|split].
  - intros Hf. unfold read_csv.
    assert (Ho : py_open path ModeR st = (Raise (FileNotFoundError path), st)).
    { unfold py_open. by destruct Hf as [->| ->]. }
    by rewrite (bind_raise _ _ _ _ _ Ho).
  - intros Hf. unfold read_csv.
    assert (Ho : py_open path ModeR st = (Raise (IsADirectoryError path), st)).
    { unfold py_open. by rewrite Hf. }
    by rewrite (bind_raise _ _ _ _ _ Ho).
  - intros fl Hf Hr. unfold read_csv.
    assert (Ho : py_open path ModeR st = (Raise (PermissionError path), st)).
    { unfold py_open. by rewrite Hf, Hr. }
    by rewrite (bind_raise _ _ _ _ _ Ho).
Qed.

(** X2: on a readable text file whose rows the reader delivers,
    [read_csv] returns one new record per row, in row order, after the
    records that were there; it changes no file and leaves no file object
    open. *)
Theorem read_csv_rows path st fl text rows :
  files st !! path = Some (NFile fl) → readable fl = true → data fl = Text text →
  DictReader text = Ok rows →
  ∃ st', read_csv path st = (Ok (seq (length (heap st)) (length rows)), st')
    ∧ heap st' = heap st ++ rows
    ∧ files st' = files st
    ∧ leak_free st st'.
Proof.
  intros Hf Hr Hd Hrows.
  pose proof (read_csv_handle_fate path st) as Hfate.
  assert (Hopen : py_open path ModeR st
    = (Ok (length (handles st)),
       set_handles (handles st ++ [mkHandle path ModeR true]) st)).
  { unfold py_open. by rewrite Hf, Hr. }
  rewrite Hopen in Hfate.
  rewrite (reader_rows_ok _ _ path ModeR fl text rows) in Hfate; try done.
  - destruct Hfate as (st3 & Hrun & Hleak & Hheap & Hfiles). by exists st3.
  - simpl. rewrite lookup_app_r by done. by rewrite Nat.sub_diag.
Qed.

(** A record that [int] accepts is still accepted after a turn of the
    loop of [normalize_age]. *)
Lemma age_error_step st r d v z l :
  heap st !! r = Some d → d !! "age" = Some v → py_int v = Ok z →
  age_error st l = None →
  age_error (set_heap (<[r := <["age" := VInt z]> d]> (heap st)) st) l = None.
Proof.
  intros Hd Hv Hz Hl. unfold age_error in *. simpl.
  destruct (decide (l = r)) as [->|Hne].
  - rewrite list_lookup_insert_eq by (by eapply lookup_lt_Some).
    by rewrite lookup_insert_eq.
  - by rewrite list_lookup_insert_ne.
Qed.

Lemma converted_from_age_error st st' l :
  converted_from st st' l → age_error st l = None.
Proof.
  intros (d & v & z & Hd & Hv & Hz & _). unfold age_error. by rewrite Hd, Hv, Hz.
Qed.

Lemma converted_from_numeric st st' l :
  converted_from st st' l → numeric_age st' l.
Proof.
  intros (d & v & z & _ & _ & _ & Hd'). eexists _, z. split; [done|].
  by rewrite lookup_insert_eq.
Qed.

Lemma for_each_normalize_total st records :
  Forall (λ l, age_error st l = None) records →
  ∃ st', for_each records normalize_step st = (Ok (), st').
Proof.
  revert st. induction records as [|r records IH]; intros st Hall; simpl.
  { by eexists. }
  inversion Hall as [|? ? Hr Hrest]; subst.
  destruct (normalize_step_ok _ _ Hr) as (d & v & z & Hd & Hv & Hz & Hstep).
  rewrite (bind_ok _ _ _ _ _ Hstep). apply IH.
  eapply Forall_impl; [exact Hrest|]. intros l Hl. by eapply age_error_step.
Qed.

(** X3: [normalize_age] returns exactly when [int] accepts the age of
    every record of the list, as the records are before the call: one
    record whose age is missing, [None] or not an integer literal makes the
    call raise. *)
Theorem normalize_age_returns_iff st records :
  (∃ st', normalize_age records st = (Ok records, st'))
  ↔ Forall (λ l, age_error st l = None) records.
Proof.
  rewrite normalize_age_unfold. split.
  - intros [st' Hrun]. unfold mbind, M_bind in Hrun.
    pose proof (for_each_normalize st records) as Hloop.
    destruct (for_each records normalize_step st) as [[[]|e] st1]; [|discriminate].
    destruct Hloop as (Hconv & _).
    eapply Forall_impl; [exact Hconv|]. intros l. apply converted_from_age_error.
  - intros Hall. destruct (for_each_normalize_total _ _ Hall) as [st' Hrun].
    exists st'. by rewrite (bind_ok _ _ _ _ _ Hrun).
Qed.

(** X4: whatever the records hold, once [normalize_age] has returned, a
    second call on its result returns the same list and changes nothing. *)
Theorem normalize_age_twice st records out st' :
  normalize_age records st = (Ok out, st') →
  normalize_age out st' = (Ok out, st').
Proof.
  rewrite normalize_age_unfold. unfold mbind at 1, M_bind at 1.
  pose proof (for_each_normalize st records) as Hloop.
  destruct (for_each records normalize_step st) as [[[]|e] st1]; [|discriminate].
  intros [= <- <-]. destruct Hloop as (Hconv & _).
  assert (Hnum : Forall (numeric_age st1) records).
  { eapply Forall_impl; [exact Hconv|]. intros l. apply converted_from_numeric. }
  rewrite normalize_age_unfold.
  by rewrite (bind_ok _ _ _ _ _ (for_each_normalize_numeric st1 records Hnum)).
Qed.

(** X5: whether it returns or raises, [normalize_age] touches nothing but
    the field [age] of records: the files and the file objects are as
    before, no record appears or disappears, and every other field of every
    record keeps its value. *)
Theorem normalize_age_frame st records r st' :
  normalize_age records st = (r, st') →
  files st' = files st ∧ handles st' = handles st
  ∧ (∀ l, heap st !! l = None → heap st' !! l = None)
  ∧ (∀ l d, heap st !! l = Some d →
       ∃ d', heap st' !! l = Some d' ∧ ∀ k, k ≠ "age" → d' !! k = d !! k).
Proof.
  rewrite normalize_age_unfold. unfold mbind, M_bind.
  pose proof (for_each_normalize st records) as Hloop.
  assert (Hframe : ∀ done,
    Forall (converted_from st st') done →
    (∀ l, l ∉ done → heap st' !! l = heap st !! l) →
    (∀ l, heap st !! l = None → heap st' !! l = None)
    ∧ (∀ l d, heap st !! l = Some d →
         ∃ d', heap st' !! l = Some d' ∧ ∀ k, k ≠ "age" → d' !! k = d !! k)).
  { intros done Hconv Hout. split.
    - intros l Hl. destruct (decide (l ∈ done)) as [Hin|Hnin].
      + destruct (proj1 (Forall_forall _ _) Hconv l Hin) as (d & ? & ? & Hd & _).
        congruence.
      + by rewrite Hout.
    - intros l d Hl. destruct (decide (l ∈ done)) as [Hin|Hnin].
      + destruct (proj1 (Forall_forall _ _) Hconv l Hin)
          as (d0 & v & z & Hd & _ & _ & Hd').
        simplify_eq. eexists. split; [done|]. intros k Hk.
        by rewrite lookup_insert_ne.
      + exists d. by rewrite Hout. }
  destruct (for_each records normalize_step st) as [[[]|e] st1].
  - intros [= <- <-]. destruct Hloop as (Hconv & Hout & Hf & Hh).
    split; [done|]. split; [done|]. by apply (Hframe records).
  - intros [= <- <-]. destruct Hloop as (done & r' & rest & _ & Hconv & Hout & _ & Hf & Hh).
    split; [done|]. split; [done|]. by apply (Hframe done).
Qed.

(** X6: when a record has no field [country], [filter_by_country] raises
    [KeyError] at the first such record, whatever the records after it
    hold, and changes nothing. *)
Theorem filter_by_country_missing_key st pre r d post country :
  Forall (has_country st) pre →
  heap st !! r = Some d → d !! "country" = None →
  filter_by_country (pre ++ r :: post) country st = (Raise (KeyError "country"), st).
Proof.
  intros Hpre Hd Hc. unfold filter_by_country.
  unfold mbind at 1, M_bind at 1. rewrite for_fold_app.
  rewrite (bind_ok _ _ _ _ _ (filter_loop st country pre [] Hpre)). simpl.
  unfold mbind, M_bind, getitem. by rewrite Hd, Hc.
Qed.

Lemma has_country_filter st country records :
  Forall (has_country st) records →
  Forall (has_country st) (filter (country_is st country) records).
Proof.
  intros Hall. apply Forall_forall. intros l Hl.
  apply list_elem_of_filter in Hl as [_ Hl].
  by apply (proj1 (Forall_forall _ _) Hall).
Qed.

Lemma filter_by_country_run st country records :
  Forall (has_country st) records →
  filter_by_country records country st
  = (Ok (filter (country_is st country) records), st).
Proof.
  intros Hall. unfold filter_by_country.
  by rewrite (bind_ok _ _ _ _ _ (filter_loop st country records [] Hall)).
Qed.

(** X7: filtering the result of [filter_by_country] once more by the same
    country returns it unchanged. *)
Theorem filter_by_country_twice st records country :
  Forall (has_country st) records →
  (filter_by_country records country ≫= λ out, filter_by_country out country) st
  = filter_by_country records country st.
Proof.
  intros Hall.
  rewrite (bind_ok _ _ _ _ _ (filter_by_country_run st country records Hall)).
  rewrite filter_by_country_run by (by apply has_country_filter).
  rewrite (filter_by_country_run st country records Hall).
  do 2 f_equal. rewrite list_filter_filter.
  apply list_filter_iff. tauto.
Qed.

(** X8: when no record has the target country, [filter_by_country]
    returns the empty list, which is no error, and [get_average_age] of
    that result raises [ZeroDivisionError]. *)
Theorem average_of_no_match st records country :
  Forall (has_country st) records →
  Forall (λ l, ¬ country_is st country l) records →
  filter_by_country records country st = (Ok [], st)
  ∧ (filter_by_country records country ≫= get_average_age) st
    = (Raise ZeroDivisionError, st).
Proof.
  intros Hall Hnone.
  assert (Hempty : filter (country_is st country) records = []).
  { clear Hall. induction Hnone as [|l ls Hl _ IH]; [done|].
    by rewrite filter_cons_False. }
  assert (Hrun : filter_by_country records country st = (Ok [], st)).
  { rewrite filter_by_country_run by done. by rewrite Hempty. }
  split; [done|]. by rewrite (bind_ok _ _ _ _ _ Hrun).
Qed.

(** X9: [get_average_age] needs integer ages: at the first record whose
    age is text or [None] it raises [TypeError], and at the first record
    without the field it raises [KeyError]; in both cases nothing has
    changed. Ages read from a file are text until [normalize_age] has
    run. *)
Theorem get_average_age_not_numeric st pre r d post :
  Forall (numeric_age st) pre → heap st !! r = Some d →
  (d !! "age" = None →
     get_average_age (pre ++ r :: post) st = (Raise (KeyError "age"), st))
  ∧ (∀ v, d !! "age" = Some v → (∀ z, v ≠ VInt z) →
     get_average_age (pre ++ r :: post) st = (Raise TypeError, st)).
Proof.
  intros Hpre Hd.
  assert (Hsum := sum_loop st pre 0 Hpre).
  split.
  - intros Hage. unfold get_average_age.
    unfold mbind at 1, M_bind at 1. rewrite for_fold_app.
    rewrite (bind_ok _ _ _ _ _ Hsum). simpl.
    unfold mbind, M_bind, getitem. by rewrite Hd, Hage.
  - intros v Hage Hv. unfold get_average_age.
    unfold mbind at 1, M_bind at 1. rewrite for_fold_app.
    rewrite (bind_ok _ _ _ _ _ Hsum). simpl.
    unfold mbind, M_bind, getitem, lift. rewrite Hd, Hage.
    destruct v as [|z|t]; [done| |done]. by destruct (Hv z).
Qed.

Lemma sum_ages_bounds st records lo hi :
  Forall (λ l, lo ≤ age_of st l ≤ hi) records →
  lo * Z.of_nat (length records) ≤ sum_ages st records ≤ hi * Z.of_nat (length records).
Proof.
  unfold sum_ages. induction 1 as [|l ls Hl _ IH].
  - simpl. lia.
  - rewrite fmap_cons. cbn [foldr length].
    rewrite Nat2Z.inj_succ, !Z.mul_succ_r. lia.
Qed.

(** X10: when every age lies between two integers of at most 2^53 in
    magnitude, [get_average_age] returns, and the number it returns lies
    between the two: such bounds are binary64 numbers themselves, so
    rounding the mean does not carry it past them. *)
Theorem get_average_age_between st records lo hi :
  records ≠ [] → Forall (numeric_age st) records →
  Forall (λ l, lo ≤ age_of st l ≤ hi) records →
  - 2 ^ 53 ≤ lo → hi ≤ 2 ^ 53 →
  ∃ f, get_average_age records st = (Ok f, st)
    ∧ (inject_Z lo <= float_value f)%Q ∧ (float_value f <= inject_Z hi)%Q.
Proof.
  intros Hne Hall Hbounds Hlo Hhi.
  pose proof (sum_ages_bounds st records lo hi Hbounds) as Hsum.
  assert (Hcount : 0 < Z.of_nat (length records)).
  { destruct records; [done|]. simpl. lia. }
  destruct (FloatFacts.int_truediv_between _ _ lo hi Hcount Hlo Hhi Hsum)
    as (f & Hf & Hge & Hle).
  exists f. split; [|done].
  by rewrite (get_average_age_division st records Hall), Hf.
Qed.

Lemma sum_ages_permutation st (l1 l2 : list loc) :
  l1 ≡ₚ l2 → sum_ages st l1 = sum_ages st l2.
Proof.
  unfold sum_ages. induction 1; rewrite ?fmap_cons; cbn [foldr]; lia.
Qed.

(** X11: the average does not depend on the order of the records. *)
Theorem get_average_age_permutation st (records records' : list loc) :
  records ≡ₚ records' → Forall (numeric_age st) records →
  get_average_age records' st = get_average_age records st.
Proof.
  intros Hperm Hall.
  assert (Hall' : Forall (numeric_age st) records') by (by rewrite <- Hperm).
  destruct records as [|l ls].
  - apply Permutation_nil_l in Hperm. by subst.
  - rewrite !get_average_age_division by done.
    rewrite (sum_ages_permutation st _ _ Hperm).
    by rewrite (Permutation_length Hperm).
Qed.

(** X12: when [save_to_json] returns, the file at the path holds the
    JSON text of the records and nothing of what it held before; no other
    path has changed, the records are as they were, and the file object
    the function opened is closed. *)
Theorem save_to_json_overwrites st records output_path st' :
  save_to_json records output_path st = (Ok (), st') →
  ∃ dicts, records_at st records = Some dicts
    ∧ file_text st' output_path = Some (dumps_records dicts)
    ∧ (∀ p, p ≠ output_path → files st' !! p = files st !! p)
    ∧ heap st' = heap st
    ∧ leak_free st st'.
Proof.
  unfold save_to_json, json_dump.
  pose proof (py_open_write output_path st) as Hopen.
  destruct (py_open output_path ModeW st) as [[f|e] st1] eqn:Ho.
  2:{ rewrite (bind_raise _ _ _ _ _ Ho). discriminate. }
  destruct Hopen as (-> & Hh & Hheap & r & Hfiles).
  rewrite (bind_ok _ _ _ _ _ Ho).
  pose proof (for_fold_getobj records [] st1) as Hfold.
  assert (Hrec : records_at st1 records = records_at st records).
  { unfold records_at. by rewrite Hheap. }
  rewrite Hrec in *.
  destruct (records_at st records) as [dicts|] eqn:Hdicts.
  2:{ destruct Hfold as [e He].
      unfold mbind at 1, M_bind at 1. rewrite (bind_raise _ _ _ _ _ He). discriminate. }
  simpl in Hfold. unfold mbind at 1, M_bind at 1.
  rewrite (bind_ok _ _ _ _ _ Hfold).
  unfold py_write. rewrite Hh. rewrite lookup_app_r by done.
  rewrite Nat.sub_diag. simpl. rewrite Hfiles, lookup_insert_eq. simpl.
  unfold py_close. simpl. rewrite Hh. rewrite lookup_app_r by done.
  rewrite Nat.sub_diag. simpl. intros [= <-].
  exists dicts. split; [done|]. split; [|split; [|split; [done|]]].
  - unfold file_text. simpl. by rewrite lookup_insert_eq.
  - intros p Hp. simpl. by rewrite !lookup_insert_ne.
  - intros h. unfold is_open. simpl.
    destruct (decide (h = length (handles st))) as [->|Hne].
    + rewrite list_lookup_insert_eq; [done|]. rewrite length_app. simpl. lia.
    + rewrite list_lookup_insert_ne by done.
      destruct (decide (h < length (handles st))%nat) as [Hlt|Hge].
      * by rewrite lookup_app_l.
      * rewrite lookup_ge_None_2; [done|]. rewrite length_app. simpl. lia.
Qed.

(** X13: when the path cannot be opened for writing (it names a
    directory, lies in a directory that does not exist, or names a file
    that may not be written), [save_to_json] raises the error of [open]
    and changes nothing: the file keeps its text. *)
Theorem save_to_json_cannot_open st records output_path :
  (files st !! output_path = Some NDir →
     save_to_json records output_path st = (Raise (IsADirectoryError output_path), st))
  ∧ (files st !! output_path = Some NNoDir →
     save_to_json records output_path st = (Raise (FileNotFoundError output_path), st))
  ∧ (∀ fl, files st !! output_path = Some (NFile fl) → writable fl = false →
     save_to_json records output_path st = (Raise (PermissionError output_path), st)).
Proof.
  split; [|split].
  - intros Hf. unfold save_to_json.
    assert (Ho : py_open output_path ModeW st
                 = (Raise (IsADirectoryError output_path), st)).
    { unfold py_open. by rewrite Hf. }
    by rewrite (bind_raise _ _ _ _ _ Ho).
  - intros Hf. unfold save_to_json.
    assert (Ho : py_open output_path ModeW st
                 = (Raise (FileNotFoundError output_path), st)).
    { unfold py_open. by rewrite Hf. }
    by rewrite (bind_raise _ _ _ _ _ Ho).
  - intros fl Hf Hw. unfold save_to_json.
    assert (Ho : py_open output_path ModeW st
                 = (Raise (PermissionError output_path), st)).
    { unfold py_open. by rewrite Hf, Hw. }
    by rewrite (bind_raise _ _ _ _ _ Ho).
Qed.

(** What [filter_by_country] has done when it returns. *)
Lemma filter_loop_inv st country records acc out st' :
  for_fold records acc (λ filtered record,
    c ← getitem record "country";
    if py_eq c country then mret (filtered ++ [record]) else mret filtered) st
  = (Ok out, st') →
  st' = st ∧ out = acc ++ filter (country_is st country) records
  ∧ Forall (has_country st) records.
Proof.
  revert acc. induction records as [|l records IH]; intros acc; simpl.
  { intros [= <- <-]. by rewrite app_nil_r. }
  unfold mbind at 1, M_bind at 1. unfold mbind at 1, M_bind at 1.
  unfold getitem at 1.
  destruct (heap st !! l) as [d|] eqn:Hd; [|discriminate].
  destruct (d !! "country") as [c|] eqn:Hc; [|discriminate].
  unfold py_eq. destruct (decide (c = country)) as [->|Hne].
  - rewrite bool_decide_eq_true_2 by done. simpl. intros Hrun.
    destruct (IH _ Hrun) as (-> & -> & Hall). split; [done|]. split.
    + rewrite filter_cons_True by (by exists d). by rewrite <- app_assoc.
    + constructor; [|done]. exists d. split; [done|]. by eexists.
  - rewrite bool_decide_eq_false_2 by done. simpl. intros Hrun.
    destruct (IH _ Hrun) as (-> & -> & Hall). split; [done|]. split.
    + rewrite filter_cons_False; [done|]. intros (d' & Hd' & Hc'). congruence.
    + constructor; [|done]. exists d. split; [done|]. by eexists.
Qed.

(** X14: when the file cannot be opened, [load_and_process] raises the
    error of [open] and changes nothing; the later stages do not run. *)
Theorem load_and_process_cannot_open path country st :
  (files st !! path = None ∨ files st !! path = Some NNoDir →
     load_and_process path country st = (Raise (FileNotFoundError path), st))
  ∧ (files st !! path = Some NDir →
     load_and_process path country st = (Raise (IsADirectoryError path), st))
  ∧ (∀ fl, files st !! path = Some (NFile fl) → readable fl = false →
     load_and_process path country st = (Raise (PermissionError path), st)).
Proof.
  unfold load_and_process. split; [|split].
  - intros Hf.
    assert (Ho : py_open path ModeR st = (Raise (FileNotFoundError path), st)).
    { unfold py_open. by destruct Hf as [->| ->]. }
    assert (Hr : read_csv path st = (Raise (FileNotFoundError path), st)).
    { unfold read_csv. by rewrite (bind_raise _ _ _ _ _ Ho). }
    by rewrite (bind_raise _ _ _ _ _ Hr).
  - intros Hf.
    assert (Ho : py_open path ModeR st = (Raise (IsADirectoryError path), st)).
    { unfold py_open. by rewrite Hf. }
    assert (Hr : read_csv path st = (Raise (IsADirectoryError path), st)).
    { unfold read_csv. by rewrite (bind_raise _ _ _ _ _ Ho). }
    by rewrite (bind_raise _ _ _ _ _ Hr).
  - intros fl Hf Hread.
    assert (Ho : py_open path ModeR st = (Raise (PermissionError path), st)).
    { unfold py_open. by rewrite Hf, Hread. }
    assert (Hr : read_csv path st = (Raise (PermissionError path), st)).
    { unfold read_csv. by rewrite (bind_raise _ _ _ _ _ Ho). }
    by rewrite (bind_raise _ _ _ _ _ Hr).
Qed.

(** X15: whatever the file holds, when [load_and_process] returns, every
    record of its result holds an integer age and the target country and
    no file object is left open. So [get_average_age] of a result that is
    not empty meets no missing field, no text and no empty list: it
    divides the sum of the ages by their number, and either returns or
    raises [OverflowError]. *)
Theorem load_and_process_result path country st out st' :
  load_and_process path country st = (Ok out, st') →
  Forall (numeric_age st') out
  ∧ Forall (country_is st' country) out
  ∧ leak_free st st'
  ∧ (out ≠ [] →
     get_average_age out st'
     = (int_truediv (sum_ages st' out) (Z.of_nat (length out)), st')
     ∧ (get_average_age out st' = (Raise OverflowError, st')
        ∨ ∃ f, get_average_age out st' = (Ok f, st'))).
Proof.
  unfold load_and_process. unfold mbind at 1, M_bind at 1.
  pose proof (read_csv_handle_fate path st) as Hfate.
  destruct (read_csv path st) as [[r|e] st1] eqn:Hread; [|discriminate].
  assert (Hleak1 : leak_free st st1).
  { destruct (py_open path ModeR st) as [[f|e] st0]; [|discriminate].
    destruct (reader_rows f st0) as [[rows|e] st2].
    - destruct Hfate as (st3 & [= <- <-] & Hleak & _). done.
    - by destruct Hfate as [[=] _]. }
  unfold mbind at 1, M_bind at 1.
  pose proof (for_each_normalize st1 r) as Hloop.
  rewrite normalize_age_unfold. unfold mbind at 1, M_bind at 1.
  destruct (for_each r normalize_step st1) as [[[]|e] st2]; [|discriminate].
  destruct Hloop as (Hconv & _ & _ & Hh2). simpl.
  unfold filter_by_country. unfold mbind at 1 2, M_bind at 1 2.
  destruct (for_fold r [] _ st2) as [[out'|e] st3] eqn:Hfold; [|discriminate].
  simpl. intros [= <- <-].
  destruct (filter_loop_inv _ _ _ _ _ _ Hfold) as (-> & -> & Hcountry).
  simpl.
  assert (Hnum : Forall (numeric_age st2) (filter (country_is st2 country) r)).
  { apply Forall_forall. intros l Hl. apply list_elem_of_filter in Hl as [_ Hl].
    apply converted_from_numeric with st1.
    by apply (proj1 (Forall_forall _ _) Hconv). }
  split; [done|]. split; [|split].
  - apply Forall_forall. intros l Hl. by apply list_elem_of_filter in Hl as [Hl _].
  - intros h Hopen. apply Hleak1. unfold is_open in *. by rewrite <- Hh2.
  - intros Hne. rewrite (get_average_age_division _ _ Hnum).
    split; [done|].
    assert (Hcount : Z.of_nat (length (filter (country_is st2 country) r)) ≠ 0).
    { destruct (filter (country_is st2 country) r); [done|]. simpl. lia. }
    destruct (FloatFacts.int_truediv_overflow (sum_ages st2 (filter (country_is st2 country) r))
                _ Hcount) as [_ [->|[f ->]]]; [by left|right; by exists f].
Qed.

End more.

(** *** The statements above at concrete states *)

Lemma read_csv_cannot_open_witness :
  @read_csv plain_csv "nothere.csv" st_partial
  = (Raise (FileNotFoundError "nothere.csv"), st_partial)
  ∧ @read_csv plain_csv "data" st_partial = (Raise (IsADirectoryError "data"), st_partial)
  ∧ @read_csv plain_csv "locked.csv" st_partial
    = (Raise (PermissionError "locked.csv"), st_partial).
Proof.
  split; [|split].
  - apply (proj1 (@read_csv_cannot_open plain_csv "nothere.csv" st_partial)).
    left. reflexivity.
  - apply (proj1 (proj2 (@read_csv_cannot_open plain_csv "data" st_partial))).
    reflexivity.
  - apply (proj2 (proj2 (@read_csv_cannot_open plain_csv "locked.csv" st_partial))
             (mkFile false false (Text users_csv))); reflexivity.
Defined.

Lemma read_csv_rows_witness :
  ∃ st', @read_csv plain_csv "users.csv" st_users = (Ok [0; 1]%nat, st')
    ∧ heap st' = [row (VStr "A") (VStr "30") (VStr "Kenya");
                  row (VStr "B") (VStr "40") (VStr "Uganda")]
    ∧ files st' = files st_users
    ∧ leak_free st_users st'.
Proof.
  apply (@read_csv_rows plain_csv "users.csv" st_users
           (mkFile true true (Text users_csv)) users_csv
           [row (VStr "A") (VStr "30") (VStr "Kenya");
            row (VStr "B") (VStr "40") (VStr "Uganda")]); reflexivity.
Defined.

Lemma normalize_age_returns_iff_witness :
  Forall (λ l, age_error st_text l = None) [0; 1]%nat
  ∧ (∃ st', normalize_age [0; 1]%nat st_text = (Ok [0; 1]%nat, st'))
  ∧ ¬ Forall (λ l, age_error st_mixed l = None) [0; 1]%nat
  ∧ ¬ ∃ st', normalize_age [0; 1]%nat st_mixed = (Ok [0; 1]%nat, st').
Proof.
  assert (Hages : Forall (λ l, age_error st_text l = None) [0; 1]%nat).
  { repeat constructor. }
  assert (Hmixed : ¬ Forall (λ l, age_error st_mixed l = None) [0; 1]%nat).
  { intros Hall. inversion Hall as [|? ? _ Hrest]. inversion Hrest as [|? ? Hx _].
    vm_compute in Hx. discriminate. }
  split; [exact Hages|]. split; [|split; [exact Hmixed|]].
  - exact (proj2 (normalize_age_returns_iff st_text [0; 1]%nat) Hages).
  - intros Hret. apply Hmixed.
    exact (proj1 (normalize_age_returns_iff st_mixed [0; 1]%nat) Hret).
Defined.

Lemma normalize_age_twice_witness :
  normalize_age [0; 1]%nat st_text = (Ok [0; 1]%nat, st_numeric)
  ∧ normalize_age [0; 1]%nat st_numeric = (Ok [0; 1]%nat, st_numeric).
Proof.
  assert (Hrun : normalize_age [0; 1]%nat st_text = (Ok [0; 1]%nat, st_numeric)).
  { vm_compute. reflexivity. }
  split; [exact Hrun|].
  exact (normalize_age_twice st_text [0; 1]%nat [0; 1]%nat st_numeric Hrun).
Defined.

Lemma normalize_age_frame_witness :
  normalize_age [0; 1]%nat st_mixed = (Raise ValueError, st_mixed_after)
  ∧ files st_mixed_after = files st_mixed ∧ handles st_mixed_after = handles st_mixed
  ∧ (∀ l, heap st_mixed !! l = None → heap st_mixed_after !! l = None)
  ∧ (∀ l d, heap st_mixed !! l = Some d →
       ∃ d', heap st_mixed_after !! l = Some d' ∧ ∀ k, k ≠ "age" → d' !! k = d !! k).
Proof.
  assert (Hrun : normalize_age [0; 1]%nat st_mixed = (Raise ValueError, st_mixed_after)).
  { vm_compute. reflexivity. }
  split; [exact Hrun|].
  exact (normalize_age_frame st_mixed [0; 1]%nat (Raise ValueError) st_mixed_after Hrun).
Defined.

Lemma st_partial_first_country : Forall (has_country st_partial) [0%nat].
Proof.
  repeat constructor.
  exists (row (VStr "A") (VInt 30) (VStr "Kenya")). split; [done|]. by eexists.
Defined.

Lemma st_partial_first_age : Forall (numeric_age st_partial) [0%nat].
Proof.
  repeat constructor.
  exists (row (VStr "A") (VInt 30) (VStr "Kenya")), 30. split; reflexivity.
Defined.

Lemma filter_by_country_missing_key_witness :
  Forall (has_country st_partial) [0%nat]
  ∧ filter_by_country [0; 1]%nat (VStr "Kenya") st_partial
    = (Raise (KeyError "country"), st_partial).
Proof.
  split; [exact st_partial_first_country|].
  exact (filter_by_country_missing_key st_partial [0%nat] 1%nat (<["name" := VStr "B"]> ∅)
           [] (VStr "Kenya") st_partial_first_country eq_refl eq_refl).
Defined.

Lemma filter_by_country_twice_witness :
  Forall (has_country st_numeric) [0; 1]%nat
  ∧ (filter_by_country [0; 1]%nat (VStr "Kenya")
       ≫= λ out, filter_by_country out (VStr "Kenya")) st_numeric
    = filter_by_country [0; 1]%nat (VStr "Kenya") st_numeric
  ∧ filter_by_country [0; 1]%nat (VStr "Kenya") st_numeric = (Ok [0%nat], st_numeric).
Proof.
  split; [exact st_numeric_countries|]. split; [|reflexivity].
  exact (filter_by_country_twice st_numeric [0; 1]%nat (VStr "Kenya")
           st_numeric_countries).
Defined.

Lemma st_numeric_not_ghana :
  Forall (λ l, ¬ country_is st_numeric (VStr "Ghana") l) [0; 1]%nat.
Proof.
  repeat constructor; intros (d & Hd & Hc); simpl in Hd; injection Hd as <-;
    vm_compute in Hc; discriminate.
Defined.

Lemma average_of_no_match_witness :
  Forall (has_country st_numeric) [0; 1]%nat
  ∧ Forall (λ l, ¬ country_is st_numeric (VStr "Ghana") l) [0; 1]%nat
  ∧ filter_by_country [0; 1]%nat (VStr "Ghana") st_numeric = (Ok [], st_numeric)
  ∧ (filter_by_country [0; 1]%nat (VStr "Ghana") ≫= get_average_age) st_numeric
    = (Raise ZeroDivisionError, st_numeric).
Proof.
  split; [exact st_numeric_countries|]. split; [exact st_numeric_not_ghana|].
  exact (average_of_no_match st_numeric [0; 1]%nat (VStr "Ghana")
           st_numeric_countries st_numeric_not_ghana).
Defined.

Lemma get_average_age_not_numeric_witness :
  get_average_age [0; 1]%nat st_partial = (Raise (KeyError "age"), st_partial)
  ∧ get_average_age [0; 1]%nat st_text = (Raise TypeError, st_text).
Proof.
  split.
  - apply (proj1 (get_average_age_not_numeric st_partial [0%nat] 1%nat
                    (<["name" := VStr "B"]> ∅) [] st_partial_first_age eq_refl)).
    reflexivity.
  - apply (proj2 (get_average_age_not_numeric st_text [] 0%nat
                    (row (VStr "A") (VStr "30") (VStr "Kenya")) [1%nat]
                    (Forall_nil_2 _) eq_refl) (VStr "30")).
    + reflexivity.
    + discriminate.
Defined.

Lemma get_average_age_between_witness :
  ∃ f, get_average_age [0; 1]%nat st_numeric = (Ok f, st_numeric)
    ∧ (inject_Z 30 <= float_value f)%Q ∧ (float_value f <= inject_Z 40)%Q.
Proof.
  apply (get_average_age_between st_numeric [0; 1]%nat 30 40).
  - discriminate.
  - exact st_numeric_ages.
  - repeat constructor; vm_compute; discriminate.
  - vm_compute. discriminate.
  - vm_compute. discriminate.
Defined.

Lemma get_average_age_permutation_witness :
  get_average_age [1; 0]%nat st_numeric = get_average_age [0; 1]%nat st_numeric.
Proof.
  apply (get_average_age_permutation st_numeric [0; 1]%nat [1; 0]%nat).
  - apply perm_swap.
  - exact st_numeric_ages.
Defined.

Lemma save_to_json_overwrites_witness :
  file_text st_partial "out.json" = Some "old text"
  ∧ ∃ st', save_to_json [0%nat] "out.json" st_partial = (Ok (), st')
    ∧ ∃ dicts, records_at st_partial [0%nat] = Some dicts
      ∧ file_text st' "out.json" = Some (dumps_records dicts)
      ∧ (∀ p, p ≠ "out.json" → files st' !! p = files st_partial !! p)
      ∧ heap st' = heap st_partial
      ∧ leak_free st_partial st'.
Proof.
  split; [reflexivity|].
  set (st' := (save_to_json [0%nat] "out.json" st_partial).2).
  assert (Hrun : save_to_json [0%nat] "out.json" st_partial = (Ok (), st')).
  { vm_compute. reflexivity. }
  exists st'. split; [exact Hrun|].
  exact (save_to_json_overwrites st_partial [0%nat] "out.json" st' Hrun).
Defined.

Lemma save_to_json_cannot_open_witness :
  save_to_json [0%nat] "data" st_partial = (Raise (IsADirectoryError "data"), st_partial)
  ∧ save_to_json [0%nat] "gone/out.json" st_partial
    = (Raise (FileNotFoundError "gone/out.json"), st_partial)
  ∧ save_to_json [0%nat] "locked.csv" st_partial
    = (Raise (PermissionError "locked.csv"), st_partial)
  ∧ file_text st_partial "locked.csv" = Some users_csv.
Proof.
  split; [|split; [|split; [|reflexivity]]].
  - apply (proj1 (save_to_json_cannot_open st_partial [0%nat] "data")). reflexivity.
  - apply (proj1 (proj2 (save_to_json_cannot_open st_partial [0%nat] "gone/out.json"))).
    reflexivity.
  - apply (proj2 (proj2 (save_to_json_cannot_open st_partial [0%nat] "locked.csv"))
             (mkFile false false (Text users_csv))); reflexivity.
Defined.

Lemma load_and_process_cannot_open_witness :
  @load_and_process plain_csv "nothere.csv" (VStr "Kenya") st_partial
  = (Raise (FileNotFoundError "nothere.csv"), st_partial)
  ∧ @load_and_process plain_csv "data" (VStr "Kenya") st_partial
    = (Raise (IsADirectoryError "data"), st_partial)
  ∧ @load_and_process plain_csv "locked.csv" (VStr "Kenya") st_partial
    = (Raise (PermissionError "locked.csv"), st_partial).
Proof.
  split; [|split].
  - apply (proj1 (@load_and_process_cannot_open plain_csv "nothere.csv" (VStr "Kenya")
                    st_partial)).
    left. reflexivity.
  - apply (proj1 (proj2 (@load_and_process_cannot_open plain_csv "data" (VStr "Kenya")
                           st_partial))).
    reflexivity.
  - apply (proj2 (proj2 (@load_and_process_cannot_open plain_csv "locked.csv"
                           (VStr "Kenya") st_partial))
             (mkFile false false (Text users_csv))); reflexivity.
Defined.

Lemma load_and_process_result_witness :
  ∃ st', @load_and_process plain_csv "users.csv" (VStr "Kenya") st_users = (Ok [0%nat], st')
    ∧ Forall (numeric_age st') [0%nat]
    ∧ Forall (country_is st' (VStr "Kenya")) [0%nat]
    ∧ leak_free st_users st'
    ∧ ([0%nat] ≠ [] →
       get_average_age [0%nat] st'
       = (int_truediv (sum_ages st' [0%nat]) (Z.of_nat (length [0%nat])), st')
       ∧ (get_average_age [0%nat] st' = (Raise OverflowError, st')
          ∨ ∃ f, get_average_age [0%nat] st' = (Ok f, st'))).
Proof.
  set (st' := (@load_and_process plain_csv "users.csv" (VStr "Kenya") st_users).2).
  assert (Hrun : @load_and_process plain_csv "users.csv" (VStr "Kenya") st_users
                 = (Ok [0%nat], st')).
  { vm_compute. reflexivity. }
  exists st'. split; [exact Hrun|].
  exact (@load_and_process_result plain_csv "users.csv" (VStr "Kenya") st_users
           [0%nat] st' Hrun).
Defined.

End DataParserMore.

(** * More properties of reviewer.py *)
Module ReviewerMore.
Import Py Os Reviewer ReviewerFacts.

(** A statement that returns hands its result to the rest. *)
Lemma then_ok {S A B} (m : M S A) (f : A → M S B) s a s' :
  m s = (Ok a, s') → (m ≫= f) s = f a s'.
Proof. intros Hm. unfold mbind, M_bind. by rewrite Hm. Qed.

(** A statement that raises ends the run of the rest. *)
Lemma then_raise {S A B} (m : M S A) (f : A → M S B) s e s' :
  m s = (Raise e, s') → (m ≫= f) s = (Raise e, s').
Proof. intros Hm. unfold mbind, M_bind. by rewrite Hm. Qed.

(** Text can be cancelled at the end of two texts as at their start. *)
Lemma append_inj_r (t s1 s2 : string) : s1 +:+ t = s2 +:+ t → s1 = s2.
Proof.
  revert s2. induction s1 as [|c s1 IH]; intros [|c' s2] Heq.
  - done.
  - apply (f_equal String.length) in Heq.
    rewrite !JsonFacts.length_append in Heq. simpl in Heq. lia.
  - apply (f_equal String.length) in Heq.
    rewrite !JsonFacts.length_append in Heq. simpl in Heq. lia.
  - simpl in Heq. injection Heq as -> Heq. f_equal. by apply IH.
Qed.

(** [warn_if_large] and [print_review] only print, and always return. *)
Lemma warn_if_large_trace source t :
  warn_if_large source t = (Ok (), t ++ (warn_if_large source []).2)
  ∧ Forall (λ e, is_request e = false ∧ is_file_access e = false)
           (warn_if_large source []).2.
Proof.
  unfold warn_if_large. destruct (MAX_FILE_CHARS <? _); run_monad.
  - split; [done|]. by repeat constructor.
  - rewrite app_nil_r. split; [done|]. constructor.
Qed.

Lemma print_review_trace review filename t :
  print_review review filename t
  = (Ok (), t ++ (print_review review filename []).2)
  ∧ Forall (λ e, is_request e = false ∧ is_file_access e = false)
           (print_review review filename []).2
  ∧ EPrint review ∈ (print_review review filename []).2.
Proof.
  unfold print_review. generalize (str_repeat "=" 60). intros separator.
  unfold print, emit, modify, mbind, M_bind. cbn [app snd].
  split; [|split].
  - by rewrite <- !app_assoc.
  - by repeat constructor.
  - set_solver.
Qed.

Section more.
Context (w : env).

(** Past the checks of [read_source_file], with the client built. *)
Lemma main_after_read prog filepath f source :
  files w !! filepath = Some (NFile f) → readable f = true → data f = Text source →
  path_suffix filepath = ".py" → strip source ≠ EmptyString →
  main w [prog; filepath] []
  = (warn_if_large source;;
     print ("Reviewing '" +:+ path_name filepath +:+ "' with " +:+ MODEL +:+ "...");;
     review ← run_code_review w source (path_name filepath);
     print_review review (path_name filepath))
      [EExists filepath; EReadText filepath].
Proof.
  intros Hf Hr Hd Hsuf Hne. unfold main.
  rewrite bool_decide_eq_false_2 by (simpl; lia). simpl.
  assert (Hread : read_source_file w filepath []
                  = (Ok source, [EExists filepath; EReadText filepath])).
  { rewrite (read_source_file_read _ _ _ _ _ Hf Hr Hd Hsuf).
    by rewrite bool_decide_eq_false_2. }
  by rewrite (then_ok _ _ _ _ _ Hread).
Qed.

(** What [run_code_review] does, by what the client and the service
    answer. *)
Lemma run_code_review_cases source filename t :
  run_code_review w source filename t
  = if api_key w then
      match completion w (review_request source filename) with
      | Ok review => (Ok review, t ++ [ERequest (review_request source filename)])
      | Raise (OpenAIError msg) =>
          (Raise (SystemExit 1),
           t ++ [ERequest (review_request source filename);
                 EPrint ("OpenAI API error: " +:+ msg)])
      | Raise e => (Raise e, t ++ [ERequest (review_request source filename)])
      end
    else (Raise (OpenAIError "The api_key client option must be set"), t).
Proof.
  unfold run_code_review, OpenAI, create, try_except, review_request.
  destruct (api_key w); [|done]. run_monad.
  destruct (completion w _) as [review|e]; [done|].
  destruct e; try done. simpl. by rewrite <- app_assoc.
Qed.

(** The run of [main] on a file that passes the checks. *)
Lemma main_outcome prog filepath f source :
  files w !! filepath = Some (NFile f) → readable f = true → data f = Text source →
  path_suffix filepath = ".py" → strip source ≠ EmptyString →
  let filename := path_name filepath in
  let before :=
    [EExists filepath; EReadText filepath] ++ (warn_if_large source []).2
    ++ [EPrint ("Reviewing '" +:+ filename +:+ "' with " +:+ MODEL +:+ "...")] in
  main w [prog; filepath] []
  = if api_key w then
      match completion w (review_request source filename) with
      | Ok review =>
          (Ok (), before ++ [ERequest (review_request source filename)]
                  ++ (print_review review filename []).2)
      | Raise (OpenAIError msg) =>
          (Raise (SystemExit 1),
           before ++ [ERequest (review_request source filename);
                      EPrint ("OpenAI API error: " +:+ msg)])
      | Raise e => (Raise e, before ++ [ERequest (review_request source filename)])
      end
    else (Raise (OpenAIError "The api_key client option must be set"), before).
Proof.
  intros Hf Hr Hd Hsuf Hne filename before.
  rewrite (main_after_read _ _ _ _ Hf Hr Hd Hsuf Hne). fold filename.
  destruct (warn_if_large_trace source [EExists filepath; EReadText filepath])
    as [Hwarn _].
  rewrite (then_ok _ _ _ _ _ Hwarn).
  unfold mbind at 1, M_bind at 1. unfold print at 1, emit, modify.
  set (t1 := _ ++ [EPrint _]).
  assert (Ht1 : t1 = before) by (subst t1 before; by rewrite <- app_assoc).
  unfold mbind, M_bind. rewrite run_code_review_cases, Ht1.
  destruct (api_key w); [|done].
  destruct (completion w _) as [review|e].
  - destruct (print_review_trace review filename
                (before ++ [ERequest (review_request source filename)])) as [-> _].
    by rewrite <- app_assoc.
  - by destruct e.
Qed.

(** X16: on a readable [.py] file whose text is not blank, with an API key
    and a service that answers, the script exits with status 0 after
    exactly this: it checks and reads the file; it prints the size warning
    exactly when the text has more than 12000 characters; it announces the
    review; it sends one request, for the model gpt-4o with at most 2048
    tokens, the system prompt of the script and the prompt that holds the
    file name and the whole text between code fences; and it prints a line
    of sixty [=] after an empty line, the file name, the model, the line of
    [=] again, the answer, and the line of [=] between two empty lines. The
    warning does not stop the review. *)
Theorem main_reviews_file prog filepath f source review :
  files w !! filepath = Some (NFile f) → readable f = true → data f = Text source →
  path_suffix filepath = ".py" → strip source ≠ EmptyString →
  api_key w = true →
  completion w
    (mkRequest "gpt-4o" 2048 SYSTEM_PROMPT
       ("Please review the following Python file: `" +:+ path_name filepath +:+ "`"
        +:+ NL +:+ NL +:+ "```python" +:+ NL +:+ source +:+ NL +:+ "```"))
  = Ok review →
  run w [prog; filepath]
  = ([EExists filepath; EReadText filepath]
     ++ (if 12000 <? Z.of_nat (String.length source)
         then [EPrint ("Warning: This file is "
                       +:+ str_of_int_commas (Z.of_nat (String.length source))
                       +:+ " characters. "
                       +:+ "Large files consume more API tokens and may increase cost."
                       +:+ NL)]
         else [])
     ++ [EPrint ("Reviewing '" +:+ path_name filepath +:+ "' with gpt-4o...");
         ERequest
           (mkRequest "gpt-4o" 2048 SYSTEM_PROMPT
              ("Please review the following Python file: `" +:+ path_name filepath +:+ "`"
               +:+ NL +:+ NL +:+ "```python" +:+ NL +:+ source +:+ NL +:+ "```"));
         EPrint (NL +:+ "============================================================");
         EPrint ("  CODE REVIEW: " +:+ path_name filepath);
         EPrint "  Model: gpt-4o";
         EPrint ("============================================================" +:+ NL);
         EPrint review;
         EPrint (NL +:+ "============================================================"
                 +:+ NL)], 0).
Proof.
  intros Hf Hr Hd Hsuf Hne Hkey Hans.
  unfold run. rewrite (main_outcome _ _ _ _ Hf Hr Hd Hsuf Hne), Hkey.
  unfold review_request, build_user_prompt, MODEL, MAX_TOKENS. rewrite Hans.
  assert (Hwarn : (warn_if_large source []).2
            = if 12000 <? Z.of_nat (String.length source)
              then [EPrint ("Warning: This file is "
                            +:+ str_of_int_commas (Z.of_nat (String.length source))
                            +:+ " characters. "
                            +:+ "Large files consume more API tokens and may increase cost."
                            +:+ NL)]
              else []).
  { unfold warn_if_large, MAX_FILE_CHARS. by destruct (12000 <? _). }
  assert (Hprint : (print_review review (path_name filepath) []).2
            = [EPrint (NL +:+ "============================================================");
               EPrint ("  CODE REVIEW: " +:+ path_name filepath);
               EPrint "  Model: gpt-4o";
               EPrint ("============================================================" +:+ NL);
               EPrint review;
               EPrint (NL +:+ "============================================================"
                       +:+ NL)])
    by reflexivity.
  rewrite Hwarn, Hprint. by rewrite <- !app_assoc.
Qed.

(** X17: when the service refuses the request with an [OpenAIError], the
    script prints the error after the request, exits with status 1, and
    prints no review. *)
Theorem main_service_error prog filepath f source msg :
  files w !! filepath = Some (NFile f) → readable f = true → data f = Text source →
  path_suffix filepath = ".py" → strip source ≠ EmptyString →
  api_key w = true →
  completion w (review_request source (path_name filepath)) = Raise (OpenAIError msg) →
  run w [prog; filepath]
  = ([EExists filepath; EReadText filepath] ++ (warn_if_large source []).2
     ++ [EPrint ("Reviewing '" +:+ path_name filepath +:+ "' with " +:+ MODEL +:+ "...");
         ERequest (review_request source (path_name filepath));
         EPrint ("OpenAI API error: " +:+ msg)], 1).
Proof.
  intros Hf Hr Hd Hsuf Hne Hkey Hans.
  unfold run. rewrite (main_outcome _ _ _ _ Hf Hr Hd Hsuf Hne), Hkey, Hans.
  by rewrite <- !app_assoc.
Qed.

(** X18: the client is built outside the [try] of [run_code_review]: when
    it cannot be built for want of an API key, its exception is not
    handled, so the script ends with status 1 after announcing the review,
    without the message of the handler and without having sent a
    request. *)
Theorem main_without_api_key prog filepath f source :
  files w !! filepath = Some (NFile f) → readable f = true → data f = Text source →
  path_suffix filepath = ".py" → strip source ≠ EmptyString →
  api_key w = false →
  ∃ t, run w [prog; filepath] = (t, 1)
    ∧ t = [EExists filepath; EReadText filepath] ++ (warn_if_large source []).2
          ++ [EPrint ("Reviewing '" +:+ path_name filepath +:+ "' with " +:+ MODEL +:+ "...")]
    ∧ Forall (λ e, is_request e = false) t.
Proof.
  intros Hf Hr Hd Hsuf Hne Hkey. eexists. split; [|split; [reflexivity|]].
  - unfold run. by rewrite (main_outcome _ _ _ _ Hf Hr Hd Hsuf Hne), Hkey.
  - destruct (warn_if_large_trace source []) as [_ Hwarn].
    repeat (apply Forall_app; split); try by repeat constructor.
    eapply Forall_impl; [exact Hwarn|]. by intros e [? _].
Qed.

(** [read_source_file] sends nothing. *)
Lemma read_source_file_no_request filepath r t :
  read_source_file w filepath [] = (r, t) → Forall (λ e, is_request e = false) t.
Proof.
  unfold read_source_file, path_exists, try_except, read_text, exists_.
  run_monad.
  destruct (files w !! filepath) as [[f| |]|]; simpl;
    try (intros [= <- <-]; by repeat constructor);
    (case_bool_decide; simpl; [intros [= <- <-]; by repeat constructor|]);
    try (intros [= <- <-]; by repeat constructor).
  destruct (readable f); simpl; [|intros [= <- <-]; by repeat constructor].
  destruct (data f); simpl; [|intros [= <- <-]; by repeat constructor].
  case_bool_decide; simpl; intros [= <- <-]; by repeat constructor.
Qed.

(** X19: the script sends a request only for a file that has passed every
    check. Whatever the arguments, the files and the answers of the
    service, if a run sends a request, then the script was called with one
    path, that path names a readable [.py] file whose text is not blank,
    the client had its key, the request is the one built from the whole
    text of that file and its name, and it is the only request of the
    run. *)
Theorem request_only_for_checked_file argv t status r :
  run w argv = (t, status) → ERequest r ∈ t →
  ∃ prog filepath f source,
    argv = [prog; filepath]
    ∧ files w !! filepath = Some (NFile f) ∧ readable f = true
    ∧ data f = Text source ∧ path_suffix filepath = ".py"
    ∧ strip source ≠ EmptyString
    ∧ api_key w = true
    ∧ r = review_request source (path_name filepath)
    ∧ ∃ before after, t = before ++ ERequest r :: after
        ∧ Forall (λ e, is_request e = false) before
        ∧ Forall (λ e, is_request e = false) after.
Proof.
  intros Hrun Hin.
  assert (Hquiet : ∀ t0, Forall (λ e, is_request e = false) t0 → ERequest r ∈ t0 → False).
  { intros t0 Hall Hr. rewrite Forall_forall in Hall. by specialize (Hall _ Hr). }
  destruct (decide (length argv = 2%nat)) as [Hlen|Hlen]; cycle 1.
  { exfalso. unfold run, main in Hrun.
    rewrite bool_decide_eq_true_2 in Hrun by done. injection Hrun as <- _.
    apply (Hquiet [EPrint "Usage: python review.py <path_to_file.py>"]); [|done].
    by repeat constructor. }
  destruct argv as [|prog [|filepath [|? ?]]]; try discriminate.
  destruct (read_source_file w filepath []) as [[source|e] t1] eqn:Hread; cycle 1.
  { exfalso. pose proof (read_source_file_no_request _ _ _ Hread) as Hno.
    unfold run, main in Hrun.
    rewrite bool_decide_eq_false_2 in Hrun by (simpl; lia). simpl in Hrun.
    rewrite (then_raise _ _ _ _ _ Hread) in Hrun.
    apply (Hquiet t1 Hno). by destruct e; injection Hrun as <- _. }
  destruct (read_source_file_returns _ _ _ _ _ Hread) as (f & Hf & Hr & Hd & Hsuf).
  assert (Hne : strip source ≠ EmptyString).
  { rewrite (read_source_file_read _ _ _ _ _ Hf Hr Hd Hsuf) in Hread.
    by case_bool_decide. }
  exists prog, filepath, f, source. do 6 (split; [done|]).
  unfold run in Hrun. rewrite (main_outcome _ _ _ _ Hf Hr Hd Hsuf Hne) in Hrun.
  set (before := [EExists filepath; EReadText filepath] ++ (warn_if_large source []).2
                 ++ [EPrint ("Reviewing '" +:+ path_name filepath +:+ "' with "
                             +:+ MODEL +:+ "...")]) in *.
  set (rq := review_request source (path_name filepath)) in *.
  assert (Hbefore : Forall (λ e, is_request e = false) before).
  { destruct (warn_if_large_trace source []) as [_ Hwarn].
    repeat (apply Forall_app; split); try by repeat constructor.
    eapply Forall_impl; [exact Hwarn|]. by intros e [? _]. }
  destruct (api_key w).
  2:{ exfalso. injection Hrun as <- _. by apply (Hquiet before). }
  assert (Hone : ∀ after, Forall (λ e, is_request e = false) after →
            ERequest r ∈ before ++ ERequest rq :: after → r = rq).
  { intros after Hafter Hr'. apply elem_of_app in Hr' as [Hr'|Hr'].
    - exfalso. by apply (Hquiet before).
    - apply elem_of_cons in Hr' as [[= ->]|Hr']; [done|].
      exfalso. by apply (Hquiet after). }
  assert (Hreview : ∀ review, Forall (λ e, is_request e = false)
                                (print_review review (path_name filepath) []).2).
  { intros review. destruct (print_review_trace review (path_name filepath) [])
      as (_ & Hp & _). eapply Forall_impl; [exact Hp|]. by intros e [? _]. }
  split; [done|].
  destruct (completion w rq) as [review|e].
  - injection Hrun as <- _.
    pose proof (Hone _ (Hreview review) Hin) as ->.
    split; [done|]. by exists before, (print_review review (path_name filepath) []).2.
  - assert (∃ after, t = before ++ ERequest rq :: after
                     ∧ Forall (λ e, is_request e = false) after)
      as (after & -> & Hafter).
    { destruct e; injection Hrun as <- _;
        (eexists; split; [reflexivity|by repeat constructor]). }
    pose proof (Hone _ Hafter Hin) as ->.
    split; [done|]. by exists before, after.
Qed.

(** A name of printable characters without a separator, a quote or a
    backslash is shown between single quotes as it is. *)
Lemma repr_body_plain s :
  Forall (λ c, py_isprintable c = true ∧ c ≠ "'"%char ∧ c ≠ "092"%char)
         (list_ascii_of_string s) →
  repr_body "'" s = s ∧ str_contains "'" s = false.
Proof.
  induction s as [|c s IH]; [done|]. simpl. intros Hall.
  apply Forall_cons in Hall as [(Hp & Hq & Hb) Hall].
  destruct (IH Hall) as [-> ->]. split.
  - unfold repr_char. rewrite bool_decide_eq_false_2 by done.
    assert (Hcode : code c ≠ 92).
    { intros Hc. apply Hb. rewrite <- (ascii_N_embedding c).
      unfold code in Hc. replace (N_of_ascii c) with 92%N by lia. reflexivity. }
    rewrite (proj2 (Z.eqb_neq _ _) Hcode). simpl.
    unfold py_isprintable in Hp.
    destruct (Z.eqb_spec (code c) 9) as [Heq|_]; [rewrite Heq in Hp; discriminate Hp|].
    destruct (Z.eqb_spec (code c) 10) as [Heq|_]; [rewrite Heq in Hp; discriminate Hp|].
    destruct (Z.eqb_spec (code c) 13) as [Heq|_]; [rewrite Heq in Hp; discriminate Hp|].
    unfold py_isprintable. by rewrite Hp.
  - by rewrite bool_decide_eq_false_2.
Qed.

Lemma split_on_plain s :
  Forall (λ c, c ≠ "/"%char) (list_ascii_of_string s) → split_on "/" s = [s].
Proof.
  induction s as [|c s IH]; [done|]. simpl. intros Hall.
  apply Forall_cons in Hall as [Hc Hall].
  rewrite bool_decide_eq_false_2 by done. by rewrite (IH Hall).
Qed.

Lemma repr_plain_name name :
  Forall (λ c, py_isprintable c = true ∧ c ≠ "'"%char ∧ c ≠ "092"%char ∧ c ≠ "/"%char)
         (list_ascii_of_string name) →
  name ≠ EmptyString → name ≠ "." →
  py_repr (path_str name) = "'" +:+ name +:+ "'".
Proof.
  intros Hall Hne Hdot.
  assert (Hstr : path_str name = name).
  { unfold path_str. rewrite split_on_plain
      by (eapply Forall_impl; [exact Hall|]; by intros c (_ & _ & _ & ?)).
    rewrite filter_cons_True by done. rewrite filter_nil. simpl.
    destruct name as [|c r]; [done|].
    apply Forall_cons in Hall as [(_ & _ & _ & Hc) _].
    assert (Hlead : leading_seps (String c r) = O).
    { simpl. destruct c as [[] [] [] [] [] [] [] []]; try reflexivity. by destruct Hc. }
    by rewrite Hlead. }
  rewrite Hstr. unfold py_repr.
  destruct (repr_body_plain name) as [Hbody Hq].
  { eapply Forall_impl; [exact Hall|]. by intros c (? & ? & ? & _). }
  rewrite Hq. cbn [andb]. rewrite Hbody. reflexivity.
Qed.

(** X20: a [.py] path that exists and cannot be read as a file (a
    directory, a file without read permission) makes [read_text] raise an
    [OSError], which [read_source_file] reports before it exits with
    status 1; the script ends there, without a request. The text of the
    error names the file as [repr(str(path))] shows it: the path without
    empty and ["."] components, between quotes. For a name of printable
    characters without a separator, a quote or a backslash, that is the
    name between single quotes. *)
Theorem read_source_file_os_error prog filepath :
  path_suffix filepath = ".py" →
  (files w !! filepath = Some NDir →
     run w [prog; filepath]
     = ([EExists filepath; EReadText filepath;
         EPrint ("Error: Could not read file " +:+ EM_DASH
                 +:+ " [Errno 21] Is a directory: " +:+ py_repr (path_str filepath))], 1))
  ∧ (∀ f, files w !! filepath = Some (NFile f) → readable f = false →
     run w [prog; filepath]
     = ([EExists filepath; EReadText filepath;
         EPrint ("Error: Could not read file " +:+ EM_DASH
                 +:+ " [Errno 13] Permission denied: " +:+ py_repr (path_str filepath))], 1))
  ∧ (Forall (λ c, py_isprintable c = true ∧ c ≠ "'"%char ∧ c ≠ "092"%char
                  ∧ c ≠ "/"%char) (list_ascii_of_string filepath) →
     py_repr (path_str filepath) = "'" +:+ filepath +:+ "'").
Proof.
  intros Hsuf. split; [|split].
  - intros Hf. unfold run, main.
    rewrite bool_decide_eq_false_2 by (simpl; lia). simpl.
    unfold read_source_file, path_exists, try_except, read_text, exists_.
    run_monad. rewrite Hf. simpl.
    by rewrite bool_decide_eq_false_2 by (by intros []).
  - intros f Hf Hr. unfold run, main.
    rewrite bool_decide_eq_false_2 by (simpl; lia). simpl.
    unfold read_source_file, path_exists, try_except, read_text, exists_.
    run_monad. rewrite Hf. simpl.
    rewrite bool_decide_eq_false_2 by (by intros []). simpl. by rewrite Hr.
  - intros Hall. apply repr_plain_name; [done| |].
    + intros ->. discriminate Hsuf.
    + intros ->. discriminate Hsuf.
Qed.

(** X21: a readable [.py] file whose bytes are not UTF-8 text makes
    [read_text] raise [UnicodeDecodeError], which is no [OSError]: the
    handler of [read_source_file] does not catch it, no message of the
    script is printed, and the script ends with status 1 on the uncaught
    exception. *)
Theorem read_source_file_undecodable prog filepath f t :
  files w !! filepath = Some (NFile f) → readable f = true → data f = Undecodable →
  path_suffix filepath = ".py" →
  read_source_file w filepath t
  = (Raise UnicodeDecodeError, t ++ [EExists filepath; EReadText filepath])
  ∧ run w [prog; filepath] = ([EExists filepath; EReadText filepath], 1).
Proof.
  intros Hf Hr Hd Hsuf.
  assert (Hread : ∀ t0, read_source_file w filepath t0
            = (Raise UnicodeDecodeError, t0 ++ [EExists filepath; EReadText filepath])).
  { intros t0. unfold read_source_file, path_exists, try_except, read_text, exists_.
    run_monad. rewrite Hf. simpl.
    rewrite bool_decide_eq_false_2 by (by intros []). simpl.
    rewrite Hr, Hd. simpl. by rewrite <- app_assoc. }
  split; [apply Hread|].
  unfold run, main. rewrite bool_decide_eq_false_2 by (simpl; lia). simpl.
  by rewrite (then_raise _ _ _ _ _ (Hread [])).
Qed.

End more.

(** X22: for a given file name, the prompt determines the source text:
    two texts that differ give prompts that differ, down to white space at
    either end. *)
Theorem build_user_prompt_distinct filename source1 source2 :
  source1 ≠ source2 →
  build_user_prompt source1 filename ≠ build_user_prompt source2 filename.
Proof.
  unfold build_user_prompt. intros Hne Heq. apply Hne.
  repeat (apply String.app_inj in Heq). by apply append_inj_r in Heq.
Qed.

(** *** The statements above in concrete environments *)

Lemma main_reviews_file_witness :
  run example_env ["review.py"; "ok.py"]
  = ([EExists "ok.py"; EReadText "ok.py";
      EPrint "Reviewing 'ok.py' with gpt-4o...";
      ERequest
        (mkRequest "gpt-4o" 2048 SYSTEM_PROMPT
           ("Please review the following Python file: `ok.py`" +:+ NL +:+ NL
            +:+ "```python" +:+ NL +:+ "  x = 1" +:+ NL +:+ NL +:+ "```"));
      EPrint (NL +:+ "============================================================");
      EPrint "  CODE REVIEW: ok.py";
      EPrint "  Model: gpt-4o";
      EPrint ("============================================================" +:+ NL);
      EPrint "SUMMARY: nothing to report.";
      EPrint (NL +:+ "============================================================" +:+ NL)],
     0).
Proof.
  apply (main_reviews_file example_env "review.py" "ok.py"
           (mkFile true true (Text ("  x = 1" +:+ NL))) ("  x = 1" +:+ NL)
           "SUMMARY: nothing to report."); try reflexivity.
  vm_compute. discriminate.
Defined.

Lemma main_service_error_witness :
  run refusing_env ["review.py"; "ok.py"]
  = ([EExists "ok.py"; EReadText "ok.py";
      EPrint "Reviewing 'ok.py' with gpt-4o...";
      ERequest (review_request ("  x = 1" +:+ NL) "ok.py");
      EPrint "OpenAI API error: Rate limit reached"], 1).
Proof.
  apply (main_service_error refusing_env "review.py" "ok.py"
           (mkFile true true (Text ("  x = 1" +:+ NL))) ("  x = 1" +:+ NL)
           "Rate limit reached"); try reflexivity.
  vm_compute. discriminate.
Defined.

Lemma main_without_api_key_witness :
  ∃ t, run keyless_env ["review.py"; "ok.py"] = (t, 1)
    ∧ t = [EExists "ok.py"; EReadText "ok.py"] ++ (warn_if_large ("  x = 1" +:+ NL) []).2
          ++ [EPrint ("Reviewing '" +:+ path_name "ok.py" +:+ "' with " +:+ MODEL +:+ "...")]
    ∧ Forall (λ e, is_request e = false) t.
Proof.
  apply (main_without_api_key keyless_env "review.py" "ok.py"
           (mkFile true true (Text ("  x = 1" +:+ NL))) ("  x = 1" +:+ NL));
    try reflexivity.
  vm_compute. discriminate.
Defined.

Lemma request_only_for_checked_file_witness :
  ERequest (review_request ("  x = 1" +:+ NL) "ok.py")
    ∈ (run example_env ["review.py"; "ok.py"]).1
  ∧ ∃ prog filepath f source,
      ["review.py"; "ok.py"] = [prog; filepath]
      ∧ files example_env !! filepath = Some (NFile f) ∧ readable f = true
      ∧ data f = Text source ∧ path_suffix filepath = ".py"
      ∧ strip source ≠ EmptyString
      ∧ api_key example_env = true
      ∧ review_request ("  x = 1" +:+ NL) "ok.py"
        = review_request source (path_name filepath)
      ∧ ∃ before after,
          (run example_env ["review.py"; "ok.py"]).1
          = before ++ ERequest (review_request ("  x = 1" +:+ NL) "ok.py") :: after
          ∧ Forall (λ e, is_request e = false) before
          ∧ Forall (λ e, is_request e = false) after.
Proof.
  assert (Hin : ERequest (review_request ("  x = 1" +:+ NL) "ok.py")
                  ∈ (run example_env ["review.py"; "ok.py"]).1).
  { vm_compute. do 3 apply list_elem_of_further. apply list_elem_of_here. }
  split; [exact Hin|].
  apply (request_only_for_checked_file example_env ["review.py"; "ok.py"]
           (run example_env ["review.py"; "ok.py"]).1 0
           (review_request ("  x = 1" +:+ NL) "ok.py")); [|exact Hin].
  vm_compute. reflexivity.
Defined.

Lemma read_source_file_os_error_witness :
  run quoting_env ["review.py"; "./pkg.py"]
  = ([EExists "./pkg.py"; EReadText "./pkg.py";
      EPrint ("Error: Could not read file " +:+ EM_DASH
              +:+ " [Errno 21] Is a directory: 'pkg.py'")], 1)
  ∧ run quoting_env ["review.py"; "it's.py"]
    = ([EExists "it's.py"; EReadText "it's.py";
        EPrint ("Error: Could not read file " +:+ EM_DASH
                +:+ " [Errno 13] Permission denied: "
                +:+ String "034" ("it's.py" +:+ String "034" EmptyString))], 1)
  ∧ py_repr (path_str "secret.py") = "'secret.py'".
Proof.
  split; [|split].
  - apply (proj1 (read_source_file_os_error quoting_env "review.py" "./pkg.py" eq_refl)).
    reflexivity.
  - apply (proj1 (proj2 (read_source_file_os_error quoting_env "review.py" "it's.py"
                           eq_refl))
             (mkFile false true (Text ("x = 1" +:+ NL)))); reflexivity.
  - apply (proj2 (proj2 (read_source_file_os_error quoting_env "review.py" "secret.py"
                           eq_refl))).
    repeat constructor; vm_compute; discriminate.
Defined.

Lemma read_source_file_undecodable_witness :
  read_source_file refusing_env "binary.py" []
  = (Raise UnicodeDecodeError, [EExists "binary.py"; EReadText "binary.py"])
  ∧ run refusing_env ["review.py"; "binary.py"]
    = ([EExists "binary.py"; EReadText "binary.py"], 1).
Proof.
  apply (read_source_file_undecodable refusing_env "review.py" "binary.py"
           (mkFile true true Undecodable) []); reflexivity.
Defined.

Lemma build_user_prompt_distinct_witness :
  build_user_prompt ("  x = 1" +:+ NL) "ok.py" ≠ build_user_prompt "x = 1" "ok.py".
Proof.
  apply (build_user_prompt_distinct "ok.py" ("  x = 1" +:+ NL) "x = 1").
  vm_compute. discriminate.
Defined.

End ReviewerMore.
